(** * multicam-infer: geometry kernel, temporal confirmation, deduplication,
      HLS frame source, event-stream and metadata publishers

    A shallow embedding of the Python sources under [src/kvs_infer].
    Python [float] values are idealised as rationals ([Q]); Python [int]
    values are [Z]; exceptions are values of [exn] carried by [result].
    External libraries (hashlib, json, cv2, boto3, random, time) are taken
    as explicit oracles. *)

From Stdlib Require Import ZArith QArith Qround Qpower Lqa Lia List String Ascii Bool.
From Stdlib Require Import DecimalString DecimalZ.
From stdpp Require Import base list gmap strings.
Import ListNotations.

(** ** Python runtime conventions *)

Inductive exn : Type :=
| IndexError | KeyError | NameError | TypeError | ValueError
| ZeroDivisionError | AttributeError | Exception
| OverflowError | KVSConnectionError | FrameSourceError | OutOfFuel.

Inductive result (A : Type) : Type :=
| Ok (a : A)
| Raise (e : exn).
Arguments Ok {A} a.
Arguments Raise {A} e.

Definition rbind {A B} (r : result A) (k : A -> result B) : result B :=
  match r with
  | Ok a => k a
  | Raise e => Raise e
  end.

Notation "x <-! r ;; k" := (rbind r (fun x => k))
  (at level 100, r at next level, right associativity).

Definition Qlt_bool (a b : Q) : bool := negb (Qle_bool b a).

(** [time.sleep(secs)] first converts [secs] to a signed 64-bit count of
    nanoseconds and raises [OverflowError] when it does not fit, then raises
    [ValueError] when it is negative; otherwise it returns once the delay
    has elapsed. *)
Definition sleep_limit : Q := 9223372036854775807 # 1000000000.
Definition sleep_floor : Q := -9223372036854775808 # 1000000000.

Definition sleep_error (secs : Q) : option exn :=
  if Qlt_bool sleep_limit secs || Qlt_bool secs sleep_floor
  then Some OverflowError
  else if Qlt_bool secs 0 then Some ValueError
  else None.

Definition time_sleep_result (secs : Q) : result unit :=
  match sleep_error secs with
  | Some e => Raise e
  | None => Ok tt
  end.

(** Python's built-in [min] and [max] on two arguments: the first argument
    wins ties. *)
Definition py_min (a b : Q) : Q := if Qlt_bool b a then b else a.
Definition py_max (a b : Q) : Q := if Qlt_bool a b then b else a.

(** [int(x)] on a float truncates toward zero. *)
Definition py_int (x : Q) : Z :=
  if Qle_bool 0 x then Qfloor x else Qceiling x.

(** [str(n)] on an int: decimal digits, a leading minus sign when negative. *)
Definition py_str_int (n : Z) : string :=
  NilZero.string_of_int (Z.to_int n).

(** [collections.deque(maxlen=m).append(x)]: push on the right, then pop
    from the left when the length exceeds [maxlen]. *)
Definition deque_append {A} (maxlen : nat) (d : list A) (x : A) : list A :=
  let d' := d ++ [x] in
  if (maxlen <? length d')%nat then tl d' else d'.

Definition point : Type := Q * Q.
Definition polygon : Type := list point.

(** A bounding box [[x1, y1, x2, y2]]. *)
Record bbox : Type := BBox { bx1 : Q; by1 : Q; bx2 : Q; by2 : Q }.

(** A raw detection [(label, conf, bbox)] as produced by [run_yolo]. *)
Definition detection : Type := string * Q * bbox.

(** ** Python values carried by event payloads

    The event dictionaries handed to the publishers are built from strings,
    ints, floats, lists and string-keyed dicts (the JSON data model that
    [json.dumps] serialises), plus [None], [bool], [Decimal] and tuples. A
    dict is kept as an association list in insertion order. *)
#[local] Unset Elimination Schemes.
Inductive pyval : Type :=
| PyNone
| PyBool (b : bool)
| PyInt (z : Z)
| PyFloat (q : Q)
| PyStr (s : string)
| PyDecimal (q : Q)
| PyList (l : list pyval)
| PyDict (d : list (string * pyval))
| PyTuple (t : list pyval).
#[local] Set Elimination Schemes.

Fixpoint dict_get (d : list (string * pyval)) (k : string) : option pyval :=
  match d with
  | [] => None
  | (k', v) :: d' => if String.eqb k' k then Some v else dict_get d' k
  end.

(** [obj[k]]: [KeyError] on a missing key, [TypeError] when [obj] is not
    subscriptable by a string. *)
Definition py_getitem (obj : pyval) (k : string) : result pyval :=
  match obj with
  | PyDict d =>
    match dict_get d k with
    | Some v => Ok v
    | None => Raise KeyError
    end
  | _ => Raise TypeError
  end.

(** [d[k] = v] on a dict: overwrite in place or append a new key. *)
Fixpoint dict_set (d : list (string * pyval)) (k : string) (v : pyval)
  : list (string * pyval) :=
  match d with
  | [] => [(k, v)]
  | (k', v') :: d' =>
    if String.eqb k' k then (k', v) :: d' else (k', v') :: dict_set d' k v
  end.

(** ** External libraries *)

(** [hashlib.sha1(s.encode()).hexdigest()] and [hashlib.md5(s.encode()).hexdigest()]. *)
Class Hashlib : Type := {
  sha1_hexdigest : string -> string;
  md5_hexdigest : string -> string
}.

(** The numpy/OpenCV part of one iteration of the polygon loop of
    [utils/roi.py: bbox_overlaps_roi], for a polygon with at least one
    vertex and the box [x1, y1, x2, y2]: [np.array] on the polygon, the two
    masks that cover box and polygon, [cv2.fillPoly], [cv2.bitwise_and] and
    [np.count_nonzero]. It yields [intersection_area], or raises when numpy
    or OpenCV reject their arguments (a mask size that is no non-negative
    integer, for one). *)
Class Cv2 : Type := {
  count_intersection : Z -> Z -> Z -> Z -> polygon -> result Z
}.

(** Short-circuiting [any(...)] and [all(...)] over a generator whose items
    may raise. *)
Fixpoint py_any {A} (f : A -> result bool) (l : list A) : result bool :=
  match l with
  | [] => Ok false
  | a :: l' => b <-! f a ;; if b : bool then Ok true else py_any f l'
  end.

Fixpoint py_all {A} (f : A -> result bool) (l : list A) : result bool :=
  match l with
  | [] => Ok true
  | a :: l' => b <-! f a ;; if b : bool then py_all f l' else Ok false
  end.

(** ** The ray-casting loop shared verbatim by both [point_in_polygon] copies *)

(** Loop-carried variables: [inside], the previous vertex [(p1x, p1y)] and
    [xinters], which is unbound until its first assignment. *)
Record ray_state : Type := RayState {
  inside : bool;
  p1 : point;
  xinters : option Q
}.

(** One iteration of [for i in range(1, n + 1)] after [p2x, p2y = polygon[i % n]]. *)
Definition ray_edge (pt : point) (p2 : point) (st : ray_state) : result ray_state :=
  let '(x, y) := pt in
  let '(p1x, p1y) := p1 st in
  let '(p2x, p2y) := p2 in
  let next ins xi := Ok (RayState ins p2 xi) in
  if Qlt_bool (py_min p1y p2y) y then
    if Qle_bool y (py_max p1y p2y) then
      if Qle_bool x (py_max p1x p2x) then
        let xi :=
          if negb (Qeq_bool p1y p2y)
          then Some ((y - p1y) * (p2x - p1x) / (p2y - p1y) + p1x)%Q
          else xinters st in
        if Qeq_bool p1x p2x then next (negb (inside st)) xi
        else match xi with
             | None => Raise NameError
             | Some v =>
               if Qle_bool x v then next (negb (inside st)) xi
               else next (inside st) xi
             end
      else next (inside st) (xinters st)
    else next (inside st) (xinters st)
  else next (inside st) (xinters st).

Fixpoint ray_loop (pt : point) (poly : polygon) (n : nat) (idxs : list nat)
  (st : ray_state) : result ray_state :=
  match idxs with
  | [] => Ok st
  | i :: idxs' =>
    match nth_error poly (i mod n) with
    | None => Raise IndexError
    | Some p2 =>
      st' <-! ray_edge pt p2 st ;; ray_loop pt poly n idxs' st'
    end
  end.

Module roi.

(** [utils/roi.py: point_in_polygon] *)
Definition point_in_polygon (pt : point) (poly : polygon) : result bool :=
  if (length poly <? 3)%nat then Ok false
  else
    let n := length poly in
    match nth_error poly 0 with
    | None => Raise IndexError
    | Some p0 =>
      st <-! ray_loop pt poly n (seq 1 n) (RayState false p0 None) ;;
      Ok (inside st)
    end.

(** [utils/roi.py: iou] *)
Definition iou (box1 box2 : bbox) : Q :=
  let x1_i := py_max (bx1 box1) (bx1 box2) in
  let y1_i := py_max (by1 box1) (by1 box2) in
  let x2_i := py_min (bx2 box1) (bx2 box2) in
  let y2_i := py_min (by2 box1) (by2 box2) in
  if Qle_bool x2_i x1_i || Qle_bool y2_i y1_i then 0%Q
  else
    let intersection_area := ((x2_i - x1_i) * (y2_i - y1_i))%Q in
    let box1_area := ((bx2 box1 - bx1 box1) * (by2 box1 - by1 box1))%Q in
    let box2_area := ((bx2 box2 - bx1 box2) * (by2 box2 - by1 box2))%Q in
    let union_area := (box1_area + box2_area - intersection_area)%Q in
    if Qle_bool union_area 0 then 0%Q
    else (intersection_area / union_area)%Q.

(** An entry [(label, bbox, confidence, frame_idx)] of the buffer. *)
Definition entry : Type := string * bbox * Q * Z.

(** [utils/roi.py: class TemporalBuffer] *)
Record TemporalBuffer : Type := MkTemporalBuffer {
  maxlen : nat;
  buffer : list entry;
  _frame_counter : Z
}.

Definition TemporalBuffer_init (maxlen : nat) : TemporalBuffer :=
  MkTemporalBuffer maxlen [] 0.

Definition add (self : TemporalBuffer) (label : string) (box : bbox)
  (confidence : Q) (frame_idx : option Z) : TemporalBuffer :=
  let '(frame_idx, counter) :=
    match frame_idx with
    | None => (_frame_counter self, (_frame_counter self + 1)%Z)
    | Some i => (i, _frame_counter self)
    end in
  MkTemporalBuffer (maxlen self)
    (deque_append (maxlen self) (buffer self) (label, box, confidence, frame_idx))
    counter.

Fixpoint count_similar_loop (buf : list entry) (label : string) (box : bbox)
  (iou_threshold : Q) (count : Z) : Z :=
  match buf with
  | [] => count
  | (buf_label, buf_bbox, _, _) :: rest =>
    if negb (String.eqb buf_label label)
    then count_similar_loop rest label box iou_threshold count
    else
      let overlap := iou box buf_bbox in
      if Qle_bool iou_threshold overlap
      then count_similar_loop rest label box iou_threshold (count + 1)%Z
      else count_similar_loop rest label box iou_threshold count
  end.

Definition count_similar (self : TemporalBuffer) (label : string) (box : bbox)
  (iou_threshold : Q) : Z :=
  count_similar_loop (buffer self) label box iou_threshold 0.

(** [utils/roi.py: temporal_confirm]: count against the existing history,
    then append, then compare with [min_confirmations - 1]. *)
Definition temporal_confirm (buf : TemporalBuffer) (label : string) (box : bbox)
  (confidence : Q) (min_confirmations : Z) (iou_threshold : Q)
  (frame_idx : option Z) : bool * TemporalBuffer :=
  let count := count_similar buf label box iou_threshold in
  let buf' := add buf label box confidence frame_idx in
  ((min_confirmations - 1 <=? count)%Z, buf').

(** [utils/roi.py: filter_boxes_by_roi]; the mode string is validated by
    the caller, so it is one of the four accepted values. *)
Inductive roi_mode : Type := Center | Any | All | Overlap.

(** The [for roi_polygon in roi_polygons] loop of [bbox_overlaps_roi]:
    [max(poly_x)] raises [ValueError] on a polygon without vertices. *)
Fixpoint overlaps_loop `{Cv2} (x1 y1 x2 y2 bbox_area : Z)
  (roi_polygons : list polygon) (threshold : Q) : result bool :=
  match roi_polygons with
  | [] => Ok false
  | roi_polygon :: rest =>
    match roi_polygon with
    | [] => Raise ValueError
    | _ =>
      intersection_area <-! count_intersection x1 y1 x2 y2 roi_polygon ;;
      let overlap_ratio :=
        (inject_Z intersection_area / inject_Z bbox_area)%Q in
      if Qle_bool threshold overlap_ratio then Ok true
      else overlaps_loop x1 y1 x2 y2 bbox_area rest threshold
    end
  end.

(** [utils/roi.py: bbox_overlaps_roi] *)
Definition bbox_overlaps_roi `{Cv2} (box : bbox) (roi_polygons : list polygon)
  (threshold : Q) : result bool :=
  let x1 := py_int (bx1 box) in
  let y1 := py_int (by1 box) in
  let x2 := py_int (bx2 box) in
  let y2 := py_int (by2 box) in
  if (x2 <=? x1)%Z || (y2 <=? y1)%Z then Ok false
  else
    let bbox_area := ((x2 - x1) * (y2 - y1))%Z in
    if (bbox_area =? 0)%Z then Ok false
    else overlaps_loop x1 y1 x2 y2 bbox_area roi_polygons threshold.

Definition box_passes_roi `{Cv2} (box : bbox) (roi_polygons : list polygon)
  (mode : roi_mode) (min_overlap : Q) : result bool :=
  let corners :=
    [(bx1 box, by1 box); (bx2 box, by1 box);
     (bx1 box, by2 box); (bx2 box, by2 box)] in
  match mode with
  | Center =>
    let center := (((bx1 box + bx2 box) / 2)%Q, ((by1 box + by2 box) / 2)%Q) in
    py_any (fun polygon => point_in_polygon center polygon) roi_polygons
  | Any =>
    py_any (fun polygon =>
              py_any (fun corner => point_in_polygon corner polygon) corners)
           roi_polygons
  | All =>
    py_any (fun polygon =>
              py_all (fun corner => point_in_polygon corner polygon) corners)
           roi_polygons
  | Overlap => bbox_overlaps_roi box roi_polygons min_overlap
  end.

Fixpoint filter_boxes_loop `{Cv2} (boxes : list detection)
  (roi_polygons : list polygon) (mode : roi_mode) (min_overlap : Q)
  : result (list detection) :=
  match boxes with
  | [] => Ok []
  | (label, conf, box) :: rest =>
    keep <-! box_passes_roi box roi_polygons mode min_overlap ;;
    filtered <-! filter_boxes_loop rest roi_polygons mode min_overlap ;;
    Ok (if keep : bool then (label, conf, box) :: filtered else filtered)
  end.

Definition filter_boxes_by_roi `{Cv2} (boxes : list detection)
  (roi_polygons : option (list polygon)) (mode : roi_mode) (min_overlap : Q)
  : result (list detection) :=
  match roi_polygons with
  | None | Some [] => Ok boxes
  | Some polys => filter_boxes_loop boxes polys mode min_overlap
  end.

(** Python's slice [l[start:]] for an integer [start]: a negative start
    counts from the end, and both ends are clamped. *)
Definition py_slice_from {A} (l : list A) (start : Z) : list A :=
  let len := Z.of_nat (length l) in
  let start :=
    if (start <? 0)%Z then Z.max (start + len) 0 else Z.min start len in
  skipn (Z.to_nat start) l.

(** [TemporalBuffer.get_recent]: [list(self.buffer)[-n:]] *)
Definition get_recent (self : TemporalBuffer) (n : Z) : list entry :=
  py_slice_from (buffer self) (- n).

(** [TemporalBuffer.clear] *)
Definition clear (self : TemporalBuffer) : TemporalBuffer :=
  MkTemporalBuffer (maxlen self) [] 0.

(** [TemporalBuffer.size] and [TemporalBuffer.is_empty] *)
Definition size (self : TemporalBuffer) : Z := Z.of_nat (length (buffer self)).

Definition is_empty (self : TemporalBuffer) : bool := (size self =? 0)%Z.

End roi.

Module base.

(** [detectors/base.py: calculate_iou] *)
Definition calculate_iou (box1 box2 : bbox) : Q :=
  let x1_i := py_max (bx1 box1) (bx1 box2) in
  let y1_i := py_max (by1 box1) (by1 box2) in
  let x2_i := py_min (bx2 box1) (bx2 box2) in
  let y2_i := py_min (by2 box1) (by2 box2) in
  if Qle_bool x2_i x1_i || Qle_bool y2_i y1_i then 0%Q
  else
    let intersection := ((x2_i - x1_i) * (y2_i - y1_i))%Q in
    let area1 := ((bx2 box1 - bx1 box1) * (by2 box1 - by1 box1))%Q in
    let area2 := ((bx2 box2 - bx1 box2) * (by2 box2 - by1 box2))%Q in
    let union := (area1 + area2 - intersection)%Q in
    if Qle_bool union 0 then 0%Q
    else (intersection / union)%Q.

(** [detectors/base.py: point_in_polygon]: the same loop with no guard on
    the vertex count; [polygon[0]] is evaluated unconditionally. *)
Definition point_in_polygon (pt : point) (poly : polygon) : result bool :=
  let n := length poly in
  match nth_error poly 0 with
  | None => Raise IndexError
  | Some p0 =>
    st <-! ray_loop pt poly n (seq 1 n) (RayState false p0 None) ;;
    Ok (inside st)
  end.

(** [detectors/base.py: class TemporalDetection] *)
Record TemporalDetection : Type := MkTemporalDetection {
  td_label : string;
  td_bbox : bbox;
  td_conf : Q;
  td_timestamp : Q;
  td_frame_index : Z
}.

(** [detectors/base.py: class TemporalConfirmationHelper] *)
Record TemporalConfirmationHelper : Type := MkHelper {
  window_frames : Z;
  iou_threshold : Q;
  min_confirmations : Z;
  _history : gmap string (list TemporalDetection)
}.

(** [__init__]: the three range checks raise [ValueError]. *)
Definition TemporalConfirmationHelper_init (window_frames : Z)
  (iou_threshold : Q) (min_confirmations : Z)
  : result TemporalConfirmationHelper :=
  if negb ((1 <=? window_frames)%Z && (window_frames <=? 100)%Z)
  then Raise ValueError
  else if negb (Qle_bool 0 iou_threshold && Qle_bool iou_threshold 1)
  then Raise ValueError
  else if negb ((1 <=? min_confirmations)%Z
                && (min_confirmations <=? window_frames)%Z)
  then Raise ValueError
  else Ok (MkHelper window_frames iou_threshold min_confirmations ∅).

(** [add_detection]; [now] is the value of [time.time()]. *)
Definition add_detection (self : TemporalConfirmationHelper)
  (camera_id label : string) (box : bbox) (conf : Q) (frame_index : Z)
  (now : Q) : TemporalConfirmationHelper :=
  let history :=
    match _history self !! camera_id with
    | None => []
    | Some h => h
    end in
  let detection := MkTemporalDetection label box conf now frame_index in
  MkHelper (window_frames self) (iou_threshold self) (min_confirmations self)
    (<[camera_id := deque_append (Z.to_nat (window_frames self)) history detection]>
       (_history self)).

Fixpoint confirmations_loop (history : list TemporalDetection) (label : string)
  (box : bbox) (threshold : Q) (confirmations : Z) : Z :=
  match history with
  | [] => confirmations
  | past_det :: rest =>
    if negb (String.eqb (td_label past_det) label)
    then confirmations_loop rest label box threshold confirmations
    else
      let iou := calculate_iou box (td_bbox past_det) in
      if Qle_bool threshold iou
      then confirmations_loop rest label box threshold (confirmations + 1)%Z
      else confirmations_loop rest label box threshold confirmations
  end.

Definition check_confirmation (self : TemporalConfirmationHelper)
  (camera_id label : string) (box : bbox) : bool :=
  match _history self !! camera_id with
  | None => false
  | Some history =>
    if (Z.of_nat (length history) <? min_confirmations self)%Z then false
    else
      (min_confirmations self
       <=? confirmations_loop history label box (iou_threshold self) 0)%Z
  end.

(** [add_and_check]: the check runs against the history before the new
    detection is added, and compares against [min_confirmations] itself. *)
Definition add_and_check (self : TemporalConfirmationHelper)
  (camera_id label : string) (box : bbox) (conf : Q) (frame_index : Z)
  (now : Q) : bool * TemporalConfirmationHelper :=
  let confirmed := check_confirmation self camera_id label box in
  let self' := add_detection self camera_id label box conf frame_index now in
  (confirmed, self').

(** [detectors/base.py: class Event] *)
Record Event : Type := MkEvent {
  ev_camera_id : string;
  ev_type : string;
  ev_label : string;
  ev_conf : Q;
  ev_bbox : bbox;
  ev_ts_ms : Z;
  ev_extras : list (string * pyval)
}.

(** [detectors/base.py: class DetectionContext] *)
Record DetectionContext : Type := MkContext {
  camera_id : string;
  frame_width : Z;
  frame_height : Z;
  roi_polygons : option (list polygon);
  min_box_area : option Z
}.

(** [detectors/base.py: bbox_in_roi] *)
Fixpoint bbox_in_roi_loop (center : point) (corners : list point)
  (roi_polygons : list polygon) (require_full_overlap : bool) : result bool :=
  match roi_polygons with
  | [] => Ok false
  | polygon :: rest =>
    if require_full_overlap then
      all_in <-! py_all (fun corner => point_in_polygon corner polygon) corners ;;
      if all_in : bool then Ok true
      else bbox_in_roi_loop center corners rest require_full_overlap
    else
      center_in <-! point_in_polygon center polygon ;;
      if center_in : bool then Ok true
      else
        any_in <-! py_any (fun corner => point_in_polygon corner polygon)
                     corners ;;
        if any_in : bool then Ok true
        else bbox_in_roi_loop center corners rest require_full_overlap
  end.

Definition bbox_in_roi (box : bbox) (roi_polygons : list polygon)
  (require_full_overlap : bool) : result bool :=
  match roi_polygons with
  | [] => Ok true
  | _ =>
    let center := (((bx1 box + bx2 box) / 2)%Q, ((by1 box + by2 box) / 2)%Q) in
    let corners :=
      [(bx1 box, by1 box); (bx2 box, by1 box);
       (bx1 box, by2 box); (bx2 box, by2 box)] in
    bbox_in_roi_loop center corners roi_polygons require_full_overlap
  end.

(** [detectors/base.py: filter_by_min_box_size] *)
Definition filter_by_min_box_size (box : bbox) (min_area : Z) : bool :=
  let width := (bx2 box - bx1 box)%Q in
  let height := (by2 box - by1 box)%Q in
  let area := (width * height)%Q in
  Qle_bool (inject_Z min_area) area.

(** [detectors/base.py: filter_detections] *)
Fixpoint filter_detections (detections : list detection)
  (roi_polygons : option (list polygon)) (min_box_area : option Z)
  (require_full_overlap : bool) : result (list detection) :=
  match detections with
  | [] => Ok []
  | (label, conf, box) :: rest =>
    in_roi <-! match roi_polygons with
               | None => Ok true
               | Some polys => bbox_in_roi box polys require_full_overlap
               end ;;
    let big_enough :=
      match min_box_area with
      | None => true
      | Some a => filter_by_min_box_size box a
      end in
    filtered <-! filter_detections rest roi_polygons min_box_area
                   require_full_overlap ;;
    Ok (if in_roi && big_enough then (label, conf, box) :: filtered
        else filtered)
  end.

(** [TemporalConfirmationHelper.clear_camera] *)
Definition clear_camera (self : TemporalConfirmationHelper)
  (camera_id : string) : TemporalConfirmationHelper :=
  MkHelper (window_frames self) (iou_threshold self) (min_confirmations self)
    (delete camera_id (_history self)).

(** [TemporalConfirmationHelper.get_window_size] *)
Definition get_window_size (self : TemporalConfirmationHelper)
  (camera_id : string) : Z :=
  match _history self !! camera_id with
  | None => 0%Z
  | Some history => Z.of_nat (length history)
  end.

End base.

Module weapon.
Import base.

(** [detectors/weapon.py: _bbox_to_grid]; [//] by a zero grid size raises. *)
Definition _bbox_to_grid (box : bbox) (grid_size : Z) : result string :=
  let center_x := ((bx1 box + bx2 box) / 2)%Q in
  let center_y := ((by1 box + by2 box) / 2)%Q in
  if (grid_size =? 0)%Z then Raise ZeroDivisionError
  else
    let grid_x := Qfloor (center_x / inject_Z grid_size) in
    let grid_y := Qfloor (center_y / inject_Z grid_size) in
    Ok (py_str_int grid_x +:+ "_" +:+ py_str_int grid_y).

(** [detectors/weapon.py: _detection_hash] *)
Definition _detection_hash `{Hashlib} (label : string) (box : bbox)
  (grid_size : Z) : result string :=
  grid_id <-! _bbox_to_grid box grid_size ;;
  let hash_input := label +:+ ":" +:+ grid_id in
  Ok (substring 0 12 (md5_hexdigest hash_input)).

(** [detectors/weapon.py: class WeaponDetector] after [configure]. *)
Record WeaponDetector : Type := MkWeaponDetector {
  classes : list string;
  roi_filter_mode : roi.roi_mode;
  roi_min_overlap : Q;
  temporal_helper : option TemporalConfirmationHelper;
  use_temporal_buffer : bool;
  temporal_buffer : option roi.TemporalBuffer;
  temporal_min_conf : Z;
  temporal_iou : Q;
  dedup_window : nat;
  dedup_grid_size : Z;
  _recent_detections : list (Z * string);
  _frame_count : Z;
  _configured : bool
}.

Definition set_temporal_buffer (self : WeaponDetector) (b : roi.TemporalBuffer)
  : WeaponDetector :=
  MkWeaponDetector (classes self) (roi_filter_mode self) (roi_min_overlap self)
    (temporal_helper self) (use_temporal_buffer self) (Some b)
    (temporal_min_conf self) (temporal_iou self) (dedup_window self)
    (dedup_grid_size self) (_recent_detections self) (_frame_count self)
    (_configured self).

Definition set_temporal_helper (self : WeaponDetector)
  (h : TemporalConfirmationHelper) : WeaponDetector :=
  MkWeaponDetector (classes self) (roi_filter_mode self) (roi_min_overlap self)
    (Some h) (use_temporal_buffer self) (temporal_buffer self)
    (temporal_min_conf self) (temporal_iou self) (dedup_window self)
    (dedup_grid_size self) (_recent_detections self) (_frame_count self)
    (_configured self).

Definition set_recent_detections (self : WeaponDetector)
  (r : list (Z * string)) : WeaponDetector :=
  MkWeaponDetector (classes self) (roi_filter_mode self) (roi_min_overlap self)
    (temporal_helper self) (use_temporal_buffer self) (temporal_buffer self)
    (temporal_min_conf self) (temporal_iou self) (dedup_window self)
    (dedup_grid_size self) r (_frame_count self) (_configured self).

Definition set_frame_count (self : WeaponDetector) (n : Z) : WeaponDetector :=
  MkWeaponDetector (classes self) (roi_filter_mode self) (roi_min_overlap self)
    (temporal_helper self) (use_temporal_buffer self) (temporal_buffer self)
    (temporal_min_conf self) (temporal_iou self) (dedup_window self)
    (dedup_grid_size self) (_recent_detections self) n (_configured self).

(** The temporal-confirmation branch of the per-detection loop. *)
Definition confirm_step (self : WeaponDetector) (ctx : DetectionContext)
  (label : string) (conf : Q) (box : bbox) (now : Q)
  : result bool * WeaponDetector :=
  if use_temporal_buffer self then
    match temporal_buffer self with
    | None => (Raise AttributeError, self)
    | Some b =>
      let '(is_confirmed, b') :=
        roi.temporal_confirm b label box conf (temporal_min_conf self)
          (temporal_iou self) (Some (_frame_count self)) in
      (Ok is_confirmed, set_temporal_buffer self b')
    end
  else
    match temporal_helper self with
    | None => (Raise AttributeError, self)
    | Some h =>
      let '(is_confirmed, h') :=
        add_and_check h (camera_id ctx) label box conf (_frame_count self) now in
      (Ok is_confirmed, set_temporal_helper self h')
    end.

(** The scan of the dedup ring: [for frame_num, recent_hash in
    self._recent_detections: ... break]. *)
Fixpoint is_duplicate (recent : list (Z * string)) (det_hash : string)
  (frame_count : Z) (dedup_window : nat) : bool :=
  match recent with
  | [] => false
  | (frame_num, recent_hash) :: rest =>
    if String.eqb recent_hash det_hash
    then if (frame_count - frame_num <? Z.of_nat dedup_window)%Z then true
         else is_duplicate rest det_hash frame_count dedup_window
    else is_duplicate rest det_hash frame_count dedup_window
  end.

(** The loop [for label, conf, bbox in detections] of [process]; [events]
    accumulates in emission order. *)
Fixpoint process_loop `{Hashlib} (self : WeaponDetector) (ctx : DetectionContext)
  (ts_ms : Z) (now : Q) (detections : list detection) (events : list Event)
  : result (list Event) * WeaponDetector :=
  match detections with
  | [] => (Ok events, self)
  | (label, conf, box) :: rest =>
    match confirm_step self ctx label conf box now with
    | (Raise e, self1) => (Raise e, self1)
    | (Ok false, self1) => process_loop self1 ctx ts_ms now rest events
    | (Ok true, self1) =>
      match _detection_hash label box (dedup_grid_size self1) with
      | Raise e => (Raise e, self1)
      | Ok det_hash =>
        if is_duplicate (_recent_detections self1) det_hash
             (_frame_count self1) (dedup_window self1)
        then process_loop self1 ctx ts_ms now rest events
        else
          let self2 :=
            set_recent_detections self1
              (deque_append (dedup_window self1) (_recent_detections self1)
                 (_frame_count self1, det_hash)) in
          let event :=
            MkEvent (camera_id ctx) "weapon" label conf box ts_ms
              [("frame_count", PyInt (_frame_count self1));
               ("det_hash", PyStr det_hash)] in
          process_loop self2 ctx ts_ms now rest (events ++ [event])
      end
    end
  end.

Definition label_in (classes : list string) (label : string) : bool :=
  existsb (String.eqb label) classes.

(** [WeaponDetector.process]; [yolo] is the output of [run_yolo] on the
    frame and [now] the value [time.time()] would return. *)
Definition process `{Hashlib} `{Cv2} (self : WeaponDetector)
  (yolo : list detection) (ts_ms : Z) (ctx : DetectionContext) (now : Q)
  : result (list Event) * WeaponDetector :=
  if negb (_configured self) then (Ok [], self)
  else
    let self := set_frame_count self (_frame_count self + 1)%Z in
    let detections := yolo in
    match detections with
    | [] => (Ok [], self)
    | _ =>
      let detections :=
        match classes self with
        | [] => detections
        | _ => List.filter (fun '(label, _, _) => label_in (classes self) label)
                 detections
        end in
      match detections with
      | [] => (Ok [], self)
      | _ =>
        let filtered :=
          match roi_polygons ctx with
          | None | Some [] => Ok detections
          | Some _ =>
            roi.filter_boxes_by_roi detections (roi_polygons ctx)
              (roi_filter_mode self) (roi_min_overlap self)
          end in
        match filtered with
        | Raise e => (Raise e, self)
        | Ok detections =>
          let detections :=
            match min_box_area ctx with
            | None => detections
            | Some a =>
              if (a =? 0)%Z then detections
              else List.filter
                     (fun '(_, _, box) =>
                        Qle_bool (inject_Z a)
                          ((bx2 box - bx1 box) * (by2 box - by1 box)))
                     detections
            end in
          match detections with
          | [] => (Ok [], self)
          | _ => process_loop self ctx ts_ms now detections []
          end
        end
      end
    end.

End weapon.

(** [json.dumps]; [None] when it raises [TypeError] on a value it cannot
    serialise. *)
Class Json : Type := {
  json_dumps : pyval -> option string
}.

(** [str(v)] for the values whose text the model does not compute:
    floats, decimals and containers. *)
Class Repr : Type := {
  py_repr : pyval -> string
}.

Module kds.

(** The string hashed by [_generate_event_id]:
    [f"{camera_id}:{event_type}:{label}:{ts_bucket}"] with
    [ts_bucket = ts_ms // 1000]. *)
Definition hash_input (camera_id event_type label : string) (ts_ms : Z)
  : string :=
  let ts_bucket := (ts_ms / 1000)%Z in
  camera_id +:+ ":" +:+ event_type +:+ ":" +:+ label +:+ ":"
    +:+ py_str_int ts_bucket.

(** [publisher/kds.py: _generate_event_id] *)
Definition _generate_event_id `{Hashlib} (camera_id event_type label : string)
  (ts_ms : Z) : string :=
  sha1_hexdigest (hash_input camera_id event_type label ts_ms).

(** [f"{v}"]: the text of a value inside an f-string. *)
Definition py_format `{Repr} (v : pyval) : string :=
  match v with
  | PyStr s => s
  | PyInt z => py_str_int z
  | PyBool true => "True"
  | PyBool false => "False"
  | PyNone => "None"
  | _ => py_repr v
  end.

(** [ts_ms // 1000] on whatever [ts_ms] is: an int or a bool floors to an
    int, a float floors to a float, a [Decimal] truncates toward zero;
    anything else is a [TypeError]. *)
Definition floordiv_1000 (ts_ms : pyval) : result pyval :=
  match ts_ms with
  | PyInt z => Ok (PyInt (z / 1000))
  | PyBool b => Ok (PyInt ((if b then 1 else 0) / 1000))
  | PyFloat q => Ok (PyFloat (inject_Z (Qfloor (q / 1000))))
  | PyDecimal q => Ok (PyDecimal (inject_Z (py_int (q / 1000))))
  | _ => Raise TypeError
  end.

(** The body of [_generate_event_id] as Python runs it on arguments of any
    type: the annotations are not enforced. *)
Definition generate_event_id_untyped `{Hashlib} `{Repr}
  (camera_id event_type label ts_ms : pyval) : result string :=
  ts_bucket <-! floordiv_1000 ts_ms ;;
  let hash_input :=
    py_format camera_id +:+ ":" +:+ py_format event_type +:+ ":"
      +:+ py_format label +:+ ":" +:+ py_format ts_bucket in
  Ok (sha1_hexdigest hash_input).

(** [publisher/kds.py: _create_event_envelope]. The four fields are read
    in call order, then [_generate_event_id] runs on them. *)
Definition _create_event_envelope `{Hashlib} `{Repr} (event : pyval)
  (producer_version : string) : result pyval :=
  camera_id <-! py_getitem event "camera_id" ;;
  event_type <-! py_getitem event "type" ;;
  label <-! py_getitem event "label" ;;
  ts_ms <-! py_getitem event "ts_ms" ;;
  event_id <-! generate_event_id_untyped camera_id event_type label ts_ms ;;
  Ok (PyDict [("event_id", PyStr event_id);
              ("camera_id", camera_id);
              ("producer", PyStr producer_version);
              ("payload", event)]).

(** One entry of the [Records] argument of [put_records]. *)
Record kinesis_record : Type := MkRecord {
  Data : string;
  PartitionKey : string
}.

(** One per-record result of a [put_records] response. *)
Record record_result : Type := MkRecordResult {
  ErrorCode : option string;
  ErrorMessage : option string
}.

Record put_records_response : Type := MkResponse {
  FailedRecordCount : option Z;
  Records : option (list record_result)
}.

Inductive put_records_outcome : Type :=
| Response (r : put_records_response)
| ClientError (code message : string)
| OtherException.

(** The service and the random generator: the [n]-th call of
    [client.put_records] and the [n]-th draw of [random.uniform(0.8, 1.2)]. *)
Record Env : Type := MkEnv {
  put_records : nat -> list kinesis_record -> put_records_outcome;
  uniform : nat -> Q
}.

(** One thing the client did to the outside world: a [put_records] request
    with its outcome, or a [time.sleep] call with its argument. *)
Inductive action : Type :=
| Request (records : list kinesis_record) (outcome : put_records_outcome)
| Sleep (seconds : Q).

(** What the client has done to the outside world so far: the requests in
    [calls], the arguments of [time.sleep] in [sleeps], and both in the
    order they happened in [log]. *)
Record Io : Type := MkIo {
  n_put : nat;
  n_rand : nat;
  calls : list (list kinesis_record * put_records_outcome);
  sleeps : list Q;
  log : list action
}.

Definition io0 : Io := MkIo 0 0 [] [] [].

Record Metrics : Type := MkMetrics {
  published : Z;
  failed : Z;
  retried : Z;
  batches_sent : Z
}.

(** [publisher/kds.py: class KDSClient] *)
Record KDSClient : Type := MkKDSClient {
  stream_name : string;
  batch_size : Z;
  max_retries : Z;
  base_backoff_ms : Z;
  producer_version : string;
  _batch_buffer : list (pyval * string);
  metrics : Metrics
}.

Definition KDSClient_init (stream_name : string) (batch_size max_retries
  base_backoff_ms : Z) (producer_version : string) : KDSClient :=
  MkKDSClient stream_name (Z.min batch_size 500) max_retries base_backoff_ms
    producer_version [] (MkMetrics 0 0 0 0).

Definition set_buffer (self : KDSClient) (b : list (pyval * string))
  : KDSClient :=
  MkKDSClient (stream_name self) (batch_size self) (max_retries self)
    (base_backoff_ms self) (producer_version self) b (metrics self).

Definition set_metrics (self : KDSClient) (m : Metrics) : KDSClient :=
  MkKDSClient (stream_name self) (batch_size self) (max_retries self)
    (base_backoff_ms self) (producer_version self) (_batch_buffer self) m.

Definition add_published (n : Z) (self : KDSClient) : KDSClient :=
  let m := metrics self in
  set_metrics self
    (MkMetrics (published m + n) (failed m) (retried m) (batches_sent m)).

Definition add_failed (n : Z) (self : KDSClient) : KDSClient :=
  let m := metrics self in
  set_metrics self
    (MkMetrics (published m) (failed m + n) (retried m) (batches_sent m)).

Definition add_retried (n : Z) (self : KDSClient) : KDSClient :=
  let m := metrics self in
  set_metrics self
    (MkMetrics (published m) (failed m) (retried m + n) (batches_sent m)).

Definition add_batches_sent (n : Z) (self : KDSClient) : KDSClient :=
  let m := metrics self in
  set_metrics self
    (MkMetrics (published m) (failed m) (retried m) (batches_sent m + n)).

Definition len {A} (l : list A) : Z := Z.of_nat (length l).

(** [for i, record_result in enumerate(response['Records'])]: collect
    [failed_records[i]] for every result carrying an [ErrorCode]. *)
Fixpoint collect_failed (failed_records : list kinesis_record)
  (results : list record_result) (i : nat) : result (list kinesis_record) :=
  match results with
  | [] => Ok []
  | record_result :: rest =>
    match ErrorCode record_result with
    | Some _ =>
      match nth_error failed_records i with
      | None => Raise IndexError
      | Some r =>
        more <-! collect_failed failed_records rest (S i) ;; Ok (r :: more)
      end
    | None => collect_failed failed_records rest (S i)
    end
  end.

(** The argument of [time.sleep] before a retry:
    [base_backoff_ms * 2 ** attempt * jitter] milliseconds, in seconds. *)
Definition sleep_seconds (env : Env) (self : KDSClient) (io : Io)
  (attempt : Z) : Q :=
  let backoff_ms := (base_backoff_ms self * 2 ^ attempt)%Z in
  let jitter := uniform env (n_rand io) in
  let sleep_ms := (inject_Z backoff_ms * jitter)%Q in
  (sleep_ms / 1000)%Q.

(** The outside world after that [time.sleep] call. *)
Definition slept (env : Env) (self : KDSClient) (io : Io) (attempt : Z) : Io :=
  MkIo (n_put io) (S (n_rand io)) (calls io)
    (sleeps io ++ [sleep_seconds env self io attempt])
    (log io ++ [Sleep (sleep_seconds env self io attempt)]).

(** Backoff sleep before a retry. *)
Definition backoff_sleep (env : Env) (self : KDSClient) (io : Io)
  (attempt : Z) : result unit * Io :=
  (time_sleep_result (sleep_seconds env self io attempt),
   slept env self io attempt).

Definition retryable (error_code : string) : bool :=
  String.eqb error_code "ProvisionedThroughputExceededException"
  || String.eqb error_code "ServiceUnavailable".

(** The [while attempt <= self.max_retries and failed_records] loop of
    [_send_batch_with_retries], followed by the code after the loop. The
    loop guard is evaluated as written; [fuel] only bounds the recursion.
    A [time.sleep] that raises inside the [try] block is caught by
    [except Exception], after [failed_records] has been rebound to the new
    failures; one that raises inside the [except ClientError] handler
    leaves the method. *)
Fixpoint send_loop (fuel : nat) (env : Env) (self : KDSClient) (io : Io)
  (attempt : Z) (failed_records : list kinesis_record)
  : result bool * KDSClient * Io :=
  if (attempt <=? max_retries self)%Z
     && negb (Nat.eqb (length failed_records) 0)
  then
    match fuel with
    | O => (Raise OutOfFuel, self, io)
    | S fuel' =>
      let outcome := put_records env (n_put io) failed_records in
      let io := MkIo (S (n_put io)) (n_rand io)
                  (calls io ++ [(failed_records, outcome)]) (sleeps io)
                  (log io ++ [Request failed_records outcome]) in
      let on_exception :=
        (Ok false, add_failed (len failed_records) self, io) in
      match outcome with
      | Response response =>
        let failed_count :=
          match FailedRecordCount response with
          | Some c => c
          | None => 0%Z
          end in
        if (failed_count =? 0)%Z then
          (Ok true,
           add_batches_sent 1 (add_published (len failed_records) self), io)
        else
          match Records response with
          | None => on_exception
          | Some results =>
            match collect_failed failed_records results 0 with
            | Raise _ => on_exception
            | Ok new_failed_records =>
              let success_count :=
                (len failed_records - len new_failed_records)%Z in
              let self :=
                add_failed (len new_failed_records)
                  (add_published success_count self) in
              let failed_records := new_failed_records in
              if negb (Nat.eqb (length failed_records) 0)
                 && (attempt <? max_retries self)%Z
              then
                match backoff_sleep env self io attempt with
                | (Raise _, io) =>
                  (Ok false, add_failed (len failed_records) self, io)
                | (Ok _, io) =>
                  let self := add_retried (len failed_records) self in
                  send_loop fuel' env self io (attempt + 1)%Z failed_records
                end
              else
                send_loop fuel' env self io (attempt + 1)%Z failed_records
            end
          end
      | ClientError error_code _ =>
        if retryable error_code then
          if (attempt <? max_retries self)%Z then
            match backoff_sleep env self io attempt with
            | (Raise e, io) => (Raise e, self, io)
            | (Ok _, io) =>
              let self := add_retried (len failed_records) self in
              send_loop fuel' env self io (attempt + 1)%Z failed_records
            end
          else
            send_loop fuel' env self io (attempt + 1)%Z failed_records
        else on_exception
      | OtherException => on_exception
      end
    end
  else
    match failed_records with
    | [] => (Ok true, self, io)
    | _ => (Ok false, self, io)
    end.

Fixpoint make_records `{Json} (batch : list (pyval * string))
  : result (list kinesis_record) :=
  match batch with
  | [] => Ok []
  | (envelope, partition_key) :: rest =>
    match json_dumps envelope with
    | None => Raise TypeError
    | Some data =>
      more <-! make_records rest ;;
      Ok (MkRecord data partition_key :: more)
    end
  end.

(** [KDSClient._send_batch_with_retries] *)
Definition _send_batch_with_retries `{Json} (env : Env) (self : KDSClient)
  (io : Io) (batch : list (pyval * string)) : result bool * KDSClient * Io :=
  match make_records batch with
  | Raise e => (Raise e, self, io)
  | Ok records =>
    send_loop (Z.to_nat (max_retries self + 1)) env self io 0 records
  end.

(** [KDSClient.flush] *)
Definition flush `{Json} (env : Env) (self : KDSClient) (io : Io)
  : result bool * KDSClient * Io :=
  match _batch_buffer self with
  | [] => (Ok true, self, io)
  | _ =>
    let batch := _batch_buffer self in
    let self := set_buffer self [] in
    _send_batch_with_retries env self io batch
  end.

(** [KDSClient.put_event] *)
Definition put_event `{Hashlib} `{Json} `{Repr} (env : Env) (self : KDSClient)
  (io : Io) (event : pyval) (partition_key : string)
  : result bool * KDSClient * Io :=
  match _create_event_envelope event (producer_version self) with
  | Raise e => (Raise e, self, io)
  | Ok envelope =>
    let self :=
      set_buffer self (_batch_buffer self ++ [(envelope, partition_key)]) in
    if (batch_size self <=? len (_batch_buffer self))%Z
    then flush env self io
    else (Ok true, self, io)
  end.

(** [KDSClient.put_events] *)
Fixpoint put_events_loop `{Hashlib} `{Json} `{Repr} (env : Env) (self : KDSClient)
  (io : Io) (events : list pyval) (partition_key : string) (success : bool)
  : result bool * KDSClient * Io :=
  match events with
  | [] => (Ok success, self, io)
  | event :: rest =>
    match put_event env self io event partition_key with
    | (Raise e, self', io') => (Raise e, self', io')
    | (Ok sent, self', io') =>
      put_events_loop env self' io' rest partition_key
        (if sent : bool then success else false)
    end
  end.

Definition put_events `{Hashlib} `{Json} `{Repr} (env : Env) (self : KDSClient)
  (io : Io) (events : list pyval) (partition_key : string)
  : result bool * KDSClient * Io :=
  match put_events_loop env self io events partition_key true with
  | (Raise e, self', io') => (Raise e, self', io')
  | (Ok success, self', io') =>
    match flush env self' io' with
    | (Raise e, self'', io'') => (Raise e, self'', io'')
    | (Ok flushed, self'', io'') =>
      (Ok (if flushed : bool then success else false), self'', io'')
    end
  end.

End kds.

Module ddb.

(** [publisher/ddb.py: _convert_floats_to_decimal]; [Decimal(str(obj))]
    keeps the value of the float. Only dicts and lists are entered: a tuple
    takes the [else] branch and is returned as it is. *)
Fixpoint _convert_floats_to_decimal (obj : pyval) : pyval :=
  match obj with
  | PyFloat q => PyDecimal q
  | PyDict d =>
    PyDict
      ((fix items (d : list (string * pyval)) : list (string * pyval) :=
          match d with
          | [] => []
          | (k, v) :: d' => (k, _convert_floats_to_decimal v) :: items d'
          end) d)
  | PyList l =>
    PyList
      ((fix each (l : list pyval) : list pyval :=
          match l with
          | [] => []
          | item :: l' => _convert_floats_to_decimal item :: each l'
          end) l)
  | _ => obj
  end.

(** [isinstance(v, float)] somewhere inside [obj], at any nesting depth
    of dicts, lists and tuples. *)
Fixpoint has_float (obj : pyval) : bool :=
  match obj with
  | PyFloat _ => true
  | PyDict d =>
    (fix items (d : list (string * pyval)) : bool :=
       match d with
       | [] => false
       | (_, v) :: d' => has_float v || items d'
       end) d
  | PyList l | PyTuple l =>
    (fix each (l : list pyval) : bool :=
       match l with
       | [] => false
       | item :: l' => has_float item || each l'
       end) l
  | _ => false
  end.


(** [publisher/ddb.py: class DDBWriter] *)
Record DDBWriter : Type := MkDDBWriter {
  table_name : string;
  region : string;
  ttl_days : option Z
}.

(** [payload.get("extras", {})] *)
Definition get_extras (payload : pyval) : result pyval :=
  match payload with
  | PyDict d =>
    match dict_get d "extras" with
    | Some v => Ok v
    | None => Ok (PyDict [])
    end
  | _ => Raise AttributeError
  end.

(** [DDBWriter._prepare_item]; [now] is the value of [time.time()]. *)
Definition _prepare_item (self : DDBWriter) (event : pyval) (now : Q)
  : result pyval :=
  payload <-! py_getitem event "payload" ;;
  event_id <-! py_getitem event "event_id" ;;
  camera_id <-! py_getitem event "camera_id" ;;
  producer <-! py_getitem event "producer" ;;
  ts_ms <-! py_getitem payload "ts_ms" ;;
  type <-! py_getitem payload "type" ;;
  label <-! py_getitem payload "label" ;;
  conf <-! py_getitem payload "conf" ;;
  box <-! py_getitem payload "bbox" ;;
  extras <-! get_extras payload ;;
  let item :=
    [("event_id", event_id); ("camera_id", camera_id); ("producer", producer);
     ("ts_ms", ts_ms); ("type", type); ("label", label); ("conf", conf);
     ("bbox", box); ("extras", extras)] in
  let item :=
    match ttl_days self with
    | None => item
    | Some days =>
      let ttl_timestamp := (py_int now + days * 86400)%Z in
      dict_set item "ttl" (PyInt ttl_timestamp)
    end in
  Ok (_convert_floats_to_decimal (PyDict item)).

(** [publisher/ddb.py: _convert_decimal_to_float]; [float(obj)] gives back
    the value of the decimal. A tuple is returned as it is. *)
Fixpoint _convert_decimal_to_float (obj : pyval) : pyval :=
  match obj with
  | PyDecimal q => PyFloat q
  | PyDict d =>
    PyDict
      ((fix items (d : list (string * pyval)) : list (string * pyval) :=
          match d with
          | [] => []
          | (k, v) :: d' => (k, _convert_decimal_to_float v) :: items d'
          end) d)
  | PyList l =>
    PyList
      ((fix each (l : list pyval) : list pyval :=
          match l with
          | [] => []
          | item :: l' => _convert_decimal_to_float item :: each l'
          end) l)
  | _ => obj
  end.

(** [isinstance(v, Decimal)] somewhere inside [obj]. *)
Fixpoint has_decimal (obj : pyval) : bool :=
  match obj with
  | PyDecimal _ => true
  | PyDict d =>
    (fix items (d : list (string * pyval)) : bool :=
       match d with
       | [] => false
       | (_, v) :: d' => has_decimal v || items d'
       end) d
  | PyList l | PyTuple l =>
    (fix each (l : list pyval) : bool :=
       match l with
       | [] => false
       | item :: l' => has_decimal item || each l'
       end) l
  | _ => false
  end.

(** The [metrics] dict of a [DDBWriter]. *)
Record Metrics : Type := MkMetrics {
  written : Z;
  failed : Z;
  batches_sent : Z
}.

Definition add_written (n : Z) (m : Metrics) : Metrics :=
  MkMetrics (written m + n) (failed m) (batches_sent m).

Definition add_failed (n : Z) (m : Metrics) : Metrics :=
  MkMetrics (written m) (failed m + n) (batches_sent m).

Definition add_batches_sent (n : Z) (m : Metrics) : Metrics :=
  MkMetrics (written m) (failed m) (batches_sent m + n).

(** What a write to the table can do. *)
Inductive write_outcome : Type :=
| Written
| ClientError (code message : string)
| OtherException.

(** The table and the clock, indexed by call number: [table.put_item], one
    [with table.batch_writer()] block, and [time.time()]. *)
Record Env : Type := MkEnv {
  put_item : nat -> pyval -> write_outcome;
  batch_writer : nat -> list pyval -> write_outcome;
  time : nat -> Q
}.

(** The calls made so far, with the items handed to the table. *)
Record Io : Type := MkIo {
  n_time : nat;
  put_calls : list pyval;
  batch_calls : list (list pyval)
}.

Definition io0 : Io := MkIo 0 [] [].

(** [self._prepare_item(event)] with the clock read where the code reads
    it: [time.time()] is called once, after every lookup has succeeded, and
    only when [ttl_days] is set. *)
Definition prepare (env : Env) (self : DDBWriter) (io : Io) (event : pyval)
  : result pyval * Io :=
  match ttl_days self, _prepare_item self event 0 with
  | Some _, Ok _ =>
    (_prepare_item self event (time env (n_time io)),
     MkIo (S (n_time io)) (put_calls io) (batch_calls io))
  | _, r => (r, io)
  end.

(** The error handlers of [put_event]: [event.get("event_id", "unknown")]
    is evaluated for the log record before [failed] is counted, and only a
    dict has [get]. *)
Definition put_event_failed (event : pyval) (m : Metrics) (io : Io)
  : result bool * Metrics * Io :=
  match event with
  | PyDict _ => (Ok false, add_failed 1 m, io)
  | _ => (Raise AttributeError, m, io)
  end.

(** [DDBWriter.put_event]; [m] is [self.metrics]. *)
Definition put_event (env : Env) (self : DDBWriter) (m : Metrics) (io : Io)
  (event : pyval) : result bool * Metrics * Io :=
  match prepare env self io event with
  | (Raise _, io) => put_event_failed event m io
  | (Ok item, io) =>
    let outcome := put_item env (length (put_calls io)) item in
    let io := MkIo (n_time io) (put_calls io ++ [item]) (batch_calls io) in
    match outcome with
    | Written => (Ok true, add_written 1 m, io)
    | ClientError _ _ => put_event_failed event m io
    | OtherException => put_event_failed event m io
    end
  end.

(** [[self._prepare_item(event) for event in batch]] *)
Fixpoint prepare_all (env : Env) (self : DDBWriter) (io : Io)
  (batch : list pyval) : result (list pyval) * Io :=
  match batch with
  | [] => (Ok [], io)
  | event :: rest =>
    match prepare env self io event with
    | (Raise e, io) => (Raise e, io)
    | (Ok item, io) =>
      match prepare_all env self io rest with
      | (Raise e, io) => (Raise e, io)
      | (Ok items, io) => (Ok (item :: items), io)
      end
    end
  end.

(** [DDBWriter._write_batch]: both handlers catch every exception of the
    [try] block and evaluate nothing that can raise, so the method always
    returns a bool. *)
Definition _write_batch (env : Env) (self : DDBWriter) (m : Metrics) (io : Io)
  (batch : list pyval) : bool * Metrics * Io :=
  match prepare_all env self io batch with
  | (Raise _, io) => (false, add_failed (Z.of_nat (length batch)) m, io)
  | (Ok items, io) =>
    let outcome := batch_writer env (length (batch_calls io)) items in
    let io := MkIo (n_time io) (put_calls io) (batch_calls io ++ [items]) in
    match outcome with
    | Written =>
      (true,
       add_batches_sent 1 (add_written (Z.of_nat (length batch)) m), io)
    | ClientError _ _ => (false, add_failed (Z.of_nat (length batch)) m, io)
    | OtherException => (false, add_failed (Z.of_nat (length batch)) m, io)
    end
  end.

Definition batch_size : nat := 25.

(** [range(0, n, batch_size)] *)
Definition batch_starts (n : nat) : list nat :=
  map (fun k => (k * batch_size)%nat)
    (seq 0 ((n + (batch_size - 1)) / batch_size)).

(** [l[i:j]] for [0 <= i <= j]. *)
Definition py_slice {A} (l : list A) (i j : nat) : list A :=
  firstn (j - i) (skipn i l).

(** The loop of [put_events] over the batches. *)
Fixpoint write_batches (env : Env) (self : DDBWriter) (m : Metrics) (io : Io)
  (batches : list (list pyval)) (all_success : bool) : bool * Metrics * Io :=
  match batches with
  | [] => (all_success, m, io)
  | batch :: rest =>
    let '(ok, m, io) := _write_batch env self m io batch in
    write_batches env self m io rest (if ok : bool then all_success else false)
  end.

(** [DDBWriter.put_events] *)
Definition put_events (env : Env) (self : DDBWriter) (m : Metrics) (io : Io)
  (events : list pyval) : bool * Metrics * Io :=
  match events with
  | [] => (true, m, io)
  | _ =>
    write_batches env self m io
      (map (fun i => py_slice events i (i + batch_size))
         (batch_starts (length events)))
      true
  end.

End ddb.

Module kvs_hls.

(** [frame_source/kvs_hls.py: class ConnectionState] *)
Inductive ConnectionState : Type :=
| DISCONNECTED | CONNECTING | CONNECTED | RECONNECTING | ERROR.

(** What [cv2.VideoCapture(url)] followed by [isOpened()] can do. *)
Inductive open_outcome : Type := Opened | NotOpened | OpenRaises.

(** What [capture.read()] can do: a frame, [(False, None)], or an exception. *)
Inductive read_outcome : Type :=
| ReadFrame (frame : nat)
| ReadNoFrame
| ReadRaises.

(** The outside world, indexed by call number: the clock, the KVS control
    plane behind [_get_hls_url] ([None] when it raises
    [KVSConnectionError]), the video decoder, and [random.uniform(0.8, 1.2)].
    Captures are named by the number of the call that created them. *)
Record Env : Type := MkEnv {
  time : nat -> Q;
  get_hls_url : nat -> option string;
  video_capture : nat -> open_outcome;
  is_opened : nat -> nat -> bool;
  capture_read : nat -> nat -> read_outcome;
  uniform : nat -> Q
}.

Record Io : Type := MkIo {
  n_time : nat;
  n_url : nat;
  n_open : nat;
  n_poll : nat;
  n_read : nat;
  n_rand : nat;
  sleeps : list Q
}.

Definition io0 : Io := MkIo 0 0 0 0 0 0 [].

(** The constructor arguments kept by [KVSHLSFrameSource.__init__]. *)
Record Config : Type := MkConfig {
  hls_session_seconds : Z;
  url_refresh_margin : Z;
  reconnect_delay : Q;
  max_reconnect_delay : Q;
  backoff_multiplier : Q;
  max_consecutive_errors : Z
}.

(** [frame_source/kvs_hls.py: class KVSHLSMetrics] *)
Record KVSHLSMetrics : Type := MkMetrics {
  reconnects_total : Z;
  frames_total : Z;
  last_frame_timestamp : option Q;
  url_refreshes_total : Z;
  read_errors_total : Z
}.

(** The mutable attributes of a [KVSHLSFrameSource]. *)
Record State : Type := MkState {
  _hls_url : option string;
  _url_timestamp : option Q;
  _capture : option nat;
  _connection_state : ConnectionState;
  _consecutive_errors : Z;
  _current_backoff : Q;
  metrics : KVSHLSMetrics
}.

Definition init (cfg : Config) : State :=
  MkState None None None DISCONNECTED 0 (reconnect_delay cfg)
    (MkMetrics 0 0 None 0 0).

(** State, outside world and exceptions threaded through every method. *)
Definition M (A : Type) : Type := State -> Io -> result A * State * Io.

Definition ret {A} (a : A) : M A := fun st io => (Ok a, st, io).

Definition raise {A} (e : exn) : M A := fun st io => (Raise e, st, io).

Definition bind {A B} (m : M A) (k : A -> M B) : M B :=
  fun st io =>
    match m st io with
    | (Ok a, st', io') => k a st' io'
    | (Raise e, st', io') => (Raise e, st', io')
    end.

(** [try: m except Exception: handler] *)
Definition try_except {A} (m : M A) (handler : M A) : M A :=
  fun st io =>
    match m st io with
    | (Ok a, st', io') => (Ok a, st', io')
    | (Raise _, st', io') => handler st' io'
    end.

Definition get : M State := fun st io => (Ok st, st, io).

Definition modify (f : State -> State) : M unit :=
  fun st io => (Ok tt, f st, io).

Notation "x <~ m ;; k" := (bind m (fun x => k))
  (at level 100, m at next level, right associativity).
Notation "m ;;; k" := (bind m (fun _ => k))
  (at level 100, right associativity).

Definition set_hls_url (u : string) (st : State) : State :=
  MkState (Some u) (_url_timestamp st) (_capture st) (_connection_state st)
    (_consecutive_errors st) (_current_backoff st) (metrics st).

Definition set_url_timestamp (t : Q) (st : State) : State :=
  MkState (_hls_url st) (Some t) (_capture st) (_connection_state st)
    (_consecutive_errors st) (_current_backoff st) (metrics st).

Definition set_capture (c : option nat) (st : State) : State :=
  MkState (_hls_url st) (_url_timestamp st) c (_connection_state st)
    (_consecutive_errors st) (_current_backoff st) (metrics st).

Definition set_connection_state (c : ConnectionState) (st : State) : State :=
  MkState (_hls_url st) (_url_timestamp st) (_capture st) c
    (_consecutive_errors st) (_current_backoff st) (metrics st).

Definition set_consecutive_errors (n : Z) (st : State) : State :=
  MkState (_hls_url st) (_url_timestamp st) (_capture st)
    (_connection_state st) n (_current_backoff st) (metrics st).

Definition set_current_backoff (b : Q) (st : State) : State :=
  MkState (_hls_url st) (_url_timestamp st) (_capture st)
    (_connection_state st) (_consecutive_errors st) b (metrics st).

Definition set_metrics (m : KVSHLSMetrics) (st : State) : State :=
  MkState (_hls_url st) (_url_timestamp st) (_capture st)
    (_connection_state st) (_consecutive_errors st) (_current_backoff st) m.

Definition count_reconnect (st : State) : State :=
  let m := metrics st in
  set_metrics (MkMetrics (reconnects_total m + 1) (frames_total m)
                 (last_frame_timestamp m) (url_refreshes_total m)
                 (read_errors_total m)) st.

Definition count_frame (timestamp : Q) (st : State) : State :=
  let m := metrics st in
  set_metrics (MkMetrics (reconnects_total m) (frames_total m + 1)
                 (Some timestamp) (url_refreshes_total m)
                 (read_errors_total m)) st.

Definition count_url_refresh (st : State) : State :=
  let m := metrics st in
  set_metrics (MkMetrics (reconnects_total m) (frames_total m)
                 (last_frame_timestamp m) (url_refreshes_total m + 1)
                 (read_errors_total m)) st.

Definition count_read_error (st : State) : State :=
  let m := metrics st in
  set_metrics (MkMetrics (reconnects_total m) (frames_total m)
                 (last_frame_timestamp m) (url_refreshes_total m)
                 (read_errors_total m + 1)) st.

Section Source.
Context (env : Env) (cfg : Config).

(** [time.time()] *)
Definition time_time : M Q :=
  fun st io =>
    (Ok (time env (n_time io)), st,
     MkIo (S (n_time io)) (n_url io) (n_open io) (n_poll io) (n_read io)
       (n_rand io) (sleeps io)).

(** [random.uniform(jitter_min, jitter_max)] *)
Definition random_uniform : M Q :=
  fun st io =>
    (Ok (uniform env (n_rand io)), st,
     MkIo (n_time io) (n_url io) (n_open io) (n_poll io) (n_read io)
       (S (n_rand io)) (sleeps io)).

(** [time.sleep(delay)]: the argument is recorded whether or not the call
    raises. *)
Definition time_sleep (delay : Q) : M unit :=
  fun st io =>
    (time_sleep_result delay, st,
     MkIo (n_time io) (n_url io) (n_open io) (n_poll io) (n_read io)
       (n_rand io) (sleeps io ++ [delay])).

(** [_get_hls_url]: every failure surfaces as [KVSConnectionError]; success
    counts one URL refresh. *)
Definition _get_hls_url : M string :=
  fun st io =>
    let io' := MkIo (n_time io) (S (n_url io)) (n_open io) (n_poll io)
                 (n_read io) (n_rand io) (sleeps io) in
    match get_hls_url env (n_url io) with
    | Some hls_url => (Ok hls_url, count_url_refresh st, io')
    | None => (Raise KVSConnectionError, st, io')
    end.

(** [_should_refresh_url] *)
Definition _should_refresh_url : M bool :=
  st <~ get ;;
  match _url_timestamp st with
  | None => ret true
  | Some url_timestamp =>
    now <~ time_time ;;
    let elapsed := (now - url_timestamp)%Q in
    let refresh_threshold :=
      inject_Z (hls_session_seconds cfg - url_refresh_margin cfg) in
    ret (Qle_bool refresh_threshold elapsed)
  end.

(** [_refresh_url_if_needed] *)
Definition _refresh_url_if_needed : M bool :=
  needed <~ _should_refresh_url ;;
  if negb needed then ret true
  else
    try_except
      (needed <~ _should_refresh_url ;;
       if negb needed then ret true
       else
         hls_url <~ _get_hls_url ;;
         modify (set_hls_url hls_url) ;;;
         now <~ time_time ;;
         modify (set_url_timestamp now) ;;;
         modify (set_connection_state RECONNECTING) ;;;
         ret true)
      (ret false).

(** [_calculate_backoff_delay] *)
Definition _calculate_backoff_delay : M Q :=
  st <~ get ;;
  let delay := py_min (_current_backoff st) (max_reconnect_delay cfg) in
  jitter <~ random_uniform ;;
  let delay_with_jitter := (delay * jitter)%Q in
  modify (set_current_backoff
            (py_min (_current_backoff st * backoff_multiplier cfg)%Q
               (max_reconnect_delay cfg))) ;;;
  ret delay_with_jitter.

(** [_reset_backoff] *)
Definition _reset_backoff : M unit :=
  modify (set_current_backoff (reconnect_delay cfg)) ;;;
  modify (set_consecutive_errors 0).

(** [cv2.VideoCapture(self._hls_url)] and the [isOpened()] test after it. *)
Definition open_capture : M bool :=
  fun st io =>
    let handle := n_open io in
    let io' := MkIo (n_time io) (n_url io) (S (n_open io)) (n_poll io)
                 (n_read io) (n_rand io) (sleeps io) in
    match video_capture env handle with
    | OpenRaises => (Raise Exception, st, io')
    | NotOpened => (Ok false, set_capture (Some handle) st, io')
    | Opened => (Ok true, set_capture (Some handle) st, io')
    end.

(** [_open_stream] *)
Definition _open_stream : M bool :=
  try_except
    (modify (set_connection_state CONNECTING) ;;;
     st <~ get ;;
     stale <~ match _hls_url st with
              | None => ret true
              | Some _ => _should_refresh_url
              end ;;
     (if stale : bool then
        hls_url <~ _get_hls_url ;;
        modify (set_hls_url hls_url) ;;;
        now <~ time_time ;;
        modify (set_url_timestamp now)
      else ret tt) ;;;
     modify (set_capture None) ;;;
     opened <~ open_capture ;;
     if opened : bool then
       modify (set_connection_state CONNECTED) ;;;
       _reset_backoff ;;;
       ret true
     else
       modify (set_connection_state ERROR) ;;;
       ret false)
    (modify (set_connection_state ERROR) ;;;
     ret false).

(** [_handle_reconnect] *)
Definition _handle_reconnect : M bool :=
  st <~ get ;;
  modify (set_consecutive_errors (_consecutive_errors st + 1)) ;;;
  if (max_consecutive_errors cfg <=? _consecutive_errors st + 1)%Z
  then raise FrameSourceError
  else
    delay <~ _calculate_backoff_delay ;;
    time_sleep delay ;;;
    modify count_reconnect ;;;
    _open_stream.

(** [self._capture is None or not self._capture.isOpened()] *)
Definition capture_not_open : M bool :=
  fun st io =>
    match _capture st with
    | None => (Ok true, st, io)
    | Some handle =>
      (Ok (negb (is_opened env (n_poll io) handle)), st,
       MkIo (n_time io) (n_url io) (n_open io) (S (n_poll io)) (n_read io)
         (n_rand io) (sleeps io))
    end.

(** [ret, frame = self._capture.read()] *)
Definition capture_read_frame : M (option nat) :=
  fun st io =>
    let io' := MkIo (n_time io) (n_url io) (n_open io) (n_poll io)
                 (S (n_read io)) (n_rand io) (sleeps io) in
    match _capture st with
    | None => (Raise AttributeError, st, io')
    | Some handle =>
      match capture_read env (n_read io) handle with
      | ReadFrame frame => (Ok (Some frame), st, io')
      | ReadNoFrame => (Ok None, st, io')
      | ReadRaises => (Raise Exception, st, io')
      end
    end.

(** [read_frame] *)
Definition read_frame : M (option (nat * Q)) :=
  st <~ get ;;
  ready <~ match _connection_state st with
           | CONNECTED | RECONNECTING => ret true
           | _ =>
             opened <~ _open_stream ;;
             if opened : bool then ret true else _handle_reconnect
           end ;;
  if negb ready then ret None
  else
    refreshed <~ _refresh_url_if_needed ;;
    ready <~ (if refreshed : bool then ret true else _handle_reconnect) ;;
    if negb ready then ret None
    else
      try_except
        (closed <~ capture_not_open ;;
         if closed : bool then
           _handle_reconnect ;;;
           ret None
         else
           got <~ capture_read_frame ;;
           match got with
           | None =>
             modify count_read_error ;;;
             _handle_reconnect ;;;
             ret None
           | Some frame =>
             timestamp <~ time_time ;;
             modify (count_frame timestamp) ;;;
             _reset_backoff ;;;
             ret (Some (frame, timestamp))
           end)
        (modify count_read_error ;;;
         _handle_reconnect ;;;
         ret None).

(** [n] successive calls of [read_frame] by one caller, with the outcome of
    each call; the caller goes on calling after an exception. *)
Fixpoint read_frame_calls (n : nat) (st : State) (io : Io)
  : list (result (option (nat * Q))) * State * Io :=
  match n with
  | O => ([], st, io)
  | S n' =>
    let '(r, st', io') := read_frame st io in
    let '(rs, st'', io'') := read_frame_calls n' st' io' in
    (r :: rs, st'', io'')
  end.

End Source.

End kvs_hls.

(** * Properties *)

(** ** Geometry kernel *)

Lemma Qlt_bool_irrefl (a : Q) : Qlt_bool a a = false.
Proof.
  unfold Qlt_bool. apply negb_false_iff. apply Qle_bool_iff. apply Qle_refl.
Qed.

Lemma py_min_same (a : Q) : py_min a a = a.
Proof. unfold py_min. now rewrite Qlt_bool_irrefl. Qed.

Lemma py_max_same (a : Q) : py_max a a = a.
Proof. unfold py_max. now rewrite Qlt_bool_irrefl. Qed.

(** An edge whose two end points are the same vertex is never crossed. *)
Lemma ray_edge_same_vertex pt st :
  ray_edge pt (p1 st) st = Ok (RayState (inside st) (p1 st) (xinters st)).
Proof.
  unfold ray_edge. destruct pt as [x y], (p1 st) as [p1x p1y] eqn:E.
  rewrite py_min_same, py_max_same.
  unfold Qlt_bool. destruct (Qle_bool y p1y); reflexivity.
Qed.

(** A one-vertex polygon: the single edge joins the vertex to itself. *)
Lemma base_point_in_polygon_one_vertex pt v :
  base.point_in_polygon pt [v] = Ok false.
Proof.
  unfold base.point_in_polygon. simpl.
  pose proof (ray_edge_same_vertex pt (RayState false v None)) as E.
  simpl in E. rewrite E. reflexivity.
Qed.

Lemma Qlt_bool_iff (a b : Q) : Qlt_bool a b = true <-> (a < b)%Q.
Proof.
  unfold Qlt_bool. rewrite negb_true_iff. split.
  - intros E. apply Qnot_le_lt. intros Hle. apply Qle_bool_iff in Hle.
    congruence.
  - intros Hlt. destruct (Qle_bool b a) eqn:E; [|reflexivity].
    apply Qle_bool_iff in E. apply Qlt_not_le in Hlt. contradiction.
Qed.

Lemma py_min_cases (a b : Q) :
  ((a <= b)%Q /\ py_min a b = a) \/ ((b < a)%Q /\ py_min a b = b).
Proof.
  unfold py_min. destruct (Qlt_bool b a) eqn:E.
  - right. split; [now apply Qlt_bool_iff | reflexivity].
  - left. split; [|reflexivity]. apply Qnot_lt_le. intros Hlt.
    apply Qlt_bool_iff in Hlt. congruence.
Qed.

Lemma py_max_cases (a b : Q) :
  ((b <= a)%Q /\ py_max a b = a) \/ ((a < b)%Q /\ py_max a b = b).
Proof.
  unfold py_max. destruct (Qlt_bool a b) eqn:E.
  - right. split; [now apply Qlt_bool_iff | reflexivity].
  - left. split; [|reflexivity]. apply Qnot_lt_le. intros Hlt.
    apply Qlt_bool_iff in Hlt. congruence.
Qed.

(** The test under which one iteration flips [inside]: the horizontal ray
    from the point crosses the edge from [a] to [b]. *)
Definition crosses (pt a b : point) : bool :=
  let '(x, y) := pt in
  let '(p1x, p1y) := a in
  let '(p2x, p2y) := b in
  Qlt_bool (py_min p1y p2y) y
  && Qle_bool y (py_max p1y p2y)
  && Qle_bool x (py_max p1x p2x)
  && (Qeq_bool p1x p2x
      || Qle_bool x ((y - p1y) * (p2x - p1x) / (p2y - p1y) + p1x)).

(** [xinters] is always bound when it is read: inside the two tests on [y]
    the edge is not horizontal. *)
Lemma ray_edge_toggles pt p2 st :
  exists xi,
    ray_edge pt p2 st
    = Ok (RayState (xorb (inside st) (crosses pt (p1 st) p2)) p2 xi).
Proof.
  unfold ray_edge, crosses.
  destruct pt as [x y], (p1 st) as [p1x p1y], p2 as [p2x p2y].
  destruct (Qlt_bool (py_min p1y p2y) y) eqn:H1; cbn [andb];
    [|eexists; rewrite xorb_false_r; reflexivity].
  destruct (Qle_bool y (py_max p1y p2y)) eqn:H2; cbn [andb];
    [|eexists; rewrite xorb_false_r; reflexivity].
  destruct (Qle_bool x (py_max p1x p2x)) eqn:H3; cbn [andb];
    [|eexists; rewrite xorb_false_r; reflexivity].
  assert (Hne : Qeq_bool p1y p2y = false).
  { destruct (Qeq_bool p1y p2y) eqn:E; [|reflexivity].
    apply Qeq_bool_iff in E. apply Qlt_bool_iff in H1.
    apply Qle_bool_iff in H2.
    destruct (py_min_cases p1y p2y) as [[? Hmin]|[? Hmin]];
      destruct (py_max_cases p1y p2y) as [[? Hmax]|[? Hmax]];
      rewrite Hmin in H1; rewrite Hmax in H2; lra. }
  rewrite Hne. cbn [negb].
  destruct (Qeq_bool p1x p2x); cbn [orb];
    [eexists; rewrite xorb_true_r; reflexivity|].
  destruct (Qle_bool x ((y - p1y) * (p2x - p1x) / (p2y - p1y) + p1x));
    eexists; [rewrite xorb_true_r | rewrite xorb_false_r]; reflexivity.
Qed.

Lemma crosses_swap pt a b : crosses pt a b = true -> crosses pt b a = true.
Proof.
  unfold crosses. destruct pt as [x y], a as [ax ay], b as [bx by'].
  rewrite !andb_true_iff, !orb_true_iff.
  rewrite !Qlt_bool_iff, !Qle_bool_iff, !Qeq_bool_iff.
  intros [[[H1 H2] H3] H4].
  assert (Hne : ~ (ay == by')%Q).
  { intros E.
    destruct (py_min_cases ay by') as [[? Hmin]|[? Hmin]];
      destruct (py_max_cases ay by') as [[? Hmax]|[? Hmax]];
      rewrite Hmin in H1; rewrite Hmax in H2; lra. }
  repeat split.
  - destruct (py_min_cases ay by') as [[? Hmin]|[? Hmin]];
      destruct (py_min_cases by' ay) as [[? Hmin']|[? Hmin']];
      rewrite Hmin in H1; rewrite Hmin'; lra.
  - destruct (py_max_cases ay by') as [[? Hmax]|[? Hmax]];
      destruct (py_max_cases by' ay) as [[? Hmax']|[? Hmax']];
      rewrite Hmax in H2; rewrite Hmax'; lra.
  - destruct (py_max_cases ax bx) as [[? Hmax]|[? Hmax]];
      destruct (py_max_cases bx ax) as [[? Hmax']|[? Hmax']];
      rewrite Hmax in H3; rewrite Hmax'; lra.
  - destruct H4 as [E|Hx]; [left; now symmetry|]. right.
    assert (Heq : ((y - by') * (ax - bx) / (ay - by') + bx
                   == (y - ay) * (bx - ax) / (by' - ay) + ax)%Q).
    { field. split; intros E; apply Hne; lra. }
    now rewrite Heq.
Qed.

Lemma crosses_sym pt a b : crosses pt a b = crosses pt b a.
Proof.
  destruct (crosses pt a b) eqn:Hab, (crosses pt b a) eqn:Hba; try reflexivity.
  - apply crosses_swap in Hab. congruence.
  - apply crosses_swap in Hba. congruence.
Qed.

(** A two-vertex polygon: the same segment is walked there and back, so
    [inside] is flipped twice or not at all (in exact arithmetic). *)
Lemma base_point_in_polygon_two_vertices pt a b :
  base.point_in_polygon pt [a; b] = Ok false.
Proof.
  unfold base.point_in_polygon. cbn [length nth_error seq ray_loop].
  change (1 mod 2)%nat with 1%nat. change (2 mod 2)%nat with 0%nat.
  cbn [nth_error].
  destruct (ray_edge_toggles pt b (RayState false a None)) as [xi1 E1].
  rewrite E1. cbn [rbind inside p1].
  match goal with
  | |- context [ray_edge pt a ?st] =>
    destruct (ray_edge_toggles pt a st) as [xi2 E2]; rewrite E2
  end.
  cbn [rbind inside p1]. rewrite (crosses_sym pt b a).
  now destruct (crosses pt a b).
Qed.

(** The guarded copy in [utils/roi.py] answers [False] below three vertices. *)
Lemma roi_point_in_polygon_small pt (poly : polygon) :
  (length poly < 3)%nat -> roi.point_in_polygon pt poly = Ok false.
Proof.
  intros Hlen. unfold roi.point_in_polygon.
  apply Nat.ltb_lt in Hlen. now rewrite Hlen.
Qed.

(** C9. The copy of [point_in_polygon] in [detectors/base.py] has no guard
    on the vertex count: on the empty polygon it evaluates [polygon[0]] and
    raises [IndexError] for every point, where the copy in [utils/roi.py]
    returns [False]. *)
Theorem base_point_in_polygon_empty_raises :
  forall pt : point,
    base.point_in_polygon pt [] = Raise IndexError
    /\ roi.point_in_polygon pt [] = Ok false.
Proof. intros pt. split; reflexivity. Qed.

(** ** Temporal confirmation *)

Definition entry_label (e : roi.entry) : string := fst (fst (fst e)).
Definition entry_bbox (e : roi.entry) : bbox := snd (fst (fst e)).

(** A call [(bbox, confidence, frame_idx)] of [temporal_confirm]. *)
Definition confirm_call : Type := bbox * Q * option Z.
Definition call_bbox (c : confirm_call) : bbox := fst (fst c).

(** Successive calls of [temporal_confirm] on one buffer with one label. *)
Fixpoint confirm_calls (buf : roi.TemporalBuffer) (label : string)
  (min_confirmations : Z) (iou_threshold : Q) (calls : list confirm_call)
  : list bool * roi.TemporalBuffer :=
  match calls with
  | [] => ([], buf)
  | (box, conf, frame_idx) :: rest =>
    let '(r, buf') :=
      roi.temporal_confirm buf label box conf min_confirmations
        iou_threshold frame_idx in
    let '(rs, buf'') :=
      confirm_calls buf' label min_confirmations iou_threshold rest in
    (r :: rs, buf'')
  end.

(** Every call's bbox overlaps, at the threshold or above, every bbox the
    stream has put in the buffer before it. *)
Fixpoint stream_overlaps (iou_threshold : Q) (held : list bbox)
  (calls : list confirm_call) : Prop :=
  match calls with
  | [] => True
  | c :: rest =>
    Forall (fun b => (iou_threshold <= roi.iou (call_bbox c) b)%Q) held
    /\ stream_overlaps iou_threshold (held ++ [call_bbox c]) rest
  end.

Lemma count_similar_loop_acc buf label box thr c :
  roi.count_similar_loop buf label box thr c
  = (c + roi.count_similar_loop buf label box thr 0)%Z.
Proof.
  revert c. induction buf as [|[[[l b] cf] fi] buf IH]; intros c; simpl.
  - lia.
  - destruct (negb (String.eqb l label)); [apply IH|].
    destruct (Qle_bool thr (roi.iou box b)); [|apply IH].
    rewrite (IH (c + 1)%Z), (IH (0 + 1)%Z). lia.
Qed.

Lemma count_similar_loop_app buf1 buf2 label box thr c :
  roi.count_similar_loop (buf1 ++ buf2) label box thr c
  = roi.count_similar_loop buf2 label box thr
      (roi.count_similar_loop buf1 label box thr c).
Proof.
  revert c. induction buf1 as [|[[[l b] cf] fi] buf1 IH]; intros c; simpl.
  - reflexivity.
  - destruct (negb (String.eqb l label)); [apply IH|].
    destruct (Qle_bool thr (roi.iou box b)); apply IH.
Qed.

(** P6: entries of another label never count. *)
Lemma count_similar_loop_other_label buf label box thr c :
  Forall (fun e => entry_label e <> label) buf ->
  roi.count_similar_loop buf label box thr c = c.
Proof.
  revert c. induction buf as [|[[[l b] cf] fi] buf IH]; intros c Hall; simpl.
  - reflexivity.
  - pose proof (List.Forall_inv Hall) as Hl.
    pose proof (List.Forall_inv_tail Hall) as Hrest.
    unfold entry_label in Hl. simpl in Hl. apply String.eqb_neq in Hl. rewrite Hl. simpl. now apply IH.
Qed.

Lemma count_similar_loop_all_match buf label box thr c :
  Forall (fun e => entry_label e = label
                   /\ (thr <= roi.iou box (entry_bbox e))%Q) buf ->
  roi.count_similar_loop buf label box thr c = (c + Z.of_nat (length buf))%Z.
Proof.
  revert c. induction buf as [|[[[l b] cf] fi] buf IH]; intros c Hall.
  - simpl. lia.
  - pose proof (List.Forall_inv Hall) as [Hl Hb].
    pose proof (List.Forall_inv_tail Hall) as Hrest.
    unfold entry_label, entry_bbox in Hl, Hb. simpl in Hl, Hb. subst l.
    cbn [roi.count_similar_loop]. rewrite String.eqb_refl. simpl negb.
    apply Qle_bool_iff in Hb. cbv iota. rewrite Hb.
    rewrite IH by assumption. cbn [length]. lia.
Qed.

(** Appending to a buffer that holds entries of other labels ([old])
    followed by the stream's own entries ([new]): eviction, if any, takes an
    [old] entry as long as the stream's entries fit the window. *)
Lemma deque_append_keeps_new (W : nat) (old new : list roi.entry) e label :
  Forall (fun e => entry_label e <> label) old ->
  (length new + 1 <= W)%nat ->
  exists old',
    deque_append W (old ++ new) e = old' ++ (new ++ [e])
    /\ Forall (fun e => entry_label e <> label) old'.
Proof.
  intros Hold Hfit. unfold deque_append.
  destruct (W <? length ((old ++ new) ++ [e]))%nat eqn:Hfull.
  - destruct old as [|o old'].
    + apply Nat.ltb_lt in Hfull. simpl in Hfull.
      rewrite length_app in Hfull. simpl in Hfull. lia.
    + exists old'. split.
      * simpl. now rewrite <- app_assoc.
      * exact (List.Forall_inv_tail Hold).
  - exists old. split; [now rewrite <- app_assoc | assumption].
Qed.

Lemma confirm_calls_results (calls : list confirm_call) :
  forall (old new : list roi.entry) label (k : Z) thr (W : nat) fc,
    Forall (fun e => entry_label e <> label) old ->
    Forall (fun e => entry_label e = label) new ->
    stream_overlaps thr (map entry_bbox new) calls ->
    (length new + length calls <= W)%nat ->
    fst (confirm_calls (roi.MkTemporalBuffer W (old ++ new) fc) label k thr
           calls)
    = map (fun i => (k - 1 <=? Z.of_nat (length new + i))%Z)
        (seq 0 (length calls)).
Proof.
  induction calls as [|[[box conf] fi] rest IH];
    intros old new label k thr W fc Hold Hnew Hov Hfit.
  - reflexivity.
  - destruct Hov as [Hhere Hlater]. unfold call_bbox in Hhere, Hlater.
    simpl in Hhere, Hlater. simpl in Hfit.
    cbn [confirm_calls]. unfold roi.temporal_confirm, roi.count_similar, roi.add.
    cbn [roi.buffer roi.maxlen roi._frame_counter].
    assert (Hcount : roi.count_similar_loop (old ++ new) label box thr 0
                     = Z.of_nat (length new)).
    { rewrite count_similar_loop_app.
      rewrite (count_similar_loop_other_label old) by assumption.
      rewrite count_similar_loop_all_match; [lia|].
      apply List.Forall_forall. intros e He. split.
      - exact (proj1 (List.Forall_forall _ _) Hnew e He).
      - apply (proj1 (List.Forall_forall _ _) Hhere).
        apply List.in_map_iff. now exists e. }
    rewrite Hcount.
    set (fidx := match fi with
                 | Some i => (i, fc)
                 | None => (fc, (fc + 1)%Z)
                 end).
    destruct fidx as [frame_idx counter] eqn:Hfidx.
    destruct (deque_append_keeps_new W old new (label, box, conf, frame_idx)
                label Hold ltac:(lia)) as (old' & Happ & Hold').
    rewrite Happ.
    specialize (IH old' (new ++ [(label, box, conf, frame_idx)]) label k thr W
                  counter Hold').
    destruct (confirm_calls _ label k thr rest) as [rs buf''] eqn:Hrest.
    cbn [fst] in *. rewrite IH.
    + cbn [length seq map]. rewrite Nat.add_0_r. f_equal.
      rewrite <- List.seq_shift, List.map_map. apply List.map_ext.
      intros i. rewrite length_app. simpl. f_equal. f_equal. lia.
    + apply List.Forall_app. split; [assumption|].
      constructor; [reflexivity | constructor].
    + rewrite List.map_app. exact Hlater.
    + rewrite length_app. simpl. lia.
Qed.

Lemma map_seq_all_false (f : nat -> bool) (m : nat) :
  (forall i, (i < m)%nat -> f i = false) ->
  map f (seq 0 m) = repeat false m.
Proof.
  induction m as [|m IH]; intros Hf.
  - reflexivity.
  - rewrite List.seq_S, List.map_app, IH by (intros; apply Hf; lia).
    simpl. rewrite Hf by lia.
    change (repeat false m ++ [false]) with (repeat false m ++ repeat false 1).
    rewrite <- List.repeat_app. now rewrite Nat.add_1_r.
Qed.

(** C1 (as amended). On a buffer of window [W >= k] holding no earlier
    entry of the label (in particular a freshly constructed one), [k] calls of
    [temporal_confirm] with [min_confirmations = k], one label, and bboxes
    that overlap every entry the stream has already put in the buffer at the
    threshold or above return [False] on calls [1 .. k-1] and [True] on call
    [k]; each call counts the matches in the existing buffer, appends the
    new entry, and answers [count >= min_confirmations - 1]. *)
Theorem temporal_confirm_fires_exactly_on_kth :
  forall (buf : roi.TemporalBuffer) (k : nat) (label : string) (thr : Q)
         (calls : list confirm_call),
    (1 <= k)%nat ->
    (k <= roi.maxlen buf)%nat ->
    length calls = k ->
    Forall (fun e => entry_label e <> label) (roi.buffer buf) ->
    stream_overlaps thr [] calls ->
    fst (confirm_calls buf label (Z.of_nat k) thr calls)
    = repeat false (k - 1) ++ [true]
    /\ forall b box conf fi,
         roi.temporal_confirm b label box conf (Z.of_nat k) thr fi
         = ((Z.of_nat k - 1 <=? roi.count_similar b label box thr)%Z,
            roi.add b label box conf fi).
Proof.
  intros [W old fc] k label thr calls Hk HW Hlen Hold Hov.
  cbn [roi.maxlen roi.buffer] in *. split; [|reflexivity].
  pose proof (confirm_calls_results calls old [] label (Z.of_nat k) thr W fc
                Hold ltac:(constructor) Hov ltac:(simpl; lia)) as E.
  rewrite List.app_nil_r in E. rewrite E, Hlen. cbn [length].
  destruct k as [|m]; [lia|].
  rewrite List.seq_S, List.map_app. cbn [map Nat.add].
  replace (S m - 1)%nat with m by lia. f_equal.
  - apply map_seq_all_false. intros i Hi. apply Z.leb_gt. lia.
  - f_equal. apply Z.leb_le. lia.
Qed.

Definition gun_box : bbox := BBox 100 100 200 200.

Lemma temporal_confirm_fires_exactly_on_kth_witness :
  fst (confirm_calls (roi.TemporalBuffer_init 5) "gun" 3 (3 # 10)
         [(gun_box, 9 # 10, None); (gun_box, 9 # 10, None);
          (gun_box, 9 # 10, None)])
  = [false; false; true].
Proof.
  refine (proj1 (temporal_confirm_fires_exactly_on_kth
                   (roi.TemporalBuffer_init 5) 3 "gun" (3 # 10)
                   [(gun_box, 9 # 10, None); (gun_box, 9 # 10, None);
                    (gun_box, 9 # 10, None)] _ _ _ _ _)).
  - simpl. lia.
  - simpl. lia.
  - reflexivity.
  - constructor.
  - simpl. repeat split; repeat constructor; vm_compute; discriminate.
Defined.

(** A buffer of window 5 that already holds two [gun] entries. *)
Definition preloaded : roi.TemporalBuffer :=
  roi.add
    (roi.add (roi.TemporalBuffer_init 5) "gun" gun_box (9 # 10) None)
    "gun" gun_box (9 # 10) None.

(** Counterexample to C1 as stated. The window is [5 >= 3] and every box of
    the stream overlaps every entry already held, yet with
    [min_confirmations = 3] the first call returns [True]: the two entries
    the buffer held before the stream began are counted. *)
Lemma preloaded_buffer_fires_on_first_call :
  (3 <= roi.maxlen preloaded)%nat
  /\ stream_overlaps (3 # 10) (map entry_bbox (roi.buffer preloaded))
       [(gun_box, 9 # 10, None); (gun_box, 9 # 10, None);
        (gun_box, 9 # 10, None)]
  /\ fst (confirm_calls preloaded "gun" 3 (3 # 10)
            [(gun_box, 9 # 10, None); (gun_box, 9 # 10, None);
             (gun_box, 9 # 10, None)])
     = [true; true; true].
Proof.
  split; [vm_compute; lia|]. split; [|vm_compute; reflexivity].
  simpl. repeat split; repeat constructor; vm_compute; discriminate.
Qed.

(** ** The legacy helper against [temporal_confirm] *)

(** Successive calls of [TemporalConfirmationHelper.add_and_check] for one
    camera and one label; [now] stands for every [time.time()] reading. *)
Fixpoint helper_calls (h : base.TemporalConfirmationHelper)
  (camera_id label : string) (now : Q) (calls : list confirm_call)
  : list bool * base.TemporalConfirmationHelper :=
  match calls with
  | [] => ([], h)
  | (box, conf, frame_idx) :: rest =>
    let frame_index := match frame_idx with Some i => i | None => 0%Z end in
    let '(r, h') :=
      base.add_and_check h camera_id label box conf frame_index now in
    let '(rs, h'') := helper_calls h' camera_id label now rest in
    (r :: rs, h'')
  end.

Lemma calculate_iou_is_iou box1 box2 :
  base.calculate_iou box1 box2 = roi.iou box1 box2.
Proof. reflexivity. Qed.

Definition three_guns : list confirm_call :=
  [(gun_box, 9 # 10, Some 1%Z); (gun_box, 9 # 10, Some 2%Z);
   (gun_box, 9 # 10, Some 3%Z)].

(** C2. With the detector's default parameters (window 5, IoU 0.3, three
    confirmations) and three identical detections, [temporal_confirm] over a
    [TemporalBuffer] answers [False, False, True] while
    [TemporalConfirmationHelper.add_and_check] answers [False, False, False]:
    the helper checks the history before adding, like [temporal_confirm],
    but compares against [min_confirmations] instead of
    [min_confirmations - 1]. *)
Theorem helper_confirms_one_call_late :
  fst (confirm_calls (roi.TemporalBuffer_init 5) "gun" 3 (3 # 10) three_guns)
  = [false; false; true]
  /\ (exists h,
        base.TemporalConfirmationHelper_init 5 (3 # 10) 3 = Ok h
        /\ fst (helper_calls h "cam-a" "gun" 0 three_guns)
           = [false; false; false]).
Proof.
  split; [vm_compute; reflexivity|].
  eexists. split; [reflexivity|]. vm_compute. reflexivity.
Qed.

(** The helper's history for a camera and a buffer hold the same labels
    and boxes in the same order. *)
Definition same_content (history : list base.TemporalDetection)
  (buf : list roi.entry) : Prop :=
  map (fun d => (base.td_label d, base.td_bbox d)) history
  = map (fun e => (entry_label e, entry_bbox e)) buf.

Lemma same_content_length history buf :
  same_content history buf -> length history = length buf.
Proof.
  unfold same_content. intros E.
  apply (f_equal (@length _)) in E. now rewrite !length_map in E.
Qed.

Lemma same_content_count history buf label box thr c :
  same_content history buf ->
  base.confirmations_loop history label box thr c
  = roi.count_similar_loop buf label box thr c.
Proof.
  unfold same_content. revert buf c.
  induction history as [|d history IH]; intros [|[[[l b] cf] fi] buf] c E;
    try discriminate; [reflexivity|].
  simpl in E. injection E as El Eb Erest. unfold entry_label, entry_bbox in *.
  simpl in El, Eb. simpl. rewrite El, Eb.
  destruct (negb (String.eqb l label)); [now apply IH|].
  rewrite calculate_iou_is_iou.
  destruct (Qle_bool thr (roi.iou box b)); now apply IH.
Qed.

Lemma map_tl_comm {A B} (f : A -> B) (l : list A) :
  map f (tl l) = tl (map f l).
Proof. now destruct l. Qed.

Lemma same_content_append W history buf d e :
  same_content history buf ->
  (base.td_label d, base.td_bbox d) = (entry_label e, entry_bbox e) ->
  same_content (deque_append W history d) (deque_append W buf e).
Proof.
  intros Hsame Hde. unfold deque_append.
  rewrite !length_app, (same_content_length _ _ Hsame). simpl.
  assert (Happ : same_content (history ++ [d]) (buf ++ [e])).
  { unfold same_content in *. rewrite !List.map_app, Hsame. simpl.
    now rewrite Hde. }
  destruct (W <? length buf + 1)%nat; [|assumption].
  unfold same_content in *. rewrite !map_tl_comm. now rewrite Happ.
Qed.

Lemma count_similar_loop_le_length buf label box thr :
  (roi.count_similar_loop buf label box thr 0 <= Z.of_nat (length buf))%Z.
Proof.
  induction buf as [|[[[l b] cf] fi] buf IH]; simpl; [lia|].
  destruct (negb (String.eqb l label)); [lia|].
  destruct (Qle_bool thr (roi.iou box b)); [|lia].
  rewrite count_similar_loop_acc. lia.
Qed.

(** The exact size of the divergence behind C2: for every stream, the
    helper configured with [min_confirmations = m] answers what
    [temporal_confirm] answers with [min_confirmations = m + 1]. *)
Lemma helper_is_temporal_confirm_shifted (calls : list confirm_call) :
  forall (h : base.TemporalConfirmationHelper) (buf : roi.TemporalBuffer)
         (camera_id label : string) (now : Q),
    (1 <= base.min_confirmations h)%Z ->
    roi.maxlen buf = Z.to_nat (base.window_frames h) ->
    same_content (default [] (base._history h !! camera_id)) (roi.buffer buf) ->
    fst (helper_calls h camera_id label now calls)
    = fst (confirm_calls buf label (base.min_confirmations h + 1)
             (base.iou_threshold h) calls).
Proof.
  induction calls as [|[[box conf] fi] rest IH];
    intros h buf cam label now Hm HW Hsame; [reflexivity|].
  cbn [helper_calls confirm_calls].
  unfold base.add_and_check, roi.temporal_confirm.
  set (h' := base.add_detection h cam label box conf _ now).
  set (buf' := roi.add buf label box conf fi).
  specialize (IH h' buf' cam label now).
  destruct (helper_calls h' cam label now rest) as [rs1 h1].
  destruct (confirm_calls buf' label _ _ rest) as [rs2 b2].
  cbn [fst] in *. f_equal.
  - unfold base.check_confirmation, roi.count_similar.
    pose proof (count_similar_loop_le_length (roi.buffer buf) label box
                  (base.iou_threshold h)) as Hle.
    destruct (base._history h !! cam) as [history|] eqn:Hh; simpl in Hsame.
    + rewrite (same_content_count _ _ _ _ _ _ Hsame).
      rewrite (same_content_length _ _ Hsame).
      destruct (Z.of_nat (length (roi.buffer buf)) <? base.min_confirmations h)%Z
        eqn:Hshort.
      * symmetry. apply Z.leb_gt. apply Z.ltb_lt in Hshort. lia.
      * f_equal. lia.
    + apply same_content_length in Hsame. simpl in Hsame.
      symmetry. apply Z.leb_gt. lia.
  - apply IH; [exact Hm | | ].
    + subst h' buf'. unfold roi.add, base.add_detection.
      destruct fi; exact HW.
    + subst h' buf'. unfold roi.add, base.add_detection.
      cbn [base._history]. rewrite lookup_insert_eq. cbn [default].
      assert (Hd : same_content
                     match base._history h !! cam with
                     | Some h0 => h0
                     | None => []
                     end (roi.buffer buf)).
      { destruct (base._history h !! cam); exact Hsame. }
      destruct fi; cbn [roi.buffer]; rewrite HW;
        now apply same_content_append.
Qed.

(** ** Event identifiers *)

Lemma to_int_not_nil (z : Z) :
  Z.to_int z <> Decimal.Pos Decimal.Nil /\ Z.to_int z <> Decimal.Neg Decimal.Nil.
Proof.
  destruct z as [|p|p]; simpl; split; try discriminate;
    intros E; injection E as E; exact (DecimalPos.Unsigned.to_uint_nonnil p E).
Qed.

(** [str] is injective on ints. *)
Lemma py_str_int_inj (a b : Z) : py_str_int a = py_str_int b -> a = b.
Proof.
  unfold py_str_int. intros E.
  apply (f_equal NilZero.int_of_string) in E.
  destruct (to_int_not_nil a) as [Ha1 Ha2], (to_int_not_nil b) as [Hb1 Hb2].
  rewrite !NilZero.isi in E by assumption.
  injection E as E. now apply DecimalZ.to_int_inj.
Qed.

Lemma append_cancel_l (p a b : string) : p +:+ a = p +:+ b -> a = b.
Proof.
  induction p as [|c p IH]; simpl; intros E; [assumption|].
  injection E as E. now apply IH.
Qed.

Section EventId.
Context `{Hashlib}.

(** C7. [_generate_event_id] is the SHA1 hex digest of
    ["{camera_id}:{event_type}:{label}:{ts_ms // 1000}"]; for one camera,
    type and label the hashed string is the same exactly when the two
    timestamps fall in the same one-second bucket, so equal buckets give
    identical event ids and a different bucket gives a different hash
    input. *)
Theorem generate_event_id_buckets :
  forall (camera_id event_type label : string) (ts1 ts2 : Z),
    kds._generate_event_id camera_id event_type label ts1
    = sha1_hexdigest (camera_id +:+ ":" +:+ event_type +:+ ":" +:+ label
                        +:+ ":" +:+ py_str_int (ts1 / 1000))
    /\ ((ts1 / 1000 = ts2 / 1000)%Z ->
        kds._generate_event_id camera_id event_type label ts1
        = kds._generate_event_id camera_id event_type label ts2)
    /\ ((ts1 / 1000 <> ts2 / 1000)%Z ->
        kds.hash_input camera_id event_type label ts1
        <> kds.hash_input camera_id event_type label ts2).
Proof.
  intros c t l ts1 ts2. split; [reflexivity|]. split.
  - intros E. unfold kds._generate_event_id, kds.hash_input. now rewrite E.
  - intros Hne E. apply Hne. unfold kds.hash_input in E.
    repeat (apply append_cancel_l in E). now apply py_str_int_inj.
Qed.

End EventId.

(** A stand-in digest for concrete runs: the identity on the hashed string. *)
Definition plain_hashlib : Hashlib :=
  {| sha1_hexdigest := fun s => s; md5_hexdigest := fun s => s |}.

(** S5: timestamps 1234 and 1876 share bucket 1; 2001 is in bucket 2. *)
Lemma generate_event_id_buckets_witness :
  @kds._generate_event_id plain_hashlib "cam-a" "weapon" "gun" 1234
  = @kds._generate_event_id plain_hashlib "cam-a" "weapon" "gun" 1876
  /\ kds.hash_input "cam-a" "weapon" "gun" 1234 = "cam-a:weapon:gun:1"
  /\ kds.hash_input "cam-a" "weapon" "gun" 1234
     <> kds.hash_input "cam-a" "weapon" "gun" 2001.
Proof.
  split; [|split].
  - apply (proj1 (proj2 (@generate_event_id_buckets plain_hashlib
                           "cam-a" "weapon" "gun" 1234 1876))).
    reflexivity.
  - reflexivity.
  - apply (proj2 (proj2 (@generate_event_id_buckets plain_hashlib
                           "cam-a" "weapon" "gun" 1234 2001))).
    vm_compute. discriminate.
Defined.

(** ** Metadata-store items *)




Lemma Ok_inj {A} (a b : A) : Ok a = Ok b -> a = b.
Proof. now intros [= ->]. Qed.






Definition sample_envelope : pyval :=
  PyDict
    [("event_id", PyStr "cam-a:weapon:gun:1");
     ("camera_id", PyStr "cam-a");
     ("producer", PyStr "kvs-infer/1.0");
     ("payload",
      PyDict
        [("camera_id", PyStr "cam-a"); ("type", PyStr "weapon");
         ("label", PyStr "gun"); ("conf", PyFloat (9 # 10));
         ("bbox", PyList [PyFloat 100; PyFloat 100; PyFloat 200; PyFloat 200]);
         ("ts_ms", PyInt 1234);
         ("extras",
          PyDict
            [("frame_count", PyInt 3);
             ("scores", PyList [PyDict [("ocr_conf", PyFloat (1 # 2))]])])])].




(** ** Event-stream publisher *)

(** *** When [time.sleep] raises *)

Lemma sleep_error_none (secs : Q) :
  (0 <= secs)%Q -> (secs <= sleep_limit)%Q -> sleep_error secs = None.
Proof.
  intros Hlo Hhi. unfold sleep_error.
  destruct (Qlt_bool sleep_limit secs) eqn:Hbig.
  { apply Qlt_bool_iff in Hbig. lra. }
  destruct (Qlt_bool secs sleep_floor) eqn:Hlow.
  { apply Qlt_bool_iff in Hlow. unfold sleep_floor in Hlow. lra. }
  destruct (Qlt_bool secs 0) eqn:Hneg; [|reflexivity].
  apply Qlt_bool_iff in Hneg. lra.
Qed.

(** [time.sleep] raises only on a negative delay or one beyond the range
    of the clock. *)
Lemma sleep_error_some (secs : Q) (e : exn) :
  sleep_error secs = Some e -> (secs < 0)%Q \/ (sleep_limit < secs)%Q.
Proof.
  unfold sleep_error.
  destruct (Qlt_bool sleep_limit secs) eqn:Hbig.
  { intros _. right. now apply Qlt_bool_iff. }
  destruct (Qlt_bool secs sleep_floor) eqn:Hlow.
  { intros _. left. apply Qlt_bool_iff in Hlow. unfold sleep_floor in Hlow.
    lra. }
  destruct (Qlt_bool secs 0) eqn:Hneg; [|discriminate].
  intros _. left. now apply Qlt_bool_iff.
Qed.

Lemma sleep_error_kind (secs : Q) (e : exn) :
  sleep_error secs = Some e -> e = ValueError \/ e = OverflowError.
Proof.
  unfold sleep_error.
  destruct (Qlt_bool sleep_limit secs || Qlt_bool secs sleep_floor).
  { intros [= <-]. now right. }
  destruct (Qlt_bool secs 0); [|discriminate].
  intros [= <-]. now left.
Qed.

(** The two outcomes of the backoff sleep. *)
Ltac sleep_cases :=
  unfold kds.backoff_sleep, time_sleep_result;
  destruct (sleep_error _) eqn:?; cbv beta iota.

Lemma send_loop_keeps_buffer (fuel : nat) :
  forall env self io attempt failed_records r self' io',
    kds.send_loop fuel env self io attempt failed_records = (r, self', io') ->
    kds._batch_buffer self' = kds._batch_buffer self.
Proof.
  induction fuel as [|fuel IH]; intros env self io attempt recs r self' io';
    cbn [kds.send_loop].
  - destruct ((attempt <=? kds.max_retries self)%Z
              && negb (Nat.eqb (length recs) 0)).
    + now intros [= <- <- <-].
    + destruct recs; now intros [= <- <- <-].
  - destruct ((attempt <=? kds.max_retries self)%Z
              && negb (Nat.eqb (length recs) 0)).
    2:{ destruct recs; now intros [= <- <- <-]. }
    destruct (kds.put_records env (kds.n_put io) recs) as [resp|code msg|].
    + destruct (match kds.FailedRecordCount resp with
                | Some c => c
                | None => 0%Z
                end =? 0)%Z.
      { now intros [= <- <- <-]. }
      destruct (kds.Records resp) as [results|]; [|now intros [= <- <- <-]].
      destruct (kds.collect_failed recs results 0) as [new_failed|e];
        [|now intros [= <- <- <-]].
      destruct (negb (Nat.eqb (length new_failed) 0)
                && (attempt <? kds.max_retries _)%Z);
        [sleep_cases; [now intros [= <- <- <-]|]|];
        intros E; apply IH in E; exact E.
    + destruct (kds.retryable code); [|now intros [= <- <- <-]].
      destruct (attempt <? kds.max_retries self)%Z;
        [sleep_cases; [now intros [= <- <- <-]|]|];
        intros E; apply IH in E; exact E.
    + now intros [= <- <- <-].
Qed.

Lemma send_loop_keeps_max_retries (fuel : nat) :
  forall env self io attempt failed_records,
    kds.max_retries (snd (fst (kds.send_loop fuel env self io attempt
                                 failed_records)))
    = kds.max_retries self.
Proof.
  induction fuel as [|fuel IH]; intros env self io attempt recs;
    cbn [kds.send_loop].
  - destruct ((attempt <=? kds.max_retries self)%Z
              && negb (Nat.eqb (length recs) 0)); [reflexivity|].
    destruct recs; reflexivity.
  - destruct ((attempt <=? kds.max_retries self)%Z
              && negb (Nat.eqb (length recs) 0)).
    2:{ destruct recs; reflexivity. }
    destruct (kds.put_records env (kds.n_put io) recs) as [resp|code msg|];
      [| |reflexivity].
    + destruct (match kds.FailedRecordCount resp with
                | Some c => c
                | None => 0%Z
                end =? 0)%Z; [reflexivity|].
      destruct (kds.Records resp) as [results|]; [|reflexivity].
      destruct (kds.collect_failed recs results 0) as [new_failed|e];
        [|reflexivity].
      destruct (negb (Nat.eqb (length new_failed) 0)
                && (attempt <? kds.max_retries _)%Z);
        [sleep_cases; [reflexivity|]|]; now rewrite IH.
    + destruct (kds.retryable code); [|reflexivity].
      destruct (attempt <? kds.max_retries self)%Z;
        [sleep_cases; [reflexivity|]|]; now rewrite IH.
Qed.

(** The recursion bound of [send_loop] is never what stops the loop. *)
Lemma send_loop_terminates (fuel : nat) :
  forall env self io attempt failed_records,
    (kds.max_retries self + 1 - attempt <= Z.of_nat fuel)%Z ->
    fst (fst (kds.send_loop fuel env self io attempt failed_records))
    <> Raise OutOfFuel.
Proof.
  induction fuel as [|fuel IH]; intros env self io attempt recs Hfuel;
    cbn [kds.send_loop].
  - destruct (attempt <=? kds.max_retries self)%Z eqn:Hle.
    + apply Z.leb_le in Hle. lia.
    + simpl. destruct recs; discriminate.
  - destruct ((attempt <=? kds.max_retries self)%Z
              && negb (Nat.eqb (length recs) 0)).
    2:{ destruct recs; discriminate. }
    destruct (kds.put_records env (kds.n_put io) recs) as [resp|code msg|];
      [| |discriminate].
    + destruct (match kds.FailedRecordCount resp with
                | Some c => c
                | None => 0%Z
                end =? 0)%Z; [discriminate|].
      destruct (kds.Records resp) as [results|]; [|discriminate].
      destruct (kds.collect_failed recs results 0) as [new_failed|e];
        [|discriminate].
      destruct (negb (Nat.eqb (length new_failed) 0)
                && (attempt <? kds.max_retries _)%Z);
        [sleep_cases; [discriminate|]|]; apply IH; cbn; lia.
    + destruct (kds.retryable code); [|discriminate].
      destruct (attempt <? kds.max_retries self)%Z;
        [sleep_cases;
         [intros [= ->];
          match goal with
          | Herr : sleep_error _ = Some _ |- _ =>
            apply sleep_error_kind in Herr as [Herr|Herr]; discriminate
          end|]|]; apply IH; cbn; lia.
Qed.

Section Publisher.
Context `{Hashlib} `{Json} `{Repr}.

Lemma make_records_not_fuel (batch : list (pyval * string)) :
  kds.make_records batch <> Raise OutOfFuel.
Proof.
  induction batch as [|[envelope pk] batch IH]; simpl; [discriminate|].
  destruct (json_dumps envelope); [|discriminate].
  destruct (kds.make_records batch) as [more|e]; simpl; [discriminate|].
  intros [= ->]. now apply IH.
Qed.

Lemma py_getitem_raises (obj : pyval) (k : string) (e : exn) :
  py_getitem obj k = Raise e -> e = KeyError \/ e = TypeError.
Proof.
  unfold py_getitem. destruct obj; try (intros [= <-]; now right).
  destruct (dict_get d k); [discriminate|]. intros [= <-]. now left.
Qed.

(** [_create_event_envelope] fails only with [KeyError] (a field is
    missing) or [TypeError] (the event is no dict, or [ts_ms // 1000] is
    not defined). *)
Lemma create_event_envelope_raises (event : pyval) (producer_version : string)
  (e : exn) :
  kds._create_event_envelope event producer_version = Raise e ->
  e = KeyError \/ e = TypeError.
Proof.
  unfold kds._create_event_envelope.
  destruct (py_getitem event "camera_id") eqn:E1;
    [cbn [rbind]|intros [= <-]; exact (py_getitem_raises _ _ _ E1)].
  destruct (py_getitem event "type") eqn:E2;
    [cbn [rbind]|intros [= <-]; exact (py_getitem_raises _ _ _ E2)].
  destruct (py_getitem event "label") eqn:E3;
    [cbn [rbind]|intros [= <-]; exact (py_getitem_raises _ _ _ E3)].
  destruct (py_getitem event "ts_ms") as [ts_ms|e4] eqn:E4;
    [cbn [rbind]|intros [= <-]; exact (py_getitem_raises _ _ _ E4)].
  unfold kds.generate_event_id_untyped.
  destruct ts_ms; cbn [kds.floordiv_1000 rbind]; try discriminate;
    intros [= <-]; now right.
Qed.

(** C10 (as amended). [flush] always leaves [_batch_buffer] empty, whatever
    the service answered and whether [flush] returned or raised;
    [_send_batch_with_retries] never touches the buffer, so nothing a send
    failed to deliver comes back; [flush] is total (the retry loop ends). A
    [put_event] that stays below [batch_size] appends the envelope and
    returns [True] without sending anything when the envelope can be built;
    when it cannot (the event lacks [camera_id], [type], [label] or [ts_ms],
    or [ts_ms // 1000] is not defined) [put_event] raises [KeyError] or
    [TypeError] and leaves the buffer as it was. *)
Theorem flush_leaves_buffer_empty :
  (forall env self io r self' io',
      kds.flush env self io = (r, self', io') ->
      kds._batch_buffer self' = [] /\ r <> Raise OutOfFuel)
  /\ (forall env self io batch r self' io',
         kds._send_batch_with_retries env self io batch = (r, self', io') ->
         kds._batch_buffer self' = kds._batch_buffer self)
  /\ (forall env self io event partition_key envelope,
         kds._create_event_envelope event (kds.producer_version self)
         = Ok envelope ->
         (kds.len (kds._batch_buffer self) + 1 < kds.batch_size self)%Z ->
         kds.put_event env self io event partition_key
         = (Ok true,
            kds.set_buffer self
              (kds._batch_buffer self ++ [(envelope, partition_key)]),
            io))
  /\ (forall env self io event partition_key e,
         kds._create_event_envelope event (kds.producer_version self)
         = Raise e ->
         kds.put_event env self io event partition_key = (Raise e, self, io)
         /\ (e = KeyError \/ e = TypeError)).
Proof.
  assert (Hsend : forall env self io batch r self' io',
             kds._send_batch_with_retries env self io batch = (r, self', io') ->
             kds._batch_buffer self' = kds._batch_buffer self
             /\ r <> Raise OutOfFuel).
  { intros env self io batch r self' io'. unfold kds._send_batch_with_retries.
    destruct (kds.make_records batch) as [records|e] eqn:Hrec.
    - intros E. split; [exact (send_loop_keeps_buffer _ _ _ _ _ _ _ _ _ E)|].
      pose proof (send_loop_terminates (Z.to_nat (kds.max_retries self + 1))
                    env self io 0 records ltac:(lia)) as Hfuel.
      now rewrite E in Hfuel.
    - intros E. injection E as Er Es Ei. subst r self' io'.
      split; [reflexivity|].
      intros [= ->]. exact (make_records_not_fuel batch Hrec). }
  split; [|split; [|split]].
  - intros env self io r self' io'. unfold kds.flush.
    destruct (kds._batch_buffer self) eqn:Hbuf.
    + intros [= <- <- <-]. split; [assumption | discriminate].
    + intros E. apply Hsend in E. exact E.
  - intros env self io batch r self' io' E. exact (proj1 (Hsend _ _ _ _ _ _ _ E)).
  - intros env self io event pk envelope Henv Hroom. unfold kds.put_event.
    rewrite Henv. cbn [kds.set_buffer kds.batch_size kds._batch_buffer].
    replace (kds.batch_size self
             <=? kds.len (kds._batch_buffer self ++ [(envelope, pk)]))%Z
      with false; [reflexivity|].
    symmetry. apply Z.leb_gt. unfold kds.len in *. rewrite length_app.
    simpl. lia.
  - intros env self io event pk e Henv. unfold kds.put_event.
    rewrite Henv. split; [reflexivity|].
    exact (create_event_envelope_raises _ _ _ Henv).
Qed.

End Publisher.

(** The records whose per-record result carries an [ErrorCode], in
    submission order: requests and results paired position by position. *)
Fixpoint failed_of (request : list kds.kinesis_record)
  (results : list kds.record_result) : list kds.kinesis_record :=
  match request, results with
  | r :: request', result :: results' =>
    match kds.ErrorCode result with
    | Some _ => r :: failed_of request' results'
    | None => failed_of request' results'
    end
  | _, _ => []
  end.

Lemma failed_of_sublist request results :
  sublist (failed_of request results) request.
Proof.
  revert results. induction request as [|r request IH]; intros [|res results];
    simpl; try apply sublist_nil_l.
  destruct (kds.ErrorCode res).
  - apply sublist_skip, IH.
  - apply sublist_cons, IH.
Qed.

Lemma collect_failed_is_failed_of results :
  forall (request : list kds.kinesis_record) (i : nat) failed,
    kds.collect_failed request results i = Ok failed ->
    failed = failed_of (skipn i request) results.
Proof.
  induction results as [|res results IH]; intros request i failed; simpl.
  - intros [= <-]. now destruct (skipn i request).
  - destruct (kds.ErrorCode res) eqn:Hcode.
    + destruct (nth_error request i) as [r|] eqn:Hnth; [|discriminate].
      destruct (kds.collect_failed request results (S i)) as [more|] eqn:Hmore;
        [|discriminate].
      simpl. intros [= <-]. apply IH in Hmore.
      apply nth_error_split in Hnth as (l1 & l2 & -> & <-).
      rewrite List.skipn_app, Nat.sub_diag, List.skipn_all.
      cbn [app skipn failed_of]. rewrite Hcode. f_equal. rewrite Hmore.
      replace (S (length l1)) with (length (l1 ++ [r]))
        by (rewrite length_app; simpl; lia).
      rewrite (List.app_assoc l1 [r] l2 : l1 ++ r :: l2 = (l1 ++ [r]) ++ l2).
      rewrite List.skipn_app, Nat.sub_diag, List.skipn_all. reflexivity.
    + intros Hmore. apply IH in Hmore. subst failed.
      destruct (skipn i request) as [|r rest] eqn:Hskip.
      * assert (Hlen : (length request <= i)%nat).
        { apply (f_equal (@length _)) in Hskip. rewrite List.length_skipn in Hskip.
          simpl in Hskip. lia. }
        rewrite List.skipn_all2 by lia. now destruct results.
      * cbn [failed_of]. rewrite Hcode.
        change (S i) with (1 + i)%nat. rewrite <- List.skipn_skipn, Hskip.
        reflexivity.
Qed.



Lemma backoff_sleep_calls env self io attempt :
  kds.calls (snd (kds.backoff_sleep env self io attempt)) = kds.calls io.
Proof. reflexivity. Qed.









Lemma guard_true (attempt max_retries : Z) (recs : list kds.kinesis_record) :
  (attempt <= max_retries)%Z -> recs <> [] ->
  (attempt <=? max_retries)%Z && negb (Nat.eqb (length recs) 0) = true.
Proof.
  intros Hatt Hrecs. apply Z.leb_le in Hatt. rewrite Hatt.
  now destruct recs.
Qed.





Section Retry.
Context `{Json}.


End Retry.

(** A stand-in serialiser for concrete runs: strings serialise to
    themselves, dicts to ["{}"], anything else is rejected. *)
Definition plain_json : Json :=
  {| json_dumps := fun v =>
       match v with
       | PyStr s => Some s
       | PyDict _ => Some "{}"
       | _ => None
       end |}.

(** A stand-in for [str] on floats, decimals and containers. *)
Definition plain_repr : Repr := {| py_repr := fun _ => "?"%string |}.

Definition failed_result : kds.record_result :=
  kds.MkRecordResult (Some "ProvisionedThroughputExceededException") None.
Definition ok_result : kds.record_result := kds.MkRecordResult None None.

(** A service that rejects the first and third record of the first request
    and accepts everything afterwards. *)
Definition partial_env : kds.Env :=
  kds.MkEnv
    (fun n _ =>
       match n with
       | O => kds.Response
                (kds.MkResponse (Some 2%Z)
                   (Some [failed_result; ok_result; failed_result]))
       | _ => kds.Response (kds.MkResponse (Some 0%Z) (Some []))
       end)
    (fun _ => 1%Q).

(** A service that rejects every record of every request. *)
Definition rejecting_env : kds.Env :=
  kds.MkEnv
    (fun _ recs =>
       kds.Response
         (kds.MkResponse (Some (kds.len recs))
            (Some (map (fun _ => failed_result) recs))))
    (fun _ => 1%Q).

Definition client0 : kds.KDSClient :=
  kds.KDSClient_init "events" 2 3 100 "kvs-infer/1.0".

Definition abc_batch : list (pyval * string) :=
  [(PyStr "a", "cam-a"); (PyStr "b", "cam-a"); (PyStr "c", "cam-a")].


(** A client configured with a negative base backoff. *)
Definition hasty_client : kds.KDSClient :=
  kds.KDSClient_init "events" 2 3 (-1000) "kvs-infer/1.0".

Definition hasty_run : result bool * kds.KDSClient * kds.Io :=
  @kds._send_batch_with_retries plain_json partial_env hasty_client kds.io0
    abc_batch.

(** With [base_backoff_ms = -1000] the first answer reports two failed
    records and three retry attempts remain, yet no second request is made:
    [time.sleep(-1.0)] raises inside the [try] block and the run returns
    [False] after its only request. *)
Lemma negative_backoff_ends_the_run :
  fst (fst hasty_run) = Ok false
  /\ kds.calls (snd hasty_run)
     = [([kds.MkRecord "a" "cam-a"; kds.MkRecord "b" "cam-a";
          kds.MkRecord "c" "cam-a"],
         kds.Response
           (kds.MkResponse (Some 2%Z)
              (Some [failed_result; ok_result; failed_result])))]
  /\ failed_of
       [kds.MkRecord "a" "cam-a"; kds.MkRecord "b" "cam-a";
        kds.MkRecord "c" "cam-a"]
       [failed_result; ok_result; failed_result]
     = [kds.MkRecord "a" "cam-a"; kds.MkRecord "c" "cam-a"]
  /\ (0 < kds.max_retries hasty_client)%Z
  /\ map Qred (kds.sleeps (snd hasty_run)) = [(-1)%Q].
Proof. vm_compute. repeat split; reflexivity. Qed.

Definition sample_event : pyval :=
  PyDict
    [("camera_id", PyStr "cam-a"); ("type", PyStr "weapon");
     ("label", PyStr "gun"); ("conf", PyFloat (9 # 10));
     ("bbox", PyList [PyFloat 100; PyFloat 100; PyFloat 200; PyFloat 200]);
     ("ts_ms", PyInt 1234); ("extras", PyDict [])].

Definition buffered_client : kds.KDSClient :=
  kds.set_buffer client0 [(PyStr "a", "cam-a")].

(** With [batch_size = 2]: the first [put_event] only buffers and returns
    [True]; a [flush] against a service that rejects everything returns
    [False] after four requests and still leaves the buffer empty. *)
Lemma flush_leaves_buffer_empty_witness :
  (exists envelope,
      @kds.put_event plain_hashlib plain_json plain_repr rejecting_env client0 kds.io0
        sample_event "cam-a"
      = (Ok true, kds.set_buffer client0 [(envelope, "cam-a")], kds.io0))
  /\ fst (fst (@kds.flush plain_json rejecting_env buffered_client kds.io0))
     = Ok false
  /\ length (kds.calls (snd (@kds.flush plain_json rejecting_env
                               buffered_client kds.io0))) = 4%nat
  /\ kds._batch_buffer
       (snd (fst (@kds.flush plain_json rejecting_env buffered_client
                    kds.io0))) = [].
Proof.
  destruct (@flush_leaves_buffer_empty plain_hashlib plain_json plain_repr)
    as (Hflush & _ & Hput & _).
  split; [|split; [|split]].
  - eexists.
    apply (Hput rejecting_env client0 kds.io0 sample_event "cam-a");
      [reflexivity | vm_compute; reflexivity].
  - vm_compute. reflexivity.
  - vm_compute. reflexivity.
  - destruct (@kds.flush plain_json rejecting_env buffered_client kds.io0)
      as [[r c2] io2] eqn:E.
    exact (proj1 (Hflush _ _ _ _ _ _ E)).
Defined.

(** The event dict that [CameraWorker._publish_events] hands to
    [put_event]: only [camera_id] and [payload]. *)
Definition worker_event : pyval :=
  PyDict [("camera_id", PyStr "cam-a"); ("payload", sample_event)].

(** Below [batch_size], with nothing to flush, [put_event] does not return
    [True] on such an event: it raises [KeyError] at [event["type"]]. *)
Lemma put_event_raises_on_worker_event :
  (kds.len (kds._batch_buffer client0) + 1 < kds.batch_size client0)%Z
  /\ @kds.put_event plain_hashlib plain_json plain_repr rejecting_env client0
       kds.io0 worker_event "cam-a"
     = (Raise KeyError, client0, kds.io0).
Proof. split; [vm_compute|]; reflexivity. Qed.

(** ** HLS frame source: reconnection storms *)

Lemma py_min_eq (a b m : Q) :
  ((a <= b)%Q -> (m == a)%Q) -> ((b <= a)%Q -> (m == b)%Q) ->
  (py_min a b == m)%Q.
Proof.
  intros Ha Hb. destruct (py_min_cases a b) as [[Hle ->]|[Hlt ->]].
  - symmetry. now apply Ha.
  - symmetry. apply Hb. now apply Qlt_le_weak.
Qed.

Lemma Qpower_nat_ge_1 (m : Q) (i : nat) :
  (1 <= m)%Q -> (1 <= m ^ Z.of_nat i)%Q.
Proof.
  intros Hm. induction i as [|i IH]; [easy|].
  rewrite Nat2Z.inj_succ, <- Z.add_1_r.
  rewrite Qpower_plus by (intros E; rewrite E in Hm; easy).
  change (m ^ 1)%Q with m. nra.
Qed.

Lemma Qpower_nat_succ (m : Q) (i : nat) :
  (1 <= m)%Q -> (m ^ Z.of_nat (S i) == m * m ^ Z.of_nat i)%Q.
Proof.
  intros Hm. rewrite Nat2Z.inj_succ, <- Z.add_1_r.
  rewrite Qpower_plus by (intros E; rewrite E in Hm; easy).
  change (m ^ 1)%Q with m. ring.
Qed.

(** Case analysis on the innermost scrutinee of the goal; an [Opened]
    decoder is ruled out by the hypothesis [Hno]. *)
Ltac break_innermost Hno :=
  match goal with
  | |- context [match ?x with _ => _ end] =>
    lazymatch x with
    | context [match _ with _ => _ end] => fail
    | kvs_hls.video_capture _ ?n =>
      let E := fresh "E" in
      destruct x eqn:E; [exfalso; exact (Hno n E) | | ]; cbn
    | _ => destruct x; cbn
    end
  end.

Section Storm.
Context (env : kvs_hls.Env) (cfg : kvs_hls.Config).

(** The decoder never manages to open the stream. *)
Definition never_opens : Prop :=
  forall n, kvs_hls.video_capture env n <> kvs_hls.Opened.

Definition disconnected (st : kvs_hls.State) : Prop :=
  kvs_hls._connection_state st <> kvs_hls.CONNECTED
  /\ kvs_hls._connection_state st <> kvs_hls.RECONNECTING.

Lemma open_stream_fails st io :
  never_opens ->
  exists st' io',
    kvs_hls._open_stream env cfg st io = (Ok false, st', io')
    /\ kvs_hls._connection_state st' = kvs_hls.ERROR
    /\ kvs_hls._consecutive_errors st' = kvs_hls._consecutive_errors st
    /\ kvs_hls._current_backoff st' = kvs_hls._current_backoff st
    /\ kvs_hls.sleeps io' = kvs_hls.sleeps io
    /\ kvs_hls.n_rand io' = kvs_hls.n_rand io.
Proof.
  intros Hno.
  unfold kvs_hls._open_stream, kvs_hls.try_except, kvs_hls.bind,
    kvs_hls.modify, kvs_hls.get, kvs_hls.ret, kvs_hls._should_refresh_url,
    kvs_hls.time_time, kvs_hls._get_hls_url, kvs_hls.open_capture,
    kvs_hls.bind, kvs_hls.get, kvs_hls.ret.
  cbn.
  repeat break_innermost Hno;
    eexists _, _; (split; [reflexivity|]); cbn; repeat split.
Qed.

(** The delay [_calculate_backoff_delay] computes in state [st] with the
    next random draw. *)
Definition next_delay (st : kvs_hls.State) (io : kvs_hls.Io) : Q :=
  (py_min (kvs_hls._current_backoff st) (kvs_hls.max_reconnect_delay cfg)
   * kvs_hls.uniform env (kvs_hls.n_rand io))%Q.

Definition next_backoff (st : kvs_hls.State) : Q :=
  py_min (kvs_hls._current_backoff st * kvs_hls.backoff_multiplier cfg)%Q
    (kvs_hls.max_reconnect_delay cfg).

(** Reaching the cap: [_handle_reconnect] raises before any backoff. *)
Lemma handle_reconnect_fatal st io :
  (kvs_hls.max_consecutive_errors cfg
   <= kvs_hls._consecutive_errors st + 1)%Z ->
  kvs_hls._handle_reconnect env cfg st io
  = (Raise FrameSourceError,
     kvs_hls.set_consecutive_errors (kvs_hls._consecutive_errors st + 1) st,
     io).
Proof.
  intros Hmax. apply Z.leb_le in Hmax.
  unfold kvs_hls._handle_reconnect, kvs_hls.bind, kvs_hls.get, kvs_hls.modify,
    kvs_hls.raise.
  now rewrite Hmax.
Qed.

(** What a call of the storm returns below the cap: [None] after a backoff
    sleep that returned, the exception of [time.sleep] otherwise. *)
Definition after_sleep {A} (delay : Q) (a : A) : result A :=
  match sleep_error delay with
  | Some e => Raise e
  | None => Ok a
  end.

(** Below the cap, with a decoder that does not open: one backoff sleep
    and, when the sleep returns, one failed reopen. *)
Lemma handle_reconnect_retries st io :
  never_opens ->
  kvs_hls._connection_state st = kvs_hls.ERROR ->
  (kvs_hls._consecutive_errors st + 1
   < kvs_hls.max_consecutive_errors cfg)%Z ->
  exists st' io',
    kvs_hls._handle_reconnect env cfg st io
    = (after_sleep (next_delay st io) false, st', io')
    /\ kvs_hls._connection_state st' = kvs_hls.ERROR
    /\ kvs_hls._consecutive_errors st' = (kvs_hls._consecutive_errors st + 1)%Z
    /\ kvs_hls._current_backoff st' = next_backoff st
    /\ kvs_hls.sleeps io' = kvs_hls.sleeps io ++ [next_delay st io]
    /\ kvs_hls.n_rand io' = S (kvs_hls.n_rand io).
Proof.
  intros Hno Hconn0 Hlt. apply Z.leb_gt in Hlt.
  unfold kvs_hls._handle_reconnect, kvs_hls.bind at 1 2, kvs_hls.get,
    kvs_hls.modify.
  rewrite Hlt.
  unfold kvs_hls.bind, kvs_hls._calculate_backoff_delay, kvs_hls.bind,
    kvs_hls.get, kvs_hls.random_uniform, kvs_hls.modify, kvs_hls.ret,
    kvs_hls.time_sleep, time_sleep_result, after_sleep.
  cbn [kvs_hls._current_backoff kvs_hls.set_consecutive_errors].
  fold (next_delay st io).
  destruct (sleep_error (next_delay st io)) as [e|].
  - eexists _, _. split; [reflexivity|]. cbn. now repeat split.
  - match goal with
    | |- context [kvs_hls._open_stream env cfg ?s ?i] =>
      destruct (open_stream_fails s i Hno)
        as (st' & io' & E & Hconn & Herr & Hback & Hsl & Hrand);
      rewrite E
    end.
    exists st', io'. split; [reflexivity|].
    rewrite Herr, Hback, Hsl, Hrand. repeat split; assumption.
Qed.

(** One [read_frame] call of the storm: no stream is open and none can be
    opened. *)
Lemma read_frame_storm_step st io :
  never_opens ->
  disconnected st ->
  exists st' io',
    kvs_hls._connection_state st' = kvs_hls.ERROR
    /\ kvs_hls._consecutive_errors st' = (kvs_hls._consecutive_errors st + 1)%Z
    /\ if (kvs_hls.max_consecutive_errors cfg
           <=? kvs_hls._consecutive_errors st + 1)%Z
       then kvs_hls.read_frame env cfg st io
            = (Raise FrameSourceError, st', io')
            /\ kvs_hls._current_backoff st' = kvs_hls._current_backoff st
            /\ kvs_hls.sleeps io' = kvs_hls.sleeps io
            /\ kvs_hls.n_rand io' = kvs_hls.n_rand io
       else kvs_hls.read_frame env cfg st io
            = (after_sleep (next_delay st io) None, st', io')
            /\ kvs_hls._current_backoff st' = next_backoff st
            /\ kvs_hls.sleeps io' = kvs_hls.sleeps io ++ [next_delay st io]
            /\ kvs_hls.n_rand io' = S (kvs_hls.n_rand io).
Proof.
  intros Hno [Hc Hr].
  destruct (open_stream_fails st io Hno)
    as (st1 & io1 & E1 & Hconn1 & Herr1 & Hback1 & Hsl1 & Hrand1).
  destruct (kvs_hls.max_consecutive_errors cfg
            <=? kvs_hls._consecutive_errors st + 1)%Z eqn:Hmax.
  - apply Z.leb_le in Hmax.
    pose proof (handle_reconnect_fatal st1 io1 ltac:(rewrite Herr1; lia)) as E2.
    eexists _, io1. split; [|split; [|split; [|split; [|split]]]].
    3:{ unfold kvs_hls.read_frame, kvs_hls.bind, kvs_hls.get.
        destruct (kvs_hls._connection_state st); try congruence;
          rewrite E1; cbv beta iota; rewrite E2; reflexivity. }
    + exact Hconn1.
    + cbn. now rewrite Herr1.
    + exact Hback1.
    + exact Hsl1.
    + exact Hrand1.
  - apply Z.leb_gt in Hmax.
    destruct (handle_reconnect_retries st1 io1 Hno Hconn1
                ltac:(rewrite Herr1; lia))
      as (st2 & io2 & E2 & Hconn2 & Herr2 & Hback2 & Hsl2 & Hrand2).
    assert (Hdelay : next_delay st1 io1 = next_delay st io)
      by (unfold next_delay; now rewrite Hback1, Hrand1).
    rewrite Hdelay in *.
    exists st2, io2. split; [|split; [|split; [|split; [|split]]]].
    3:{ unfold kvs_hls.read_frame, kvs_hls.bind, kvs_hls.get.
        destruct (kvs_hls._connection_state st); try congruence;
          rewrite E1; cbv beta iota; rewrite E2; unfold after_sleep;
          destruct (sleep_error (next_delay st io)); reflexivity. }
    + exact Hconn2.
    + now rewrite Herr2, Herr1.
    + rewrite Hback2. unfold next_backoff. now rewrite Hback1.
    + now rewrite Hsl2, Hsl1.
    + now rewrite Hrand2, Hrand1.
Qed.

(** What a storm of [n] calls returns when it starts with [c] consecutive
    errors, [_current_backoff = b] and [r] random draws already made: below
    the cap the outcome of the backoff sleep, the fatal error from the cap
    on. *)
Fixpoint storm_results (n : nat) (c : Z) (b : Q) (r : nat)
  : list (result (option (nat * Q))) :=
  match n with
  | O => []
  | S n' =>
    (if (kvs_hls.max_consecutive_errors cfg <=? c + 1)%Z
     then Raise FrameSourceError
     else after_sleep
            (py_min b (kvs_hls.max_reconnect_delay cfg) * kvs_hls.uniform env r)
            None)
    :: storm_results n' (c + 1)
         (py_min (b * kvs_hls.backoff_multiplier cfg)%Q
            (kvs_hls.max_reconnect_delay cfg))
         (S r)
  end.

Lemma storm_results_fatal n :
  forall c b r b' r',
    (kvs_hls.max_consecutive_errors cfg <= c + 1)%Z ->
    storm_results n c b r = storm_results n c b' r'.
Proof.
  induction n as [|n IH]; intros c b r b' r' Hmax; cbn [storm_results];
    [reflexivity|].
  replace (kvs_hls.max_consecutive_errors cfg <=? c + 1)%Z with true
    by (symmetry; apply Z.leb_le; lia).
  f_equal. apply IH. lia.
Qed.

(** The backoff sleeps of such a storm, starting with [_current_backoff = b]
    and [r] random draws already made. *)
Fixpoint storm_sleeps (n : nat) (c : Z) (b : Q) (r : nat) : list Q :=
  match n with
  | O => []
  | S n' =>
    if (kvs_hls.max_consecutive_errors cfg <=? c + 1)%Z then []
    else
      (py_min b (kvs_hls.max_reconnect_delay cfg) * kvs_hls.uniform env r)%Q
      :: storm_sleeps n' (c + 1)
           (py_min (b * kvs_hls.backoff_multiplier cfg)%Q
              (kvs_hls.max_reconnect_delay cfg))
           (S r)
  end.

Lemma storm_sleeps_fatal n c b r :
  (kvs_hls.max_consecutive_errors cfg <= c + 1)%Z ->
  storm_sleeps n c b r = [].
Proof.
  intros Hmax. apply Z.leb_le in Hmax. destruct n; simpl; [reflexivity|].
  now rewrite Hmax.
Qed.

Lemma read_frame_calls_storm (n : nat) :
  forall st io,
    never_opens ->
    disconnected st ->
    fst (fst (kvs_hls.read_frame_calls env cfg n st io))
    = storm_results n (kvs_hls._consecutive_errors st)
        (kvs_hls._current_backoff st) (kvs_hls.n_rand io)
    /\ kvs_hls.sleeps (snd (kvs_hls.read_frame_calls env cfg n st io))
       = kvs_hls.sleeps io
         ++ storm_sleeps n (kvs_hls._consecutive_errors st)
              (kvs_hls._current_backoff st) (kvs_hls.n_rand io).
Proof.
  induction n as [|n IH]; intros st io Hno Hdisc.
  - simpl. now rewrite List.app_nil_r.
  - destruct (read_frame_storm_step st io Hno Hdisc)
      as (st' & io' & Hconn & Herr & Hstep).
    assert (Hdisc' : disconnected st')
      by (unfold disconnected; rewrite Hconn; split; discriminate).
    specialize (IH st' io' Hno Hdisc'). rewrite Herr in IH.
    cbn [kvs_hls.read_frame_calls storm_results storm_sleeps].
    destruct (kvs_hls.max_consecutive_errors cfg
              <=? kvs_hls._consecutive_errors st + 1)%Z eqn:Hmax;
      destruct Hstep as (E & Hback & Hsl & Hrand); rewrite E;
      destruct (kvs_hls.read_frame_calls env cfg n st' io')
        as [[rs st''] io''];
      cbn [fst snd] in *; destruct IH as [IHr IHs]; rewrite IHr, IHs.
    + apply Z.leb_le in Hmax. split.
      * f_equal. apply storm_results_fatal. lia.
      * rewrite storm_sleeps_fatal by lia. now rewrite Hsl.
    + split.
      * rewrite Hback, Hrand. reflexivity.
      * rewrite Hsl, Hback, Hrand, <- List.app_assoc. reflexivity.
Qed.

(** [_current_backoff] after [i] updates by [_calculate_backoff_delay]. *)
Fixpoint backoff_at (b : Q) (i : nat) : Q :=
  match i with
  | O => b
  | S i' =>
    backoff_at (py_min (b * kvs_hls.backoff_multiplier cfg)%Q
                  (kvs_hls.max_reconnect_delay cfg)) i'
  end.

(** The argument of the [(i+1)]-th backoff sleep of a storm. *)
Definition storm_delay (b : Q) (r i : nat) : Q :=
  (py_min (backoff_at b i) (kvs_hls.max_reconnect_delay cfg)
   * kvs_hls.uniform env (r + i))%Q.

Lemma storm_results_nth (n : nat) :
  forall (c : Z) (b : Q) (r i : nat),
    (i < n)%nat ->
    nth_error (storm_results n c b r) i
    = Some (if (kvs_hls.max_consecutive_errors cfg <=? c + 1 + Z.of_nat i)%Z
            then Raise FrameSourceError
            else after_sleep (storm_delay b r i) None).
Proof.
  induction n as [|n IH]; intros c b r i Hi; [lia|].
  destruct i as [|i]; cbn [storm_results nth_error].
  - unfold storm_delay. cbn [backoff_at].
    now rewrite Z.add_0_r, Nat.add_0_r.
  - rewrite IH by lia. unfold storm_delay. cbn [backoff_at].
    replace (c + 1 + 1 + Z.of_nat i)%Z with (c + 1 + Z.of_nat (S i))%Z
      by lia.
    now replace (S r + i)%nat with (r + S i)%nat by lia.
Qed.

Lemma storm_sleeps_nth (n : nat) :
  forall (c : Z) (b : Q) (r i : nat) (s : Q),
    nth_error (storm_sleeps n c b r) i = Some s ->
    s = (py_min (backoff_at b i) (kvs_hls.max_reconnect_delay cfg)
         * kvs_hls.uniform env (r + i))%Q.
Proof.
  induction n as [|n IH]; intros c b r i s; cbn [storm_sleeps].
  - now destruct i.
  - destruct (kvs_hls.max_consecutive_errors cfg <=? c + 1)%Z;
      [now destruct i|].
    destruct i as [|i]; cbn [nth_error backoff_at].
    + intros [= <-]. now rewrite Nat.add_0_r.
    + intros Hs. apply IH in Hs. rewrite Hs. do 2 f_equal. lia.
Qed.

Lemma storm_sleeps_length (n : nat) :
  forall (c : Z) (b : Q) (r : nat),
    length (storm_sleeps n c b r)
    = Nat.min n (Z.to_nat (kvs_hls.max_consecutive_errors cfg - 1 - c)).
Proof.
  induction n as [|n IH]; intros c b r; cbn [storm_sleeps]; [reflexivity|].
  destruct (kvs_hls.max_consecutive_errors cfg <=? c + 1)%Z eqn:Hmax.
  - apply Z.leb_le in Hmax. cbn [length]. lia.
  - apply Z.leb_gt in Hmax. cbn [length]. rewrite IH. lia.
Qed.

Lemma py_min_compat (a a' M : Q) :
  (a == a')%Q -> (py_min a M == py_min a' M)%Q.
Proof.
  intros E. apply py_min_eq; intros Hle;
    destruct (py_min_cases a' M) as [[Hle' ->]|[Hlt' ->]]; lra.
Qed.

(** With a multiplier of at least one and a non-negative cap, the capped
    backoff after [i] updates is [min(b * multiplier^i, max)]. *)
Lemma backoff_closed_form (i : nat) :
  forall b : Q,
    (1 <= kvs_hls.backoff_multiplier cfg)%Q ->
    (0 <= kvs_hls.max_reconnect_delay cfg)%Q ->
    (py_min (backoff_at b i) (kvs_hls.max_reconnect_delay cfg)
     == py_min (b * kvs_hls.backoff_multiplier cfg ^ Z.of_nat i)
          (kvs_hls.max_reconnect_delay cfg))%Q.
Proof.
  set (m := kvs_hls.backoff_multiplier cfg).
  set (M := kvs_hls.max_reconnect_delay cfg).
  induction i as [|i IH]; intros b Hm HM.
  - cbn [backoff_at]. apply py_min_compat. change (m ^ Z.of_nat 0)%Q with 1%Q.
    ring.
  - cbn [backoff_at]. fold m M.
    etransitivity; [apply IH; assumption|].
    pose proof (Qpower_nat_ge_1 m i Hm) as HP.
    pose proof (Qpower_nat_succ m i Hm) as HS.
    set (P := (m ^ Z.of_nat i)%Q) in *.
    set (P' := (m ^ Z.of_nat (S i))%Q) in *.
    destruct (py_min_cases (b * m) M) as [[Hle ->]|[Hlt ->]].
    + apply py_min_compat. rewrite HS. ring.
    + transitivity M.
      * apply py_min_eq; intros Hc; nra.
      * symmetry. apply py_min_eq; intros Hc; [|reflexivity].
        assert (b * P' == b * m * P)%Q by (rewrite HS; ring). nra.
Qed.

(** The delays of a storm are ones that [time.sleep] accepts: backoff, cap
    and multiplier are not negative, and the cap with the largest jitter
    fits the clock. *)
Definition sane_delays (b : Q) : Prop :=
  (0 <= b)%Q
  /\ (0 <= kvs_hls.max_reconnect_delay cfg)%Q
  /\ (0 <= kvs_hls.backoff_multiplier cfg)%Q
  /\ (kvs_hls.max_reconnect_delay cfg * (12 # 10) <= sleep_limit)%Q.

(** [random.uniform(0.8, 1.2)] stays within its bounds. *)
Definition jitter_bounded : Prop :=
  forall k, (8 # 10 <= kvs_hls.uniform env k)%Q
            /\ (kvs_hls.uniform env k <= 12 # 10)%Q.

Lemma py_min_bounds (a M : Q) :
  (0 <= a)%Q -> (0 <= M)%Q -> (0 <= py_min a M)%Q /\ (py_min a M <= M)%Q.
Proof.
  intros Ha HM. destruct (py_min_cases a M) as [[Hle ->]|[Hlt ->]];
    split; lra.
Qed.

Lemma backoff_at_nonneg (i : nat) :
  forall b, sane_delays b -> (0 <= backoff_at b i)%Q.
Proof.
  induction i as [|i IH]; intros b (Hb & HM & Hm & Hfit); cbn [backoff_at];
    [assumption|].
  apply IH. repeat split; try assumption.
  apply py_min_bounds; [nra | assumption].
Qed.

Lemma delay_accepted (b : Q) (k : nat) :
  sane_delays b -> jitter_bounded ->
  sleep_error
    (py_min b (kvs_hls.max_reconnect_delay cfg) * kvs_hls.uniform env k)
  = None.
Proof.
  intros (Hb & HM & _ & Hfit) Hj. destruct (Hj k) as [Hlo Hhi].
  destruct (py_min_bounds _ _ Hb HM) as [Hmin0 HminM].
  set (d := py_min b (kvs_hls.max_reconnect_delay cfg)) in *.
  set (j := kvs_hls.uniform env k) in *.
  apply sleep_error_none; nra.
Qed.

Lemma storm_delay_accepted (b : Q) (r i : nat) :
  sane_delays b -> jitter_bounded -> sleep_error (storm_delay b r i) = None.
Proof.
  intros Hsane Hj. pose proof (backoff_at_nonneg i b Hsane) as Hb.
  destruct Hsane as (_ & HM & _ & Hfit).
  destruct (Hj (r + i)%nat) as [Hlo Hhi].
  destruct (py_min_bounds _ _ Hb HM) as [Hmin0 HminM].
  unfold storm_delay.
  set (d := py_min (backoff_at b i) (kvs_hls.max_reconnect_delay cfg)) in *.
  set (j := kvs_hls.uniform env (r + i)) in *.
  apply sleep_error_none; nra.
Qed.

End Storm.

(** Nothing is latched: a successful [_open_stream] zeroes the
    consecutive-error counter and restores the initial backoff, whatever
    they were before. *)
Lemma open_stream_success_resets env cfg st io st' io' :
  kvs_hls._open_stream env cfg st io = (Ok true, st', io') ->
  kvs_hls._consecutive_errors st' = 0%Z
  /\ kvs_hls._current_backoff st' = kvs_hls.reconnect_delay cfg
  /\ kvs_hls._connection_state st' = kvs_hls.CONNECTED.
Proof.
  unfold kvs_hls._open_stream, kvs_hls.try_except, kvs_hls.bind,
    kvs_hls.modify, kvs_hls.get, kvs_hls.ret, kvs_hls._should_refresh_url,
    kvs_hls.time_time, kvs_hls._get_hls_url, kvs_hls.open_capture,
    kvs_hls._reset_backoff, kvs_hls.bind, kvs_hls.modify, kvs_hls.get,
    kvs_hls.ret.
  cbn. intros E.
  repeat match type of E with
         | context [match ?x with _ => _ end] =>
           lazymatch x with
           | context [match _ with _ => _ end] => fail
           | _ => destruct x; cbn in E
           end
         end;
    try discriminate; injection E as <- _; cbn; auto.
Qed.

(** C3 (as amended). In a run of [read_frame] calls during which no stream
    is open and the decoder cannot open one, the call that brings the
    consecutive-error counter to [max_consecutive_errors] raises
    [FrameSourceError], and every later call raises [FrameSourceError]
    again. A call before it sleeps for its backoff delay and returns [None]
    when [time.sleep] accepts that delay, and raises the exception of
    [time.sleep] otherwise; the delays are accepted, so these calls return
    [None], when backoff, delay cap and multiplier are not negative, the cap
    times 1.2 fits the clock and the jitter is drawn from [0.8, 1.2]. From a
    fresh source so configured: calls [1 .. max - 1] return [None], call
    [max] and all calls after it raise. *)
Theorem storm_is_fatal_at_cap :
  forall (env : kvs_hls.Env) (cfg : kvs_hls.Config) (st : kvs_hls.State)
         (io : kvs_hls.Io) (n i : nat),
    never_opens env ->
    disconnected st ->
    (i < n)%nat ->
    nth_error (fst (fst (kvs_hls.read_frame_calls env cfg n st io))) i
    = Some (if (kvs_hls.max_consecutive_errors cfg
                <=? kvs_hls._consecutive_errors st + 1 + Z.of_nat i)%Z
            then Raise FrameSourceError
            else after_sleep
                   (storm_delay env cfg (kvs_hls._current_backoff st)
                      (kvs_hls.n_rand io) i)
                   None)
    /\ (sane_delays cfg (kvs_hls._current_backoff st) ->
        jitter_bounded env ->
        nth_error (fst (fst (kvs_hls.read_frame_calls env cfg n st io))) i
        = Some (if (kvs_hls.max_consecutive_errors cfg
                    <=? kvs_hls._consecutive_errors st + 1 + Z.of_nat i)%Z
                then Raise FrameSourceError else Ok None)).
Proof.
  intros env cfg st io n i Hno Hdisc Hi.
  rewrite (proj1 (read_frame_calls_storm env cfg n st io Hno Hdisc)).
  rewrite storm_results_nth by assumption.
  split; [reflexivity|]. intros Hsane Hj. unfold after_sleep.
  now rewrite storm_delay_accepted.
Qed.

(** C4 (as amended). In such a run, with a multiplier of at least one, a
    non-negative delay cap and jitter drawn from [0.8, 1.2], the sleep
    before the [(i+1)]-th reconnection attempt is
    [min(backoff * multiplier^i, max_reconnect_delay)] times a jitter factor
    in [0.8, 1.2], where [backoff] is [reconnect_delay] on a fresh or just
    reset source; there are at most [max_consecutive_errors - 1] sleeps,
    because the call that reaches the cap raises without sleeping. *)
Theorem backoff_delays_in_storm :
  forall (env : kvs_hls.Env) (cfg : kvs_hls.Config) (st : kvs_hls.State)
         (io : kvs_hls.Io) (n : nat),
    never_opens env ->
    disconnected st ->
    (1 <= kvs_hls.backoff_multiplier cfg)%Q ->
    (0 <= kvs_hls.max_reconnect_delay cfg)%Q ->
    (forall k, (8 # 10 <= kvs_hls.uniform env k)%Q
               /\ (kvs_hls.uniform env k <= 12 # 10)%Q) ->
    exists new,
      kvs_hls.sleeps (snd (kvs_hls.read_frame_calls env cfg n st io))
      = kvs_hls.sleeps io ++ new
      /\ length new
         = Nat.min n
             (Z.to_nat (kvs_hls.max_consecutive_errors cfg - 1
                        - kvs_hls._consecutive_errors st))
      /\ forall (i : nat) (s : Q),
           nth_error new i = Some s ->
           exists jitter,
             (8 # 10 <= jitter)%Q /\ (jitter <= 12 # 10)%Q
             /\ (s == py_min (kvs_hls._current_backoff st
                              * kvs_hls.backoff_multiplier cfg ^ Z.of_nat i)
                        (kvs_hls.max_reconnect_delay cfg)
                      * jitter)%Q.
Proof.
  intros env cfg st io n Hno Hdisc Hm HM Hj.
  eexists. split; [exact (proj2 (read_frame_calls_storm env cfg n st io
                                   Hno Hdisc))|].
  split; [apply storm_sleeps_length|].
  intros i s Hs. apply storm_sleeps_nth in Hs. subst s.
  exists (kvs_hls.uniform env (kvs_hls.n_rand io + i)).
  destruct (Hj (kvs_hls.n_rand io + i)%nat) as [Hlo Hhi].
  split; [assumption|]. split; [assumption|].
  now rewrite (backoff_closed_form cfg i (kvs_hls._current_backoff st)).
Qed.

(** S3: [max_consecutive_errors = 3], base 1 s, cap 10 s, multiplier 2. *)
Definition s3_cfg : kvs_hls.Config := kvs_hls.MkConfig 300 30 1 10 2 3.

(** The control plane answers, the decoder never opens; jitter is 1. *)
Definition dead_env : kvs_hls.Env :=
  kvs_hls.MkEnv (fun _ => 0%Q) (fun _ => Some "https://hls"%string)
    (fun _ => kvs_hls.NotOpened) (fun _ _ => false)
    (fun _ _ => kvs_hls.ReadNoFrame) (fun _ => 1%Q).

(** The decoder fails to open five times, then opens and delivers frame 7. *)
Definition recovering_env : kvs_hls.Env :=
  kvs_hls.MkEnv (fun _ => 0%Q) (fun _ => Some "https://hls"%string)
    (fun n => if (n <? 5)%nat then kvs_hls.NotOpened else kvs_hls.Opened)
    (fun _ _ => true) (fun _ _ => kvs_hls.ReadFrame 7) (fun _ => 1%Q).

(** The decoder always opens, and every [read()] comes back empty. *)
Definition flaky_env : kvs_hls.Env :=
  kvs_hls.MkEnv (fun _ => 0%Q) (fun _ => Some "https://hls"%string)
    (fun _ => kvs_hls.Opened) (fun _ _ => true)
    (fun _ _ => kvs_hls.ReadNoFrame) (fun _ => 1%Q).

Lemma dead_env_never_opens : never_opens dead_env.
Proof. intros n. discriminate. Qed.

Lemma init_disconnected cfg : disconnected (kvs_hls.init cfg).
Proof. split; discriminate. Qed.

Lemma s3_cfg_sane :
  sane_delays s3_cfg (kvs_hls._current_backoff (kvs_hls.init s3_cfg)).
Proof. repeat split; vm_compute; discriminate. Qed.

Lemma dead_env_jitter : jitter_bounded dead_env.
Proof. intros k. split; vm_compute; discriminate. Qed.

Lemma storm_is_fatal_at_cap_witness :
  map (fun i =>
         nth_error
           (fst (fst (kvs_hls.read_frame_calls dead_env s3_cfg 5
                        (kvs_hls.init s3_cfg) kvs_hls.io0))) i)
      [0; 1; 2; 3; 4]%nat
  = [Some (Ok None); Some (Ok None); Some (Raise FrameSourceError);
     Some (Raise FrameSourceError); Some (Raise FrameSourceError)].
Proof.
  cbn [map].
  rewrite !(fun i H =>
              proj2 (storm_is_fatal_at_cap dead_env s3_cfg
                       (kvs_hls.init s3_cfg) kvs_hls.io0 5 i
                       dead_env_never_opens (init_disconnected s3_cfg) H)
                s3_cfg_sane dead_env_jitter) by lia.
  reflexivity.
Defined.

(** Counterexample to C3 as stated. (1) The fatal condition is not latched:
    after the third failed call raised [FrameSourceError], the fourth call
    returns a frame. (2) Successive read failures do not add up when each
    reconnect reopens the stream: four failed reads in a row with
    [max_consecutive_errors = 3], no fatal error, counter back at zero. *)
Lemma fatal_is_not_latched :
  fst (fst (kvs_hls.read_frame_calls recovering_env s3_cfg 4
              (kvs_hls.init s3_cfg) kvs_hls.io0))
  = [Ok None; Ok None; Raise FrameSourceError; Ok (Some (7%nat, 0%Q))]
  /\ (let '(results, st, _) :=
        kvs_hls.read_frame_calls flaky_env s3_cfg 4 (kvs_hls.init s3_cfg)
          kvs_hls.io0 in
      results = [Ok None; Ok None; Ok None; Ok None]
      /\ kvs_hls.read_errors_total (kvs_hls.metrics st) = 4%Z
      /\ kvs_hls._consecutive_errors st = 0%Z).
Proof. split; vm_compute; repeat split; reflexivity. Qed.

Lemma backoff_delays_in_storm_witness :
  exists new,
    kvs_hls.sleeps
      (snd (kvs_hls.read_frame_calls dead_env s3_cfg 3 (kvs_hls.init s3_cfg)
              kvs_hls.io0))
    = [] ++ new
    /\ length new = 2%nat
    /\ forall (i : nat) (s : Q),
         nth_error new i = Some s ->
         exists jitter,
           (8 # 10 <= jitter)%Q /\ (jitter <= 12 # 10)%Q
           /\ (s == py_min (1 * 2 ^ Z.of_nat i) 10 * jitter)%Q.
Proof.
  apply (backoff_delays_in_storm dead_env s3_cfg (kvs_hls.init s3_cfg)
           kvs_hls.io0 3).
  - intros n. discriminate.
  - split; discriminate.
  - vm_compute. discriminate.
  - vm_compute. discriminate.
  - intros k. split; vm_compute; discriminate.
Defined.

(** Counterexample to C4 as stated, in the S3 configuration with jitter 1:
    the first sleep is [1 s], which is not [min(1 * 2^1, 10)] times a factor
    in [0.8, 1.2]; the sleeps are [1 s] and [2 s], and the third failure
    raises [FrameSourceError] with no third sleep. *)
Lemma third_failure_raises_without_sleeping :
  fst (fst (kvs_hls.read_frame_calls dead_env s3_cfg 3 (kvs_hls.init s3_cfg)
              kvs_hls.io0))
  = [Ok None; Ok None; Raise FrameSourceError]
  /\ map Qred
       (kvs_hls.sleeps
          (snd (kvs_hls.read_frame_calls dead_env s3_cfg 3
                  (kvs_hls.init s3_cfg) kvs_hls.io0)))
     = [1%Q; 2%Q]
  /\ ~ (exists jitter,
          (8 # 10 <= jitter)%Q /\ (jitter <= 12 # 10)%Q
          /\ (nth 0
                (kvs_hls.sleeps
                   (snd (kvs_hls.read_frame_calls dead_env s3_cfg 3
                           (kvs_hls.init s3_cfg) kvs_hls.io0))) 0
              == py_min (1 * 2 ^ 1) 10 * jitter)%Q).
Proof.
  split; [vm_compute; reflexivity|]. split; [vm_compute; reflexivity|].
  intros (jitter & Hlo & Hhi & E).
  assert (H1 : (nth 0
                  (kvs_hls.sleeps
                     (snd (kvs_hls.read_frame_calls dead_env s3_cfg 3
                             (kvs_hls.init s3_cfg) kvs_hls.io0))) 0 == 1)%Q)
    by (vm_compute; reflexivity).
  assert (H2 : (py_min (1 * 2 ^ 1) 10 == 2)%Q) by (vm_compute; reflexivity).
  rewrite H1, H2 in E. lra.
Qed.

(** ** Spatial deduplication in [WeaponDetector.process] *)

Lemma is_duplicate_held (recent : list (Z * string)) det_hash frame_count
  (dedup_window : nat) frame_num :
  In (frame_num, det_hash) recent ->
  (frame_count - frame_num < Z.of_nat dedup_window)%Z ->
  weapon.is_duplicate recent det_hash frame_count dedup_window = true.
Proof.
  induction recent as [|[fn h] recent IH]; intros Hin Hwin; [easy|].
  simpl. destruct Hin as [[= -> ->]|Hin].
  - rewrite String.eqb_refl. apply Z.ltb_lt in Hwin. now rewrite Hwin.
  - rewrite IH by assumption.
    destruct (String.eqb h det_hash); [|reflexivity].
    now destruct (frame_count - fn <? Z.of_nat dedup_window)%Z.
Qed.

Lemma is_duplicate_sound (recent : list (Z * string)) det_hash frame_count
  (dedup_window : nat) :
  weapon.is_duplicate recent det_hash frame_count dedup_window = true ->
  exists frame_num,
    In (frame_num, det_hash) recent
    /\ (frame_count - frame_num < Z.of_nat dedup_window)%Z.
Proof.
  induction recent as [|[fn h] recent IH]; simpl; [discriminate|].
  destruct (String.eqb h det_hash) eqn:Hh.
  - apply String.eqb_eq in Hh. subst h.
    destruct (frame_count - fn <? Z.of_nat dedup_window)%Z eqn:Hw.
    + intros _. exists fn. split; [now left | now apply Z.ltb_lt].
    + intros Hd. destruct (IH Hd) as (f & Hin & Hlt). exists f. auto.
  - intros Hd. destruct (IH Hd) as (f & Hin & Hlt). exists f. auto.
Qed.

(** A bounded deque keeps an entry while fewer than [maxlen] newer entries
    have been appended after it. *)
Lemma deque_append_in_new {A} (maxlen : nat) (d : list A) (x : A) :
  (1 <= maxlen)%nat -> In x (deque_append maxlen d x).
Proof.
  intros Hm. unfold deque_append.
  destruct (maxlen <? length (d ++ [x]))%nat eqn:Hfull.
  - destruct d as [|a d]; simpl in *.
    + apply Nat.ltb_lt in Hfull. lia.
    + apply in_or_app. right. now left.
  - apply in_or_app. right. now left.
Qed.

Ltac list_len :=
  repeat (rewrite ?length_app in *; cbn [length] in *); lia.

Lemma deque_retains {A} (maxlen : nat) (more : list A) :
  forall (d : list A) (x : A),
    (length d <= maxlen)%nat ->
    (length more < maxlen)%nat ->
    In x (fold_left (deque_append maxlen) more (deque_append maxlen d x)).
Proof.
  intros d x Hd Hmore.
  assert (Hgen : forall (more : list A) (ring pre post : list A),
             ring = pre ++ x :: post ->
             (length ring <= maxlen)%nat ->
             (length post + length more < maxlen)%nat ->
             In x (fold_left (deque_append maxlen) more ring)).
  { clear. induction more as [|y more IH]; intros ring pre post -> Hlen Hroom.
    - simpl. apply in_or_app. right. now left.
    - cbn [fold_left]. unfold deque_append at 2.
      destruct (maxlen <? length ((pre ++ x :: post) ++ [y]))%nat eqn:Hfull.
      + destruct pre as [|p pre].
        * apply Nat.ltb_lt in Hfull. list_len.
        * apply (IH _ pre (post ++ [y])).
          -- simpl. now rewrite <- List.app_assoc.
          -- cbn [tl app]. list_len.
          -- list_len.
      + apply (IH _ pre (post ++ [y])).
        * now rewrite <- List.app_assoc.
        * now apply Nat.ltb_ge in Hfull.
        * list_len. }
  unfold deque_append at 2.
  destruct (maxlen <? length (d ++ [x]))%nat eqn:Hfull.
  - destruct d as [|a d].
    + apply Nat.ltb_lt in Hfull. list_len.
    + apply (Hgen more _ d []); [reflexivity | cbn [tl app] | ]; list_len.
  - apply (Hgen more _ d []); [reflexivity | | list_len].
    now apply Nat.ltb_ge in Hfull.
Qed.

Section Dedup.
Context `{Hashlib}.

(** Same label and same grid cell give the same dedup hash. *)
Lemma detection_hash_same_cell label box1 box2 grid_size :
  weapon._bbox_to_grid box1 grid_size = weapon._bbox_to_grid box2 grid_size ->
  weapon._detection_hash label box1 grid_size
  = weapon._detection_hash label box2 grid_size.
Proof. unfold weapon._detection_hash. now intros ->. Qed.

(** C6 (as amended). A candidate that passes temporal confirmation, whose
    label and grid cell equal those of an earlier detection that was
    emitted at frame [frame_num], is still held in the dedup ring, and lies
    fewer than [dedup_window] frames back, is discarded: no event, ring
    unchanged. A confirmed candidate that is not a duplicate is emitted and
    is the only thing appended to the ring. An emitted detection stays in
    the ring while fewer than [dedup_window] later detections have been
    emitted. *)
Theorem duplicate_within_window_is_discarded :
  (forall (self self1 : weapon.WeaponDetector) ctx ts_ms now label conf
          box box1 frame_num det_hash rest events,
      weapon.confirm_step self ctx label conf box now = (Ok true, self1) ->
      weapon._detection_hash label box1 (weapon.dedup_grid_size self1)
      = Ok det_hash ->
      weapon._bbox_to_grid box (weapon.dedup_grid_size self1)
      = weapon._bbox_to_grid box1 (weapon.dedup_grid_size self1) ->
      In (frame_num, det_hash) (weapon._recent_detections self1) ->
      (weapon._frame_count self1 - frame_num
       < Z.of_nat (weapon.dedup_window self1))%Z ->
      weapon.process_loop self ctx ts_ms now ((label, conf, box) :: rest)
        events
      = weapon.process_loop self1 ctx ts_ms now rest events)
  /\ (forall (self self1 : weapon.WeaponDetector) ctx ts_ms now label conf
             box det_hash rest events,
         weapon.confirm_step self ctx label conf box now = (Ok true, self1) ->
         weapon._detection_hash label box (weapon.dedup_grid_size self1)
         = Ok det_hash ->
         weapon.is_duplicate (weapon._recent_detections self1) det_hash
           (weapon._frame_count self1) (weapon.dedup_window self1) = false ->
         weapon.process_loop self ctx ts_ms now ((label, conf, box) :: rest)
           events
         = weapon.process_loop
             (weapon.set_recent_detections self1
                (deque_append (weapon.dedup_window self1)
                   (weapon._recent_detections self1)
                   (weapon._frame_count self1, det_hash)))
             ctx ts_ms now rest
             (events
              ++ [base.MkEvent (base.camera_id ctx) "weapon" label conf box
                    ts_ms
                    [("frame_count", PyInt (weapon._frame_count self1));
                     ("det_hash", PyStr det_hash)]]))
  /\ (forall (dedup_window : nat) (ring more : list (Z * string)) emitted,
         (length ring <= dedup_window)%nat ->
         (length more < dedup_window)%nat ->
         In emitted
           (fold_left (deque_append dedup_window) more
              (deque_append dedup_window ring emitted))).
Proof.
  split; [|split].
  - intros self self1 ctx ts now label conf box box1 fn h rest events
      Hconf Hhash Hcell Hin Hwin.
    cbn [weapon.process_loop]. rewrite Hconf.
    rewrite (detection_hash_same_cell label box box1 _ Hcell), Hhash.
    now rewrite (is_duplicate_held _ _ _ _ fn Hin Hwin).
  - intros self self1 ctx ts now label conf box h rest events
      Hconf Hhash Hdup.
    cbn [weapon.process_loop]. now rewrite Hconf, Hhash, Hdup.
  - intros D ring more x Hring Hmore. now apply deque_retains.
Qed.

End Dedup.

(** A stand-in for the mask computation (only used in ROI mode [Overlap]):
    every polygon covers the whole box. *)
Definition plain_cv2 : Cv2 :=
  {| count_intersection :=
       fun x1 y1 x2 y2 _ => Ok ((x2 - x1) * (y2 - y1))%Z |}.

(** A configured detector using the [TemporalBuffer] path. *)
Definition weapon_detector (temporal_window : nat) (temporal_min_conf : Z)
  (dedup_window : nat) : weapon.WeaponDetector :=
  weapon.MkWeaponDetector ["gun"; "knife"] roi.Center (1 # 2) None true
    (Some (roi.TemporalBuffer_init temporal_window)) temporal_min_conf
    (3 # 10) dedup_window 20 [] 0 true.

Definition plain_ctx : base.DetectionContext :=
  base.MkContext "cam-a" 640 480 None None.

(** Successive frames through [process]: for each frame the boxes of the
    events it returned ([None] if it raised). *)
Fixpoint process_frames (self : weapon.WeaponDetector)
  (frames : list (list detection)) : list (option (list bbox)) :=
  match frames with
  | [] => []
  | yolo :: rest =>
    let '(r, self') :=
      @weapon.process plain_hashlib plain_cv2 self yolo 1000 plain_ctx 0 in
    match r with
    | Ok events => Some (map base.ev_bbox events)
    | Raise _ => None
    end :: process_frames self' rest
  end.

Definition gun_at (x : Q) : detection :=
  ("gun"%string, 9 # 10, BBox x 100 (x + 20) 120).

(** S4: the same detection on five frames, three confirmations, dedup
    window 30: one event, on frame 3. *)
Lemma one_event_for_five_frames :
  process_frames (weapon_detector 5 3 30)
    [[gun_at 100]; [gun_at 100]; [gun_at 100]; [gun_at 100]; [gun_at 100]]
  = [Some []; Some []; Some [BBox 100 100 120 120]; Some []; Some []].
Proof. vm_compute. reflexivity. Qed.

(** Counterexample to C6 as stated (every candidate confirmed at once,
    [temporal_min_conf = 1]). (1) Dedup window 3, the same detection on
    frames 1, 3 and 5: frame 3 is dropped as a duplicate of frame 1 and is
    not put in the ring, so frame 5, two frames after it, is emitted.
    (2) Dedup window 2, three detections in different cells on frame 1
    and the first of them again on frame 2: the ring of two entries has
    already evicted it, so both are emitted one frame apart. *)
Lemma second_candidate_is_emitted :
  process_frames (weapon_detector 5 1 3)
    [[gun_at 100]; []; [gun_at 100]; []; [gun_at 100]]
  = [Some [BBox 100 100 120 120]; Some []; Some []; Some [];
     Some [BBox 100 100 120 120]]
  /\ process_frames (weapon_detector 5 1 2)
       [[gun_at 100; gun_at 200; gun_at 300]; [gun_at 100]]
     = [Some [BBox 100 100 120 120; BBox 200 100 220 120;
              BBox 300 100 320 120];
        Some [BBox 100 100 120 120]].
Proof. split; vm_compute; reflexivity. Qed.

(** The detector after one emitted detection, at the start of frame 2. *)
Definition second_frame_state : weapon.WeaponDetector :=
  weapon.set_frame_count
    (snd (@weapon.process plain_hashlib plain_cv2 (weapon_detector 5 1 30)
            [gun_at 100] 1000 plain_ctx 0))
    2.

(** A detection five pixels to the right falls in the same grid cell and is
    discarded on the next frame. *)
Lemma duplicate_within_window_is_discarded_witness :
  weapon._recent_detections second_frame_state = [(1%Z, "gun:5_5"%string)]
  /\ fst (@weapon.process_loop plain_hashlib second_frame_state plain_ctx 2000
            0 [gun_at 105] [])
     = Ok [].
Proof.
  split; [vm_compute; reflexivity|].
  destruct (@duplicate_within_window_is_discarded plain_hashlib)
    as (Hdup & _ & _).
  refine (eq_trans
            (f_equal fst
               (Hdup second_frame_state _ plain_ctx 2000%Z 0%Q "gun"%string
                  (9 # 10)%Q (BBox 105 100 (105 + 20) 120)
                  (BBox 100 100 (100 + 20) 120) 1%Z "gun:5_5"%string [] []
                  _ _ _ _ _))
            _).
  - vm_compute. reflexivity.
  - vm_compute. reflexivity.
  - vm_compute. reflexivity.
  - vm_compute. left. reflexivity.
  - vm_compute. reflexivity.
  - reflexivity.
Defined.

(** * Further properties of the modelled code *)

(** ** [iou] *)

(** A box with positive width and height. *)
Definition well_formed (b : bbox) : Prop :=
  (bx1 b < bx2 b)%Q /\ (by1 b < by2 b)%Q.

Lemma py_min_comm (a b : Q) : (py_min a b == py_min b a)%Q.
Proof.
  destruct (py_min_cases a b) as [[? ->]|[? ->]];
    destruct (py_min_cases b a) as [[? ->]|[? ->]]; lra.
Qed.

Lemma py_max_comm (a b : Q) : (py_max a b == py_max b a)%Q.
Proof.
  destruct (py_max_cases a b) as [[? ->]|[? ->]];
    destruct (py_max_cases b a) as [[? ->]|[? ->]]; lra.
Qed.

(** The body of [iou] after the intersection rectangle has been computed. *)
Definition iou_of_rectangle (x1_i y1_i x2_i y2_i area1 area2 : Q) : Q :=
  if Qle_bool x2_i x1_i || Qle_bool y2_i y1_i then 0%Q
  else
    let intersection_area := ((x2_i - x1_i) * (y2_i - y1_i))%Q in
    let union_area := (area1 + area2 - intersection_area)%Q in
    if Qle_bool union_area 0 then 0%Q
    else (intersection_area / union_area)%Q.

Lemma iou_unfold (a b : bbox) :
  roi.iou a b
  = iou_of_rectangle (py_max (bx1 a) (bx1 b)) (py_max (by1 a) (by1 b))
      (py_min (bx2 a) (bx2 b)) (py_min (by2 a) (by2 b))
      ((bx2 a - bx1 a) * (by2 a - by1 a)) ((bx2 b - bx1 b) * (by2 b - by1 b)).
Proof. reflexivity. Qed.

Lemma iou_of_rectangle_compat x1 y1 x2 y2 a1 a2 x1' y1' x2' y2' a1' a2' :
  (x1 == x1')%Q -> (y1 == y1')%Q -> (x2 == x2')%Q -> (y2 == y2')%Q ->
  (a1 + a2 == a1' + a2')%Q ->
  (iou_of_rectangle x1 y1 x2 y2 a1 a2
   == iou_of_rectangle x1' y1' x2' y2' a1' a2')%Q.
Proof.
  intros Hx1 Hy1 Hx2 Hy2 Ha. unfold iou_of_rectangle.
  rewrite (Qleb_comp x2 x2' Hx2 x1 x1' Hx1), (Qleb_comp y2 y2' Hy2 y1 y1' Hy1).
  destruct (Qle_bool x2' x1' || Qle_bool y2' y1'); [reflexivity|].
  assert (Hi : ((x2 - x1) * (y2 - y1) == (x2' - x1') * (y2' - y1'))%Q)
    by (rewrite Hx1, Hy1, Hx2, Hy2; reflexivity).
  assert (Hu : (a1 + a2 - (x2 - x1) * (y2 - y1)
                == a1' + a2' - (x2' - x1') * (y2' - y1'))%Q)
    by (rewrite Hi, Ha; reflexivity).
  cbv zeta. rewrite (Qleb_comp _ _ Hu 0%Q 0%Q (Qeq_refl 0)).
  destruct (Qle_bool (a1' + a2' - (x2' - x1') * (y2' - y1')) 0);
    [reflexivity|].
  now apply Qdiv_comp.
Qed.

(** X1. [iou] is symmetric (up to equality of rationals). *)
Theorem iou_symmetric :
  forall a b : bbox, (roi.iou a b == roi.iou b a)%Q.
Proof.
  intros a b. rewrite !iou_unfold.
  apply iou_of_rectangle_compat;
    try apply py_max_comm; try apply py_min_comm. ring.
Qed.

(** X2. A well-formed box overlaps itself completely: [iou(B, B) = 1]. *)
Theorem iou_self :
  forall b : bbox, well_formed b -> (roi.iou b b == 1)%Q.
Proof.
  intros b [Hx Hy]. rewrite iou_unfold, !py_max_same, !py_min_same.
  unfold iou_of_rectangle.
  assert (Hx' : Qle_bool (bx2 b) (bx1 b) = false).
  { destruct (Qle_bool (bx2 b) (bx1 b)) eqn:E; [|reflexivity].
    apply Qle_bool_iff in E. lra. }
  assert (Hy' : Qle_bool (by2 b) (by1 b) = false).
  { destruct (Qle_bool (by2 b) (by1 b)) eqn:E; [|reflexivity].
    apply Qle_bool_iff in E. lra. }
  rewrite Hx', Hy'. cbn [orb]. cbv zeta.
  set (w := (bx2 b - bx1 b)%Q). set (h := (by2 b - by1 b)%Q).
  assert (Hpos : (0 < w * h)%Q) by (subst w h; nra).
  destruct (Qle_bool (w * h + w * h - w * h) 0) eqn:E.
  - apply Qle_bool_iff in E. lra.
  - field. lra.
Qed.

Lemma iou_self_witness : (roi.iou gun_box gun_box == 1)%Q.
Proof. apply iou_self. split; vm_compute; reflexivity. Defined.

(** X3. For well-formed boxes [iou] lies in [[0, 1]]. *)
Theorem iou_range :
  forall a b : bbox,
    well_formed a -> well_formed b ->
    (0 <= roi.iou a b)%Q /\ (roi.iou a b <= 1)%Q.
Proof.
  intros a b [Hax Hay] [Hbx Hby]. rewrite iou_unfold. unfold iou_of_rectangle.
  destruct (Qle_bool (py_min (bx2 a) (bx2 b)) (py_max (bx1 a) (bx1 b))) eqn:Ex;
    [cbn; lra|].
  destruct (Qle_bool (py_min (by2 a) (by2 b)) (py_max (by1 a) (by1 b))) eqn:Ey;
    [cbn; lra|].
  cbn [orb]. cbv zeta.
  assert (Hx : (py_max (bx1 a) (bx1 b) < py_min (bx2 a) (bx2 b))%Q).
  { apply Qnot_le_lt. intros H. apply Qle_bool_iff in H. congruence. }
  assert (Hy : (py_max (by1 a) (by1 b) < py_min (by2 a) (by2 b))%Q).
  { apply Qnot_le_lt. intros H. apply Qle_bool_iff in H. congruence. }
  set (w := (py_min (bx2 a) (bx2 b) - py_max (bx1 a) (bx1 b))%Q) in *.
  set (h := (py_min (by2 a) (by2 b) - py_max (by1 a) (by1 b))%Q) in *.
  assert (Hw : (0 < w)%Q /\ (w <= bx2 a - bx1 a)%Q /\ (w <= bx2 b - bx1 b)%Q).
  { subst w.
    destruct (py_min_cases (bx2 a) (bx2 b)) as [[? Hm]|[? Hm]];
      destruct (py_max_cases (bx1 a) (bx1 b)) as [[? HM]|[? HM]];
      rewrite Hm, HM in *; repeat split; lra. }
  assert (Hh : (0 < h)%Q /\ (h <= by2 a - by1 a)%Q /\ (h <= by2 b - by1 b)%Q).
  { subst h.
    destruct (py_min_cases (by2 a) (by2 b)) as [[? Hm]|[? Hm]];
      destruct (py_max_cases (by1 a) (by1 b)) as [[? HM]|[? HM]];
      rewrite Hm, HM in *; repeat split; lra. }
  destruct Hw as (Hw0 & Hwa & Hwb), Hh as (Hh0 & Hha & Hhb).
  set (wa := (bx2 a - bx1 a)%Q) in *. set (ha := (by2 a - by1 a)%Q) in *.
  set (wb := (bx2 b - bx1 b)%Q) in *. set (hb := (by2 b - by1 b)%Q) in *.
  assert (Hi : (0 < w * h)%Q) by nra.
  assert (Hia : (w * h <= wa * ha)%Q) by nra.
  assert (Hib : (w * h <= wb * hb)%Q) by nra.
  destruct (Qle_bool (wa * ha + wb * hb - w * h) 0) eqn:Eu; [lra|].
  assert (Hu : (0 < wa * ha + wb * hb - w * h)%Q) by lra.
  split.
  - apply Qle_shift_div_l; [exact Hu | lra].
  - apply Qle_shift_div_r; [exact Hu | lra].
Qed.

Lemma iou_range_witness :
  (0 <= roi.iou gun_box (BBox 150 150 250 250))%Q
  /\ (roi.iou gun_box (BBox 150 150 250 250) <= 1)%Q.
Proof.
  apply iou_range; split; vm_compute; reflexivity.
Defined.

(** X4. Boxes whose x ranges or y ranges do not overlap (touching edges
    included) have [iou] exactly [0]. *)
Theorem iou_disjoint :
  forall a b : bbox,
    (bx2 a <= bx1 b)%Q \/ (bx2 b <= bx1 a)%Q
    \/ (by2 a <= by1 b)%Q \/ (by2 b <= by1 a)%Q ->
    roi.iou a b = 0%Q.
Proof.
  intros a b H. rewrite iou_unfold. unfold iou_of_rectangle.
  assert (E : Qle_bool (py_min (bx2 a) (bx2 b)) (py_max (bx1 a) (bx1 b))
              || Qle_bool (py_min (by2 a) (by2 b)) (py_max (by1 a) (by1 b))
              = true).
  { apply orb_true_iff. rewrite !Qle_bool_iff.
    destruct (py_min_cases (bx2 a) (bx2 b)) as [[? Hm]|[? Hm]];
      destruct (py_max_cases (bx1 a) (bx1 b)) as [[? HM]|[? HM]];
      destruct (py_min_cases (by2 a) (by2 b)) as [[? Hm']|[? Hm']];
      destruct (py_max_cases (by1 a) (by1 b)) as [[? HM']|[? HM']];
      rewrite Hm, HM, Hm', HM';
      destruct H as [H|[H|[H|H]]]; lra. }
  now rewrite E.
Qed.

Lemma iou_disjoint_witness : roi.iou gun_box (BBox 200 0 300 100) = 0%Q.
Proof. apply iou_disjoint. left. vm_compute. discriminate. Defined.

(** ** [point_in_polygon] and ROI filtering *)

Lemma ray_loop_total pt (poly : polygon) (idxs : list nat) :
  poly <> [] ->
  forall st, exists st', ray_loop pt poly (length poly) idxs st = Ok st'.
Proof.
  intros Hne. induction idxs as [|i idxs IH]; intros st; simpl; [eauto|].
  assert (Hlt : (i mod length poly < length poly)%nat).
  { apply Nat.mod_upper_bound. destruct poly; [congruence | discriminate]. }
  destruct (nth_error poly (i mod length poly)) as [p2|] eqn:Hnth.
  - destruct (ray_edge_toggles pt p2 st) as [xi E]. rewrite E. simpl.
    apply IH.
  - apply nth_error_None in Hnth. lia.
Qed.

Lemma base_point_in_polygon_total pt (poly : polygon) :
  poly <> [] -> exists b, base.point_in_polygon pt poly = Ok b.
Proof.
  intros Hne. unfold base.point_in_polygon.
  destruct poly as [|p0 poly']; [congruence|]. cbn [nth_error].
  destruct (ray_loop_total pt (p0 :: poly') (seq 1 (length (p0 :: poly')))
              ltac:(discriminate) (RayState false p0 None)) as [st' Hst].
  rewrite Hst. simpl. eauto.
Qed.

Lemma roi_point_in_polygon_total pt (poly : polygon) :
  exists b, roi.point_in_polygon pt poly = Ok b.
Proof.
  unfold roi.point_in_polygon. destruct (length poly <? 3)%nat eqn:E; [eauto|].
  destruct poly as [|p0 poly']; [discriminate|].
  apply (base_point_in_polygon_total pt (p0 :: poly')). discriminate.
Qed.

(** X5. [point_in_polygon] never fails on a polygon with at least one
    vertex: every index [i % n] is in range and [xinters] is always bound
    when it is read, in both copies; the copy in [utils/roi.py] never fails
    at all. *)
Theorem point_in_polygon_returns :
  forall (pt : point) (poly : polygon),
    (exists b, roi.point_in_polygon pt poly = Ok b)
    /\ (poly <> [] -> exists b, base.point_in_polygon pt poly = Ok b).
Proof.
  intros pt poly. split.
  - apply roi_point_in_polygon_total.
  - apply base_point_in_polygon_total.
Qed.

Lemma point_in_polygon_returns_witness :
  exists b,
    base.point_in_polygon (50, 50)%Q [(0, 0); (100, 0); (100, 100); (0, 100)]%Q
    = Ok b.
Proof.
  apply (proj2 (point_in_polygon_returns (50, 50)%Q
                  [(0, 0); (100, 0); (100, 100); (0, 100)]%Q)).
  discriminate.
Defined.

Lemma py_any_total {A} (f : A -> result bool) (l : list A) :
  (forall a, In a l -> exists b, f a = Ok b) -> exists b, py_any f l = Ok b.
Proof.
  induction l as [|a l IH]; intros Hf; simpl; [eauto|].
  destruct (Hf a (or_introl eq_refl)) as [b ->]. simpl.
  destruct b; [eauto|]. apply IH. intros a' Ha'. apply Hf. now right.
Qed.

Lemma py_all_total {A} (f : A -> result bool) (l : list A) :
  (forall a, In a l -> exists b, f a = Ok b) -> exists b, py_all f l = Ok b.
Proof.
  induction l as [|a l IH]; intros Hf; simpl; [eauto|].
  destruct (Hf a (or_introl eq_refl)) as [b ->]. simpl.
  destruct b; [|eauto]. apply IH. intros a' Ha'. apply Hf. now right.
Qed.

Lemma py_any_none {A} (f : A -> result bool) (l : list A) :
  (forall a, In a l -> f a = Ok false) -> py_any f l = Ok false.
Proof.
  induction l as [|a l IH]; intros Hf; simpl; [reflexivity|].
  rewrite (Hf a (or_introl eq_refl)). simpl.
  apply IH. intros a' Ha'. apply Hf. now right.
Qed.

Definition area (box : bbox) : Q :=
  ((bx2 box - bx1 box) * (by2 box - by1 box))%Q.

Definition det_bbox (d : detection) : bbox := snd d.

Section RoiFilter.
Context `{Cv2}.

Lemma box_passes_roi_total box polys mode min_overlap :
  mode <> roi.Overlap ->
  exists b, roi.box_passes_roi box polys mode min_overlap = Ok b.
Proof.
  intros Hmode.
  destruct mode; cbn [roi.box_passes_roi]; [| | |congruence];
    apply py_any_total; intros poly _.
  - apply roi_point_in_polygon_total.
  - apply py_any_total. intros c _. apply roi_point_in_polygon_total.
  - apply py_all_total. intros c _. apply roi_point_in_polygon_total.
Qed.

Lemma filter_boxes_loop_total boxes polys mode min_overlap :
  mode <> roi.Overlap ->
  exists out, roi.filter_boxes_loop boxes polys mode min_overlap = Ok out.
Proof.
  intros Hmode.
  induction boxes as [|[[label conf] box] rest [out E]];
    cbn [roi.filter_boxes_loop]; [eauto|].
  destruct (box_passes_roi_total box polys mode min_overlap Hmode)
    as [keep Hk].
  rewrite Hk, E. cbn [rbind]. eauto.
Qed.

Lemma filter_boxes_loop_sublist boxes polys mode min_overlap :
  forall out,
    roi.filter_boxes_loop boxes polys mode min_overlap = Ok out ->
    sublist out boxes
    /\ Forall (fun d => roi.box_passes_roi (det_bbox d) polys mode min_overlap
                        = Ok true) out.
Proof.
  induction boxes as [|[[label conf] box] rest IH]; intros out;
    cbn [roi.filter_boxes_loop].
  - intros [= <-]. split; constructor.
  - destruct (roi.box_passes_roi box polys mode min_overlap) as [keep|e]
      eqn:Hk; [cbn [rbind]|discriminate].
    destruct (roi.filter_boxes_loop rest polys mode min_overlap)
      as [filtered|e]; [cbn [rbind]|discriminate].
    destruct (IH filtered eq_refl) as [Hsub Hall].
    destruct keep; intros [= <-].
    + split; [now constructor|]. constructor; assumption.
    + split; [now constructor|assumption].
Qed.

(** On a box whose truncated corners span a positive area,
    [bbox_overlaps_roi] raises [ValueError] at a first polygon without
    vertices. *)
Lemma bbox_overlaps_roi_empty_polygon box polys threshold :
  (py_int (bx1 box) < py_int (bx2 box))%Z ->
  (py_int (by1 box) < py_int (by2 box))%Z ->
  roi.bbox_overlaps_roi box ([] :: polys) threshold = Raise ValueError.
Proof.
  intros Hx Hy. unfold roi.bbox_overlaps_roi. cbv zeta.
  replace (py_int (bx2 box) <=? py_int (bx1 box))%Z with false
    by (symmetry; apply Z.leb_gt; lia).
  replace (py_int (by2 box) <=? py_int (by1 box))%Z with false
    by (symmetry; apply Z.leb_gt; lia).
  cbn [orb].
  replace ((py_int (bx2 box) - py_int (bx1 box))
           * (py_int (by2 box) - py_int (by1 box)) =? 0)%Z with false
    by (symmetry; apply Z.eqb_neq; nia).
  reflexivity.
Qed.

(** X6. What [filter_boxes_by_roi] returns is the input list with some
    boxes removed: nothing is added, reordered or duplicated. With no
    polygon ([None] or the empty list) it returns the input unchanged;
    otherwise every box it keeps passes the test of the chosen mode. In the
    modes [center], [any] and [all] it never fails. In the mode [overlap] it
    can fail: it raises [ValueError] when the first box spans a positive
    area after truncation and the first polygon has no vertex. *)
Theorem filter_boxes_by_roi_sublist :
  forall (boxes : list detection) (roi_polygons : option (list polygon))
         (mode : roi.roi_mode) (min_overlap : Q),
    (forall out,
        roi.filter_boxes_by_roi boxes roi_polygons mode min_overlap = Ok out ->
        sublist out boxes
        /\ match roi_polygons with
           | None | Some [] => out = boxes
           | Some polys =>
             Forall (fun d => roi.box_passes_roi (det_bbox d) polys mode
                                min_overlap = Ok true) out
           end)
    /\ (mode <> roi.Overlap \/ roi_polygons = None \/ roi_polygons = Some [] ->
        exists out,
          roi.filter_boxes_by_roi boxes roi_polygons mode min_overlap = Ok out)
    /\ (forall label conf box rest polys,
           mode = roi.Overlap ->
           boxes = (label, conf, box) :: rest ->
           roi_polygons = Some ([] :: polys) ->
           (py_int (bx1 box) < py_int (bx2 box))%Z ->
           (py_int (by1 box) < py_int (by2 box))%Z ->
           roi.filter_boxes_by_roi boxes roi_polygons mode min_overlap
           = Raise ValueError).
Proof.
  intros boxes roi_polygons mode min_overlap. split; [|split].
  - destruct roi_polygons as [[|poly polys]|]; cbn [roi.filter_boxes_by_roi];
      intros out.
    + intros [= <-]. now split.
    + apply filter_boxes_loop_sublist.
    + intros [= <-]. now split.
  - destruct roi_polygons as [[|poly polys]|]; cbn [roi.filter_boxes_by_roi];
      intros Hok; eauto.
    destruct Hok as [Hmode|[Hp|Hp]]; [|discriminate..].
    now apply filter_boxes_loop_total.
  - intros label conf box rest polys -> -> -> Hx Hy.
    cbn [roi.filter_boxes_by_roi roi.filter_boxes_loop roi.box_passes_roi].
    now rewrite bbox_overlaps_roi_empty_polygon.
Qed.

Lemma box_passes_roi_degenerate box polys mode min_overlap :
  Forall (fun poly : polygon => (length poly < 3)%nat) polys ->
  mode <> roi.Overlap ->
  roi.box_passes_roi box polys mode min_overlap = Ok false.
Proof.
  intros Hsmall Hmode. rewrite List.Forall_forall in Hsmall.
  destruct mode; cbn [roi.box_passes_roi]; [| | |congruence];
    apply py_any_none; intros poly Hin.
  - apply roi_point_in_polygon_small. now apply Hsmall.
  - apply py_any_none. intros c _. apply roi_point_in_polygon_small.
    now apply Hsmall.
  - cbn [py_all]. rewrite roi_point_in_polygon_small by now apply Hsmall.
    reflexivity.
Qed.

(** X7. Polygons with fewer than three vertices contain no point: when
    every ROI polygon is degenerate, the modes [center], [any] and [all]
    of [filter_boxes_by_roi] drop every box. *)
Theorem filter_boxes_by_roi_degenerate :
  forall (boxes : list detection) (polys : list polygon)
         (mode : roi.roi_mode) (min_overlap : Q),
    polys <> [] ->
    Forall (fun poly : polygon => (length poly < 3)%nat) polys ->
    mode <> roi.Overlap ->
    roi.filter_boxes_by_roi boxes (Some polys) mode min_overlap = Ok [].
Proof.
  intros boxes polys mode min_overlap Hne Hsmall Hmode.
  destruct polys as [|poly polys]; [congruence|].
  cbn [roi.filter_boxes_by_roi].
  induction boxes as [|[[label conf] box] rest IH];
    cbn [roi.filter_boxes_loop]; [reflexivity|].
  rewrite box_passes_roi_degenerate by assumption. now rewrite IH.
Qed.

End RoiFilter.

(** In mode [overlap] an ROI list that starts with an empty polygon makes
    the filter raise; in mode [center] the same call returns. *)
Lemma filter_boxes_by_roi_sublist_witness :
  @roi.filter_boxes_by_roi plain_cv2
    [("gun", 0.9, gun_box)]%Q (Some [[]; [(0, 0); (300, 0); (300, 300)]%Q])
    roi.Overlap 0.5
  = Raise ValueError
  /\ exists out,
      @roi.filter_boxes_by_roi plain_cv2
        [("gun", 0.9, gun_box)]%Q
        (Some [[]; [(0, 0); (300, 0); (300, 300)]%Q]) roi.Center 0.5
      = Ok out.
Proof.
  split.
  - apply (proj2 (proj2 (@filter_boxes_by_roi_sublist plain_cv2 _ _ _ _))
             "gun" (0.9)%Q gun_box [] [[(0, 0); (300, 0); (300, 300)]%Q]);
      try reflexivity.
  - apply (proj1 (proj2 (@filter_boxes_by_roi_sublist plain_cv2 _ _ _ _))).
    left. discriminate.
Defined.

Lemma filter_boxes_by_roi_degenerate_witness :
  @roi.filter_boxes_by_roi plain_cv2
    [("gun", 0.9, gun_box)]%Q (Some [[(0, 0); (300, 300)]%Q]) roi.Center 0.5
  = Ok [].
Proof.
  apply (@filter_boxes_by_roi_degenerate plain_cv2).
  - discriminate.
  - repeat constructor.
  - discriminate.
Defined.

Lemma bbox_in_roi_total box polys require_full_overlap :
  Forall (fun poly : polygon => poly <> []) polys ->
  exists b, base.bbox_in_roi box polys require_full_overlap = Ok b.
Proof.
  intros Hne. unfold base.bbox_in_roi. destruct polys as [|p0 ps]; [eauto|].
  generalize dependent (p0 :: ps). clear p0 ps.
  generalize (((bx1 box + bx2 box) / 2)%Q, ((by1 box + by2 box) / 2)%Q).
  generalize [(bx1 box, by1 box); (bx2 box, by1 box);
              (bx1 box, by2 box); (bx2 box, by2 box)].
  intros corners center polys Hne.
  induction polys as [|poly polys IH]; cbn [base.bbox_in_roi_loop]; [eauto|].
  pose proof (List.Forall_inv Hne) as Hpoly.
  specialize (IH (List.Forall_inv_tail Hne)).
  destruct require_full_overlap.
  - destruct (py_all_total (fun c => base.point_in_polygon c poly) corners)
      as [b ->].
    { intros c _. now apply base_point_in_polygon_total. }
    cbn [rbind]. destruct b; eauto.
  - destruct (base_point_in_polygon_total center poly Hpoly) as [b ->].
    cbn [rbind]. destruct b; [eauto|].
    destruct (py_any_total (fun c => base.point_in_polygon c poly) corners)
      as [b ->].
    { intros c _. now apply base_point_in_polygon_total. }
    cbn [rbind]. destruct b; eauto.
Qed.

(** X8. With no empty polygon among the ROIs, [filter_detections] returns:
    its result is the input with some detections removed, and when a
    minimum area is given every detection it keeps has at least that
    area. *)
Theorem filter_detections_sound :
  forall (detections : list detection) (roi_polygons : option (list polygon))
         (min_box_area : option Z) (require_full_overlap : bool),
    (forall polys, roi_polygons = Some polys ->
                   Forall (fun poly : polygon => poly <> []) polys) ->
    exists out,
      base.filter_detections detections roi_polygons min_box_area
        require_full_overlap = Ok out
      /\ sublist out detections
      /\ (forall a, min_box_area = Some a ->
            Forall (fun d => (inject_Z a <= area (det_bbox d))%Q) out).
Proof.
  intros detections roi_polygons min_box_area require_full_overlap Hne.
  induction detections as [|[[label conf] box] rest (out & E & Hsub & Harea)];
    cbn [base.filter_detections].
  - exists []. repeat split; constructor.
  - assert (Hroi : exists b,
               match roi_polygons with
               | None => Ok true
               | Some polys => base.bbox_in_roi box polys require_full_overlap
               end = Ok b).
    { destruct roi_polygons as [polys|]; [|eauto].
      apply bbox_in_roi_total. now apply Hne. }
    destruct Hroi as [in_roi ->]. rewrite E. cbn [rbind].
    destruct in_roi; cbn [andb].
    + destruct min_box_area as [a|].
      * destruct (base.filter_by_min_box_size box a) eqn:Hbig;
          eexists; (split; [reflexivity|]); (split; [now constructor|]);
          intros a' [= <-].
        -- constructor; [|now apply Harea].
           apply Qle_bool_iff in Hbig. exact Hbig.
        -- now apply Harea.
      * eexists. split; [reflexivity|]. split; [now constructor|].
        intros a' [=].
    + eexists. split; [reflexivity|]. split; [now constructor|assumption].
Qed.

Lemma filter_detections_sound_witness :
  exists out,
    base.filter_detections
      [("gun", 0.9, gun_box); ("gun", 0.8, BBox 0 0 10 10)]%Q
      (Some [[(0, 0); (300, 0); (300, 300); (0, 300)]%Q]) (Some 400%Z) false
    = Ok out
    /\ sublist out [("gun", 0.9, gun_box); ("gun", 0.8, BBox 0 0 10 10)]%Q
    /\ (forall a, Some 400%Z = Some a ->
          Forall (fun d => (inject_Z a <= area (det_bbox d))%Q) out).
Proof.
  apply (filter_detections_sound
           [("gun", 0.9, gun_box); ("gun", 0.8, BBox 0 0 10 10)]%Q
           (Some [[(0, 0); (300, 0); (300, 300); (0, 300)]%Q])
           (Some 400%Z) false).
  intros polys [= <-]. repeat constructor. discriminate.
Defined.

(** X9. An empty polygon at the head of the ROI list makes
    [filter_detections] raise [IndexError] as soon as there is a detection
    to test, whatever the other arguments are. *)
Theorem filter_detections_empty_polygon_raises :
  forall (d : detection) (rest : list detection) (polys : list polygon)
         (min_box_area : option Z) (require_full_overlap : bool),
    base.filter_detections (d :: rest) (Some ([] :: polys)) min_box_area
      require_full_overlap = Raise IndexError.
Proof.
  intros [[label conf] box] rest polys min_box_area [|]; reflexivity.
Qed.

(** ** [TemporalBuffer] and [TemporalConfirmationHelper] *)

Lemma deque_append_length {A} (maxlen : nat) (d : list A) (x : A) :
  (length d <= maxlen)%nat ->
  length (deque_append maxlen d x) = Nat.min (length d + 1) maxlen.
Proof.
  intros Hd. unfold deque_append.
  destruct (maxlen <? length (d ++ [x]))%nat eqn:E.
  - apply Nat.ltb_lt in E. destruct d as [|a d]; cbn [tl app]; list_len.
  - apply Nat.ltb_ge in E. list_len.
Qed.

(** X10. A [TemporalBuffer] never outgrows its window: adding to a buffer
    that holds at most [maxlen] entries gives one that holds
    [min(size + 1, maxlen)] entries, with the same [maxlen]. *)
Theorem temporal_buffer_add_size :
  forall (self : roi.TemporalBuffer) (label : string) (box : bbox)
         (confidence : Q) (frame_idx : option Z),
    (roi.size self <= Z.of_nat (roi.maxlen self))%Z ->
    roi.size (roi.add self label box confidence frame_idx)
    = Z.min (roi.size self + 1) (Z.of_nat (roi.maxlen self))
    /\ roi.maxlen (roi.add self label box confidence frame_idx)
       = roi.maxlen self.
Proof.
  intros self label box confidence frame_idx Hfit. unfold roi.size in *.
  assert (Hlen : forall e,
             length (deque_append (roi.maxlen self) (roi.buffer self) e)
             = Nat.min (length (roi.buffer self) + 1) (roi.maxlen self)).
  { intros e. apply deque_append_length. lia. }
  unfold roi.add. destruct frame_idx as [i|]; cbn [roi.buffer roi.maxlen];
    rewrite Hlen; split; reflexivity || lia.
Qed.

Lemma temporal_buffer_add_size_witness :
  roi.size (roi.add (roi.TemporalBuffer_init 5) "gun" gun_box 0.9 None)
  = Z.min (roi.size (roi.TemporalBuffer_init 5) + 1) 5
  /\ roi.maxlen (roi.add (roi.TemporalBuffer_init 5) "gun" gun_box 0.9 None)
     = 5%nat.
Proof.
  apply (temporal_buffer_add_size (roi.TemporalBuffer_init 5) "gun" gun_box 0.9 None).
  vm_compute. discriminate.
Defined.

(** X11. [get_recent(n)] with [n >= 1] returns the last [min(n, size)]
    entries of the buffer, oldest first; [get_recent(0)] is the slice
    [[-0:]] and returns the whole buffer, not the empty list. *)
Theorem get_recent_suffix :
  forall self : roi.TemporalBuffer,
    roi.get_recent self 0 = roi.buffer self
    /\ forall n : Z,
         (1 <= n)%Z ->
         (exists older, roi.buffer self = older ++ roi.get_recent self n)
         /\ Z.of_nat (length (roi.get_recent self n)) = Z.min n (roi.size self).
Proof.
  intros self. split.
  { unfold roi.get_recent, roi.py_slice_from. cbn [Z.opp Z.ltb Z.compare].
    now rewrite Z.min_l by lia. }
  intros n Hn. unfold roi.get_recent, roi.py_slice_from, roi.size.
  assert (Hneg : (- n <? 0)%Z = true) by (apply Z.ltb_lt; lia).
  rewrite Hneg. split.
  - eexists. symmetry. apply firstn_skipn.
  - rewrite length_skipn. lia.
Qed.

Lemma get_recent_suffix_witness :
  (exists older,
      roi.buffer (roi.add (roi.TemporalBuffer_init 5) "gun" gun_box 0.9 None)
      = older ++ roi.get_recent
                   (roi.add (roi.TemporalBuffer_init 5) "gun" gun_box 0.9 None) 3)
  /\ Z.of_nat
       (length (roi.get_recent
                  (roi.add (roi.TemporalBuffer_init 5) "gun" gun_box 0.9 None) 3))
     = Z.min 3 (roi.size
                  (roi.add (roi.TemporalBuffer_init 5) "gun" gun_box 0.9 None)).
Proof.
  apply (proj2 (get_recent_suffix
                  (roi.add (roi.TemporalBuffer_init 5) "gun" gun_box 0.9 None))).
  lia.
Defined.

(** X12. [temporal_confirm] cannot fire when the window is too small for
    the number of confirmations asked for: with
    [min_confirmations > maxlen + 1] it returns [False] on every call, and
    the buffer stays within its window. *)
Theorem temporal_confirm_needs_room :
  forall (buf : roi.TemporalBuffer) (label : string) (box : bbox)
         (confidence : Q) (min_confirmations : Z) (iou_threshold : Q)
         (frame_idx : option Z),
    (roi.size buf <= Z.of_nat (roi.maxlen buf))%Z ->
    (Z.of_nat (roi.maxlen buf) + 1 < min_confirmations)%Z ->
    let '(confirmed, buf') :=
      roi.temporal_confirm buf label box confidence min_confirmations
        iou_threshold frame_idx in
    confirmed = false
    /\ roi.maxlen buf' = roi.maxlen buf
    /\ (roi.size buf' <= Z.of_nat (roi.maxlen buf'))%Z.
Proof.
  intros buf label box confidence k thr frame_idx Hfit Hk.
  unfold roi.temporal_confirm.
  pose proof (count_similar_loop_le_length (roi.buffer buf) label box thr)
    as Hcount.
  assert (Hlen : forall e,
             length (deque_append (roi.maxlen buf) (roi.buffer buf) e)
             = Nat.min (length (roi.buffer buf) + 1) (roi.maxlen buf)).
  { intros e. apply deque_append_length. unfold roi.size in Hfit. lia. }
  split; [|split].
  - apply Z.leb_gt. unfold roi.count_similar, roi.size in *. lia.
  - unfold roi.add. now destruct frame_idx.
  - unfold roi.size, roi.add.
    destruct frame_idx; cbn [roi.buffer roi.maxlen]; rewrite Hlen; lia.
Qed.

Lemma temporal_confirm_needs_room_witness :
  fst (roi.temporal_confirm (roi.TemporalBuffer_init 2) "gun" gun_box 0.9 4 0.3
         None)
  = false
  /\ roi.maxlen
       (snd (roi.temporal_confirm (roi.TemporalBuffer_init 2) "gun" gun_box 0.9
               4 0.3 None))
     = 2%nat.
Proof.
  pose proof (temporal_confirm_needs_room (roi.TemporalBuffer_init 2) "gun"
                gun_box 0.9 4 0.3 None) as Hroom.
  destruct (roi.temporal_confirm (roi.TemporalBuffer_init 2) "gun" gun_box 0.9
              4 0.3 None) as [confirmed buf'].
  destruct Hroom as (Hc & Hm & _).
  - vm_compute. discriminate.
  - vm_compute. reflexivity.
  - split; assumption.
Defined.

Lemma count_similar_loop_tl buf label box thr :
  (roi.count_similar_loop (tl buf) label box thr 0
   <= roi.count_similar_loop buf label box thr 0)%Z.
Proof.
  destruct buf as [|[[[l b] cf] fi] buf]; cbn [tl roi.count_similar_loop];
    [lia|].
  destruct (negb (String.eqb l label)); [lia|].
  destruct (Qle_bool thr (roi.iou box b)); [|lia].
  rewrite (count_similar_loop_acc buf label box thr (0 + 1)). lia.
Qed.

(** X13. Detections of another label never help to confirm a label:
    adding an entry labelled [other] leaves [count_similar] for [label]
    unchanged while the buffer has room, and can only lower it (by evicting
    the oldest entry) once the buffer is full. *)
Theorem add_other_label_never_counts :
  forall (self : roi.TemporalBuffer) (other label : string) (b box : bbox)
         (confidence : Q) (frame_idx : option Z) (iou_threshold : Q),
    other <> label ->
    (roi.count_similar (roi.add self other b confidence frame_idx) label box
       iou_threshold
     <= roi.count_similar self label box iou_threshold)%Z
    /\ ((roi.size self < Z.of_nat (roi.maxlen self))%Z ->
        roi.count_similar (roi.add self other b confidence frame_idx) label box
          iou_threshold
        = roi.count_similar self label box iou_threshold).
Proof.
  intros self other label b box confidence frame_idx thr Hne.
  assert (Happ : forall e : Z,
             roi.count_similar_loop
               (roi.buffer self ++ [(other, b, confidence, e)]) label box thr 0
             = roi.count_similar_loop (roi.buffer self) label box thr 0).
  { intros e. rewrite count_similar_loop_app. cbn [roi.count_similar_loop].
    apply String.eqb_neq in Hne. now rewrite Hne. }
  assert (Hgen : forall e : Z,
             (roi.count_similar_loop
                (deque_append (roi.maxlen self) (roi.buffer self)
                   (other, b, confidence, e)) label box thr 0
              <= roi.count_similar_loop (roi.buffer self) label box thr 0)%Z
             /\ ((roi.size self < Z.of_nat (roi.maxlen self))%Z ->
                 roi.count_similar_loop
                   (deque_append (roi.maxlen self) (roi.buffer self)
                      (other, b, confidence, e)) label box thr 0
                 = roi.count_similar_loop (roi.buffer self) label box thr 0)).
  { intros e. unfold deque_append, roi.size. cbv zeta.
    match goal with
    | |- context [if ?full then _ else _] => destruct full eqn:Hfull
    end.
    - split.
      + rewrite <- (Happ e). apply count_similar_loop_tl.
      + intros Hroom. apply Nat.ltb_lt in Hfull. list_len.
    - split; [rewrite Happ; lia | intros _; apply Happ]. }
  unfold roi.count_similar, roi.add.
  destruct frame_idx as [i|]; cbn [roi.buffer]; apply Hgen.
Qed.

Lemma add_other_label_never_counts_witness :
  (roi.count_similar
     (roi.add (roi.TemporalBuffer_init 5) "knife" gun_box 0.9 None) "gun"
     gun_box 0.3
   <= roi.count_similar (roi.TemporalBuffer_init 5) "gun" gun_box 0.3)%Z.
Proof.
  apply (add_other_label_never_counts (roi.TemporalBuffer_init 5) "knife" "gun"
           gun_box gun_box 0.9 None 0.3).
  discriminate.
Defined.

(** X14. The helper keeps one history per camera: adding a detection for
    camera [a] changes neither the answer of [check_confirmation] nor the
    window size of any other camera. *)
Theorem add_detection_other_camera :
  forall (self : base.TemporalConfirmationHelper) (a c label l : string)
         (b box : bbox) (conf : Q) (frame_index : Z) (now : Q),
    a <> c ->
    base.check_confirmation
      (base.add_detection self a l b conf frame_index now) c label box
    = base.check_confirmation self c label box
    /\ base.get_window_size
         (base.add_detection self a l b conf frame_index now) c
       = base.get_window_size self c.
Proof.
  intros self a c label l b box conf frame_index now Hne.
  unfold base.check_confirmation, base.get_window_size, base.add_detection.
  cbn [base._history base.min_confirmations base.iou_threshold].
  now rewrite lookup_insert_ne.
Qed.

Lemma add_detection_other_camera_witness :
  base.check_confirmation
    (base.add_detection (base.MkHelper 5 0.3 3 ∅) "cam-a" "gun" gun_box 0.9 1 0)
    "cam-b" "gun" gun_box
  = base.check_confirmation (base.MkHelper 5 0.3 3 ∅) "cam-b" "gun" gun_box
  /\ base.get_window_size
       (base.add_detection (base.MkHelper 5 0.3 3 ∅) "cam-a" "gun" gun_box 0.9 1 0)
       "cam-b"
     = base.get_window_size (base.MkHelper 5 0.3 3 ∅) "cam-b".
Proof.
  apply (add_detection_other_camera (base.MkHelper 5 0.3 3 ∅) "cam-a" "cam-b"
           "gun" "gun" gun_box gun_box 0.9 1 0).
  discriminate.
Defined.

(** X15. The helper's per-camera history never outgrows the window: if
    every camera holds at most [window_frames] detections before
    [add_detection], every camera does afterwards, and the camera written
    to holds [min(size + 1, window_frames)]. *)
Theorem add_detection_window_bound :
  forall (self : base.TemporalConfirmationHelper) (a l : string) (b : bbox)
         (conf : Q) (frame_index : Z) (now : Q),
    (0 <= base.window_frames self)%Z ->
    (forall c, base.get_window_size self c <= base.window_frames self)%Z ->
    let self' := base.add_detection self a l b conf frame_index now in
    base.get_window_size self' a
    = Z.min (base.get_window_size self a + 1) (base.window_frames self)
    /\ (forall c, base.get_window_size self' c <= base.window_frames self')%Z.
Proof.
  intros self a l b conf frame_index now Hw Hfit.
  assert (Ha : base.get_window_size
                 (base.add_detection self a l b conf frame_index now) a
               = Z.min (base.get_window_size self a + 1)
                   (base.window_frames self)).
  { specialize (Hfit a). revert Hfit.
    unfold base.get_window_size, base.add_detection. cbn [base._history].
    rewrite lookup_insert_eq.
    destruct (base._history self !! a) as [h|]; intros Hfit;
      rewrite deque_append_length by (cbn [length] in *; lia);
      cbn [length] in *; lia. }
  cbn zeta. split; [exact Ha|].
  intros c. destruct (decide (a = c)) as [<-|Hne].
  - rewrite Ha. cbn [base.add_detection base.window_frames]. lia.
  - unfold base.get_window_size at 1. unfold base.add_detection at 1.
    cbn [base._history]. rewrite lookup_insert_ne by assumption.
    apply Hfit.
Qed.

Lemma add_detection_window_bound_witness :
  base.get_window_size
    (base.add_detection (base.MkHelper 5 0.3 3 ∅) "cam-a" "gun" gun_box 0.9 1 0)
    "cam-a"
  = Z.min (base.get_window_size (base.MkHelper 5 0.3 3 ∅) "cam-a" + 1) 5.
Proof.
  apply (add_detection_window_bound (base.MkHelper 5 0.3 3 ∅) "cam-a" "gun"
           gun_box 0.9 1 0).
  - vm_compute. discriminate.
  - intros c. unfold base.get_window_size. cbn [base._history].
    rewrite lookup_empty. vm_compute. discriminate.
Defined.

(** ** [WeaponDetector.process] *)

Definition ev_detection (ev : base.Event) : detection :=
  (base.ev_label ev, base.ev_conf ev, base.ev_bbox ev).

Definition det_label (d : detection) : string := fst (fst d).

Lemma List_filter_sublist {A} (f : A -> bool) (l : list A) :
  sublist (List.filter f l) l.
Proof.
  induction l as [|a l IH]; cbn [List.filter]; [constructor|].
  destruct (f a); now constructor.
Qed.

Lemma confirm_step_keeps self ctx label conf box now r self1 :
  weapon.confirm_step self ctx label conf box now = (r, self1) ->
  weapon._frame_count self1 = weapon._frame_count self
  /\ weapon.dedup_window self1 = weapon.dedup_window self
  /\ weapon.dedup_grid_size self1 = weapon.dedup_grid_size self
  /\ weapon._recent_detections self1 = weapon._recent_detections self
  /\ weapon.classes self1 = weapon.classes self
  /\ weapon._configured self1 = weapon._configured self.
Proof.
  unfold weapon.confirm_step.
  destruct (weapon.use_temporal_buffer self).
  - destruct (weapon.temporal_buffer self) as [b|].
    + destruct (roi.temporal_confirm _ _ _ _ _ _ _) as [c b'].
      intros [= <- <-]. now repeat split.
    + intros [= <- <-]. now repeat split.
  - destruct (weapon.temporal_helper self) as [h|].
    + destruct (base.add_and_check _ _ _ _ _ _ _) as [c h'].
      intros [= <- <-]. now repeat split.
    + intros [= <- <-]. now repeat split.
Qed.

Section Process.
Context `{Hashlib} `{Cv2}.

(** What every event of one [process] call carries besides the detection. *)
Definition stamped (ctx : base.DetectionContext) (ts_ms frame_count : Z)
  (ev : base.Event) : Prop :=
  base.ev_type ev = "weapon"
  /\ base.ev_camera_id ev = base.camera_id ctx
  /\ base.ev_ts_ms ev = ts_ms
  /\ dict_get (base.ev_extras ev) "frame_count" = Some (PyInt frame_count).

Lemma process_loop_inv ctx ts_ms now (detections : list detection) :
  forall self events r self',
    weapon.process_loop self ctx ts_ms now detections events = (r, self') ->
    weapon._frame_count self' = weapon._frame_count self
    /\ weapon.dedup_window self' = weapon.dedup_window self
    /\ weapon.classes self' = weapon.classes self
    /\ weapon._configured self' = weapon._configured self
    /\ ((length (weapon._recent_detections self) <= weapon.dedup_window self)%nat ->
        (length (weapon._recent_detections self') <= weapon.dedup_window self')%nat)
    /\ (forall out, r = Ok out ->
          exists new,
            out = events ++ new
            /\ sublist (map ev_detection new) detections
            /\ Forall (stamped ctx ts_ms (weapon._frame_count self)) new).
Proof.
  induction detections as [|[[label conf] box] rest IH];
    intros self events r self'; cbn [weapon.process_loop].
  - intros [= <- <-]. do 4 (split; [reflexivity|]). split; [auto|].
    intros out [= <-]. exists []. rewrite app_nil_r. repeat constructor.
  - destruct (weapon.confirm_step self ctx label conf box now)
      as [[[|]|e] self1] eqn:Hstep;
      destruct (confirm_step_keeps _ _ _ _ _ _ _ _ Hstep)
        as (Hfc & Hdw & Hgs & Hring & Hcl & Hcf).
    + destruct (weapon._detection_hash label box (weapon.dedup_grid_size self1))
        as [det_hash|e] eqn:Hhash.
      * destruct (weapon.is_duplicate _ _ _ _) eqn:Hdup.
        -- intros E. apply IH in E.
           destruct E as (E1 & E2 & E3 & E4 & E5 & E6).
           do 4 (split; [congruence|]). split.
           ++ intros Hfit. apply E5. rewrite Hring, Hdw. exact Hfit.
           ++ intros out Hout. destruct (E6 out Hout) as (new & -> & Hs & Ha).
              exists new. split; [reflexivity|]. split; [now constructor|].
              now rewrite <- Hfc.
        -- intros E. apply IH in E. cbn [weapon._frame_count weapon.dedup_window
             weapon.classes weapon._configured weapon._recent_detections
             weapon.set_recent_detections] in E.
           destruct E as (E1 & E2 & E3 & E4 & E5 & E6).
           do 4 (split; [congruence|]). split.
           ++ intros Hfit. apply E5.
              rewrite deque_append_length by (rewrite Hring, Hdw; exact Hfit).
              lia.
           ++ intros out Hout. destruct (E6 out Hout) as (new & -> & Hs & Ha).
              eexists (_ :: new). split; [now rewrite <- app_assoc|].
              split; [cbn [map]; now constructor|].
              constructor; [|now rewrite <- Hfc].
              unfold stamped. cbn. now rewrite Hfc.
      * intros [= <- <-].
        do 4 (split; [congruence|]). split; [|intros out [=]].
        rewrite Hring, Hdw. auto.
    + intros E. apply IH in E. destruct E as (E1 & E2 & E3 & E4 & E5 & E6).
      do 4 (split; [congruence|]). split.
      * intros Hfit. apply E5. rewrite Hring, Hdw. exact Hfit.
      * intros out Hout. destruct (E6 out Hout) as (new & -> & Hs & Ha).
        exists new. split; [reflexivity|]. split; [now constructor|].
        now rewrite <- Hfc.
    + intros [= <- <-].
      do 4 (split; [congruence|]). split; [|intros out [=]].
      rewrite Hring, Hdw. auto.
Qed.

(** The three filters of [process] ahead of the per-detection loop. *)
Definition by_class (self : weapon.WeaponDetector) (yolo : list detection)
  : list detection :=
  match weapon.classes self with
  | [] => yolo
  | _ => List.filter
           (fun '(label, _, _) => weapon.label_in (weapon.classes self) label)
           yolo
  end.

Definition by_roi (self : weapon.WeaponDetector) (ctx : base.DetectionContext)
  (detections : list detection) : result (list detection) :=
  match base.roi_polygons ctx with
  | None | Some [] => Ok detections
  | Some _ =>
    roi.filter_boxes_by_roi detections (base.roi_polygons ctx)
      (weapon.roi_filter_mode self) (weapon.roi_min_overlap self)
  end.

Definition by_area (ctx : base.DetectionContext) (detections : list detection)
  : list detection :=
  match base.min_box_area ctx with
  | None => detections
  | Some a =>
    if (a =? 0)%Z then detections
    else List.filter
           (fun '(_, _, box) =>
              Qle_bool (inject_Z a) ((bx2 box - bx1 box) * (by2 box - by1 box)))
           detections
  end.

Lemma process_unfold self yolo ts_ms ctx now :
  weapon._configured self = true ->
  weapon.process self yolo ts_ms ctx now
  = let self1 := weapon.set_frame_count self (weapon._frame_count self + 1)%Z in
    match by_class self yolo with
    | [] => (Ok [], self1)
    | _ =>
      match by_roi self ctx (by_class self yolo) with
      | Raise e => (Raise e, self1)
      | Ok detections =>
        match by_area ctx detections with
        | [] => (Ok [], self1)
        | _ =>
          weapon.process_loop self1 ctx ts_ms now (by_area ctx detections) []
        end
      end
    end.
Proof.
  intros Hconf. unfold weapon.process, by_class, by_roi, by_area.
  rewrite Hconf. cbn [negb]. destruct yolo as [|d yolo]; [|reflexivity].
  now destruct (weapon.classes self).
Qed.

Lemma by_class_sound self yolo :
  sublist (by_class self yolo) yolo
  /\ (weapon.classes self <> [] ->
      Forall (fun d => In (det_label d) (weapon.classes self))
        (by_class self yolo)).
Proof.
  unfold by_class. destruct (weapon.classes self) as [|c cs] eqn:Hc.
  - split; [reflexivity | congruence].
  - split; [apply List_filter_sublist|]. intros _.
    apply List.Forall_forall. intros [[label conf] box] Hin.
    apply List.filter_In in Hin. destruct Hin as [_ Hin].
    unfold weapon.label_in in Hin. apply List.existsb_exists in Hin.
    destruct Hin as (c' & Hin & Heq). apply String.eqb_eq in Heq.
    now subst c'.
Qed.

Lemma by_roi_sound self ctx detections out :
  by_roi self ctx detections = Ok out -> sublist out detections.
Proof.
  unfold by_roi. destruct (base.roi_polygons ctx) as [[|poly polys]|].
  - now intros [= <-].
  - cbn [roi.filter_boxes_by_roi]. intros E.
    now apply filter_boxes_loop_sublist in E as [Hsub _].
  - now intros [= <-].
Qed.

Lemma by_area_sound ctx detections :
  sublist (by_area ctx detections) detections
  /\ (forall a, base.min_box_area ctx = Some a -> a <> 0%Z ->
        Forall (fun d => (inject_Z a <= area (det_bbox d))%Q)
          (by_area ctx detections)).
Proof.
  unfold by_area. destruct (base.min_box_area ctx) as [a|].
  - destruct (a =? 0)%Z eqn:Ha.
    + split; [reflexivity|]. intros a' [= <-] Hnz. apply Z.eqb_eq in Ha.
      congruence.
    + split; [apply List_filter_sublist|]. intros a' [= <-] _.
      apply List.Forall_forall. intros [[label conf] box] Hin.
      apply List.filter_In in Hin. destruct Hin as [_ Hin].
      now apply Qle_bool_iff in Hin.
  - split; [reflexivity|]. intros a [=].
Qed.

Lemma sublist_Forall {A} (P : A -> Prop) (l1 l2 : list A) :
  sublist l1 l2 -> Forall P l2 -> Forall P l1.
Proof.
  intros Hsub Hall. apply List.Forall_forall. intros x Hin.
  rewrite List.Forall_forall in Hall. apply Hall.
  apply list_elem_of_In. eapply elem_of_sublist; [|exact Hsub].
  now apply list_elem_of_In.
Qed.

Ltac no_events :=
  cbn [map]; split; [apply sublist_nil_l|];
  split; [constructor|]; split; intros; constructor.

(** X16. Every event returned by [process] is one of the detections that
    [run_yolo] produced for this frame, in the order [run_yolo] gave them
    and each at most once; its label is one of the configured classes when
    classes are configured, its box has at least the context's minimum area
    when one is set, and it carries type ["weapon"], the context's camera
    id, the frame's timestamp and the detector's new frame count. *)
Theorem process_events_come_from_yolo :
  forall (self : weapon.WeaponDetector) (yolo : list detection) (ts_ms : Z)
         (ctx : base.DetectionContext) (now : Q) (events : list base.Event)
         (self' : weapon.WeaponDetector),
    weapon.process self yolo ts_ms ctx now = (Ok events, self') ->
    sublist (map ev_detection events) yolo
    /\ Forall (stamped ctx ts_ms (weapon._frame_count self')) events
    /\ (weapon.classes self <> [] ->
        Forall (fun ev => In (base.ev_label ev) (weapon.classes self)) events)
    /\ (forall a, base.min_box_area ctx = Some a -> a <> 0%Z ->
          Forall (fun ev => (inject_Z a <= area (base.ev_bbox ev))%Q) events).
Proof.
  intros self yolo ts_ms ctx now events self' E.
  destruct (weapon._configured self) eqn:Hconf.
  2:{ unfold weapon.process in E. rewrite Hconf in E. cbn [negb] in E.
      injection E as <- <-. no_events. }
  rewrite process_unfold in E by assumption. cbv zeta in E.
  destruct (by_class_sound self yolo) as (Hs1 & Hc1).
  destruct (by_class self yolo) as [|d1 rest1] eqn:E1.
  { injection E as <- <-. no_events. }
  destruct (by_roi self ctx (d1 :: rest1)) as [dets2|e] eqn:E2;
    [|discriminate].
  pose proof (by_roi_sound _ _ _ _ E2) as Hs2.
  destruct (by_area_sound ctx dets2) as (Hs3 & Ha3).
  destruct (by_area ctx dets2) as [|d3 rest3] eqn:E3.
  { injection E as <- <-. no_events. }
  apply process_loop_inv in E.
  destruct E as (Hfc & _ & _ & _ & _ & Hout).
  destruct (Hout events eq_refl) as (new & -> & Hsub & Hst).
  cbn [app] in *.
  assert (Hyolo : sublist (d3 :: rest3) yolo).
  { etransitivity; [exact Hs3|]. etransitivity; [exact Hs2 | exact Hs1]. }
  split; [etransitivity; [exact Hsub | exact Hyolo]|].
  split; [now rewrite Hfc|].
  split.
  - intros Hcl. specialize (Hc1 Hcl).
    assert (Hall : Forall (fun d => In (det_label d) (weapon.classes self))
                     (map ev_detection new)).
    { eapply sublist_Forall; [exact Hsub|].
      eapply sublist_Forall; [|exact Hc1].
      etransitivity; [exact Hs3 | exact Hs2]. }
    rewrite List.Forall_map in Hall. exact Hall.
  - intros a Ha Hnz.
    assert (Hall : Forall (fun d => (inject_Z a <= area (det_bbox d))%Q)
                     (map ev_detection new)).
    { eapply sublist_Forall; [exact Hsub|]. now apply Ha3. }
    rewrite List.Forall_map in Hall. exact Hall.
Qed.

(** X17. A configured detector counts every frame, whatever [process] does
    with it: [_frame_count] grows by exactly one also when no event is
    emitted or an exception is raised, and the configuration is kept. An
    unconfigured detector returns no event and is left unchanged. *)
Theorem process_counts_every_frame :
  forall (self : weapon.WeaponDetector) (yolo : list detection) (ts_ms : Z)
         (ctx : base.DetectionContext) (now : Q)
         (r : result (list base.Event)) (self' : weapon.WeaponDetector),
    weapon.process self yolo ts_ms ctx now = (r, self') ->
    if weapon._configured self
    then weapon._frame_count self' = (weapon._frame_count self + 1)%Z
         /\ weapon._configured self' = true
         /\ weapon.classes self' = weapon.classes self
         /\ weapon.dedup_window self' = weapon.dedup_window self
    else r = Ok [] /\ self' = self.
Proof.
  intros self yolo ts_ms ctx now r self' E.
  destruct (weapon._configured self) eqn:Hconf.
  2:{ unfold weapon.process in E. rewrite Hconf in E. cbn [negb] in E.
      now injection E as <- <-. }
  rewrite process_unfold in E by assumption. cbv zeta in E.
  destruct (by_class self yolo) as [|d1 rest1].
  { injection E as <- <-. now repeat split. }
  destruct (by_roi self ctx (d1 :: rest1)) as [dets2|e].
  2:{ injection E as <- <-. now repeat split. }
  destruct (by_area ctx dets2) as [|d3 rest3].
  { injection E as <- <-. now repeat split. }
  apply process_loop_inv in E.
  destruct E as (Hfc & Hdw & Hcl & Hcf & _ & _).
  rewrite Hfc, Hdw, Hcl, Hcf. now repeat split.
Qed.

(** X18. The dedup ring never outgrows [dedup_window]: if it holds at most
    [dedup_window] entries before [process], it does afterwards, whatever
    the outcome of the call. *)
Theorem process_ring_bounded :
  forall (self : weapon.WeaponDetector) (yolo : list detection) (ts_ms : Z)
         (ctx : base.DetectionContext) (now : Q)
         (r : result (list base.Event)) (self' : weapon.WeaponDetector),
    (length (weapon._recent_detections self) <= weapon.dedup_window self)%nat ->
    weapon.process self yolo ts_ms ctx now = (r, self') ->
    (length (weapon._recent_detections self') <= weapon.dedup_window self')%nat.
Proof.
  intros self yolo ts_ms ctx now r self' Hfit E.
  destruct (weapon._configured self) eqn:Hconf.
  2:{ unfold weapon.process in E. rewrite Hconf in E. cbn [negb] in E.
      now injection E as <- <-. }
  rewrite process_unfold in E by assumption. cbv zeta in E.
  destruct (by_class self yolo) as [|d1 rest1].
  { now injection E as <- <-. }
  destruct (by_roi self ctx (d1 :: rest1)) as [dets2|e].
  2:{ now injection E as <- <-. }
  destruct (by_area ctx dets2) as [|d3 rest3].
  { now injection E as <- <-. }
  apply process_loop_inv in E.
  destruct E as (_ & _ & _ & _ & Hring & _). now apply Hring.
Qed.

End Process.

(** The first frame of a detector that confirms at once: one gun. *)
Definition first_frame : result (list base.Event) * weapon.WeaponDetector :=
  @weapon.process plain_hashlib plain_cv2 (weapon_detector 5 1 30)
    [gun_at 100] 1000 plain_ctx 0.

Definition first_frame_events : list base.Event :=
  match fst first_frame with
  | Ok events => events
  | Raise _ => []
  end.

Lemma first_frame_returns :
  @weapon.process plain_hashlib plain_cv2 (weapon_detector 5 1 30)
    [gun_at 100] 1000 plain_ctx 0
  = (Ok first_frame_events, snd first_frame).
Proof. vm_compute. reflexivity. Defined.

Lemma process_events_come_from_yolo_witness :
  length first_frame_events = 1%nat
  /\ sublist (map ev_detection first_frame_events) [gun_at 100]
  /\ Forall (stamped plain_ctx 1000 (weapon._frame_count (snd first_frame)))
       first_frame_events.
Proof.
  split; [reflexivity|].
  pose proof (@process_events_come_from_yolo plain_hashlib plain_cv2 _ _ _ _ _
                _ _ first_frame_returns) as (Hsub & Hst & _).
  split; assumption.
Defined.

Lemma process_counts_every_frame_witness :
  weapon._frame_count (snd first_frame) = 1%Z
  /\ weapon._configured (snd first_frame) = true
  /\ weapon.classes (snd first_frame) = ["gun"; "knife"]
  /\ weapon.dedup_window (snd first_frame) = 30%nat.
Proof.
  exact (@process_counts_every_frame plain_hashlib plain_cv2 _ _ _ _ _ _ _
           first_frame_returns).
Defined.

Lemma process_ring_bounded_witness :
  (length (weapon._recent_detections (snd first_frame))
   <= weapon.dedup_window (snd first_frame))%nat.
Proof.
  apply (@process_ring_bounded plain_hashlib plain_cv2 (weapon_detector 5 1 30)
           [gun_at 100] 1000 plain_ctx 0 (Ok first_frame_events)).
  - vm_compute. lia.
  - exact first_frame_returns.
Defined.

(** ** [KDSClient]: requests, sleeps and the [published] counter *)

Lemma collect_failed_length request results failed :
  kds.collect_failed request results 0 = Ok failed ->
  (length failed <= length request)%nat.
Proof.
  intros E. apply collect_failed_is_failed_of in E. subst failed.
  cbn [skipn]. apply sublist_length, failed_of_sublist.
Qed.

(** The guard of the retry loop. *)
Definition loop_guard (self : kds.KDSClient) (attempt : Z)
  (failed_records : list kds.kinesis_record) : bool :=
  (attempt <=? kds.max_retries self)%Z
  && negb (Nat.eqb (length failed_records) 0).

(** The number of [put_records] requests among the actions of a run. *)
Fixpoint requests (l : list kds.action) : nat :=
  match l with
  | [] => 0
  | kds.Request _ _ :: l' => S (requests l')
  | kds.Sleep _ :: l' => requests l'
  end.

(** The order of the requests and sleeps of one run: it starts with a
    request, exactly one sleep lies between two consecutive requests, and a
    sleep is the last action only when [time.sleep] raised. *)
Inductive paced : list kds.action -> Prop :=
| paced_none : paced []
| paced_last recs out : paced [kds.Request recs out]
| paced_stopped recs out secs e :
    sleep_error secs = Some e ->
    paced [kds.Request recs out; kds.Sleep secs]
| paced_retry recs out secs rest :
    sleep_error secs = None ->
    rest <> [] ->
    paced rest ->
    paced (kds.Request recs out :: kds.Sleep secs :: rest).

(** What one run of the retry loop did: the actions [new] it added to the
    log and the growth of [published]. *)
Definition run_summary (self : kds.KDSClient) (io : kds.Io) (attempt : Z)
  (recs : list kds.kinesis_record) (r : result bool) (self' : kds.KDSClient)
  (io' : kds.Io) (new : list kds.action) : Prop :=
  kds.log io' = kds.log io ++ new
  /\ paced new
  /\ kds.n_put io' = (kds.n_put io + requests new)%nat
  /\ (Z.of_nat (requests new)
      <= Z.max 0 (kds.max_retries self + 1 - attempt))%Z
  /\ (loop_guard self attempt recs = true -> new <> [])
  /\ (loop_guard self attempt recs = false -> new = [])
  /\ (kds.published (kds.metrics self) <= kds.published (kds.metrics self')
      <= kds.published (kds.metrics self) + kds.len recs)%Z
  /\ (r = Ok true ->
      kds.published (kds.metrics self')
      = (kds.published (kds.metrics self) + kds.len recs)%Z)
  /\ (forall l secs,
         new = l ++ [kds.Sleep secs] ->
         exists e, sleep_error secs = Some e
                   /\ (r = Ok false \/ r = Raise e)).

(** Split a conjunction into its parts. *)
Ltac conjuncts := repeat match goal with |- _ /\ _ => split end.

Lemma send_loop_summary (fuel : nat) :
  forall env self io attempt recs r self' io',
    (kds.max_retries self + 1 - attempt <= Z.of_nat fuel)%Z ->
    kds.send_loop fuel env self io attempt recs = (r, self', io') ->
    exists new, run_summary self io attempt recs r self' io' new.
Proof.
  assert (Hstop : forall self io attempt recs r self' io',
             loop_guard self attempt recs = false ->
             match recs with
             | [] => (Ok true, self, io)
             | _ => (Ok false, self, io)
             end = (r, self', io') ->
             exists new, run_summary self io attempt recs r self' io' new).
  { intros self io attempt recs r self' io' Hg E. exists [].
    unfold run_summary. rewrite Hg, List.app_nil_r.
    assert (Hlast : forall l (secs : Q), [] <> l ++ [kds.Sleep secs])
      by (intros [|a l] secs; discriminate).
    destruct recs; injection E as <- <- <-; unfold kds.len; cbn [length requests];
      (split; [reflexivity|]); (split; [constructor|]);
      conjuncts; try lia; try congruence; try discriminate;
      intros l secs Hl; now apply Hlast in Hl. }
  assert (Hend : forall self io (io1 : kds.Io) attempt recs out r0 s0
                        r self' io',
             loop_guard self attempt recs = true ->
             kds.log io1 = kds.log io ++ [kds.Request recs out] ->
             kds.n_put io1 = S (kds.n_put io) ->
             (kds.published (kds.metrics self) <= kds.published (kds.metrics s0)
              <= kds.published (kds.metrics self) + kds.len recs)%Z ->
             (r0 = Ok true ->
              kds.published (kds.metrics s0)
              = (kds.published (kds.metrics self) + kds.len recs)%Z) ->
             (r0, s0, io1) = (r, self', io') ->
             exists new, run_summary self io attempt recs r self' io' new).
  { intros self io io1 attempt recs out r0 s0 r self' io' Hg Hlog Hp Hb Ht E.
    exists [kds.Request recs out]. injection E as <- <- <-.
    unfold run_summary. rewrite Hg, Hlog, Hp.
    unfold loop_guard in Hg. apply andb_prop in Hg as [Hle _].
    apply Z.leb_le in Hle. cbn [requests].
    split; [reflexivity|]. split; [constructor|].
    conjuncts; try lia; try congruence; try discriminate; try assumption.
    intros l secs Hl.
    apply (app_inj_tail [] l (kds.Request recs out) (kds.Sleep secs)) in Hl
      as [_ Hl]. discriminate. }
  assert (Hstopped : forall self io (io1 : kds.Io) attempt recs out secs e
                            r0 s0 r self' io',
             loop_guard self attempt recs = true ->
             kds.log io1
             = (kds.log io ++ [kds.Request recs out]) ++ [kds.Sleep secs] ->
             kds.n_put io1 = S (kds.n_put io) ->
             sleep_error secs = Some e ->
             r0 = Ok false \/ r0 = Raise e ->
             (kds.published (kds.metrics self) <= kds.published (kds.metrics s0)
              <= kds.published (kds.metrics self) + kds.len recs)%Z ->
             (r0, s0, io1) = (r, self', io') ->
             exists new, run_summary self io attempt recs r self' io' new).
  { intros self io io1 attempt recs out secs e r0 s0 r self' io' Hg Hlog Hp
      Herr Hr Hb E.
    exists [kds.Request recs out; kds.Sleep secs]. injection E as <- <- <-.
    unfold run_summary. rewrite Hg, Hlog, Hp, <- List.app_assoc.
    unfold loop_guard in Hg. apply andb_prop in Hg as [Hle _].
    apply Z.leb_le in Hle. cbn [requests app].
    split; [reflexivity|]. split; [econstructor; eassumption|].
    conjuncts; try lia; try congruence; try discriminate; try assumption.
    - intros ->. destruct Hr; discriminate.
    - intros l secs' Hl.
      apply (app_inj_tail [kds.Request recs out] l (kds.Sleep secs)
               (kds.Sleep secs')) in Hl as [_ [= <-]].
      exists e. split; assumption. }
  induction fuel as [|fuel IH]; intros env self io attempt recs r self' io' Hfuel;
    cbn [kds.send_loop]; fold (loop_guard self attempt recs);
    destruct (loop_guard self attempt recs) eqn:Hg;
    try (now apply Hstop).
  { unfold loop_guard in Hg. apply andb_prop in Hg as [Hle _].
    apply Z.leb_le in Hle. cbn in Hfuel. lia. }
  pose proof Hg as Hg'. unfold loop_guard in Hg'.
  apply andb_prop in Hg' as [Hle Hne]. apply Z.leb_le in Hle.
  assert (Hnext : forall self2 io2 next out mid r self' io',
             kds.max_retries self2 = kds.max_retries self ->
             kds.n_put io2 = S (kds.n_put io) ->
             (length next <= length recs)%nat ->
             kds.log io2 = (kds.log io ++ [kds.Request recs out]) ++ mid ->
             (loop_guard self2 (attempt + 1) next = true ->
              exists secs, mid = [kds.Sleep secs] /\ sleep_error secs = None) ->
             (loop_guard self2 (attempt + 1) next = false -> mid = []) ->
             (kds.published (kds.metrics self2)
              = kds.published (kds.metrics self)
                + (kds.len recs - kds.len next))%Z ->
             kds.send_loop fuel env self2 io2 (attempt + 1) next
             = (r, self', io') ->
             exists new, run_summary self io attempt recs r self' io' new).
  { intros self2 io2 next out mid r0 self0 io0 Hmax Hp Hlen Hlog Hslept Hquiet
      Hpub E.
    apply IH in E; [|rewrite Hmax; lia].
    destruct E as (new & E1 & E2 & E3 & E4 & E5 & E6 & E7 & E8 & E9).
    exists (kds.Request recs out :: mid ++ new). unfold run_summary.
    rewrite Hg. rewrite Hmax in E4. unfold kds.len in *.
    destruct (loop_guard self2 (attempt + 1) next) eqn:Hg2.
    - destruct (Hslept eq_refl) as (secs & -> & Hsecs). specialize (E5 eq_refl).
      cbn [app requests].
      split; [rewrite E1, Hlog, <- !List.app_assoc; reflexivity|].
      split; [now constructor|].
      conjuncts; try lia; try congruence; try discriminate; try assumption.
      + intros Hok. specialize (E8 Hok). lia.
      + intros l secs' Hl.
        destruct (exists_last E5) as (front & a & ->).
        change (kds.Request recs out :: kds.Sleep secs :: front ++ [a])
          with ([kds.Request recs out; kds.Sleep secs] ++ front ++ [a]) in Hl.
        rewrite List.app_assoc in Hl.
        apply app_inj_tail in Hl as [_ ->]. now apply (E9 front secs').
    - rewrite (Hquiet eq_refl) in *. specialize (E6 eq_refl). subst new.
      cbn [app requests] in *. rewrite !List.app_nil_r in *.
      split; [rewrite E1, Hlog; reflexivity|].
      split; [constructor|].
      conjuncts; try lia; try congruence; try discriminate; try assumption.
      + intros Hok. specialize (E8 Hok). lia.
      + intros l secs Hl.
        apply (app_inj_tail [] l (kds.Request recs out) (kds.Sleep secs))
          in Hl as [_ Hl]. discriminate. }
  destruct (kds.put_records env (kds.n_put io) recs) as [resp|code msg|].
  - destruct (match kds.FailedRecordCount resp with
              | Some c => c
              | None => 0%Z
              end =? 0)%Z.
    { intros E. eapply Hend; [exact Hg|..|exact E];
        cbn; unfold kds.len; try reflexivity; try lia. }
    assert (Hexc : forall io1 out,
               kds.log io1 = kds.log io ++ [kds.Request recs out] ->
               kds.n_put io1 = S (kds.n_put io) ->
               (Ok false, kds.add_failed (kds.len recs) self, io1)
               = (r, self', io') ->
               exists new, run_summary self io attempt recs r self' io' new).
    { intros io1 out Hlog Hp E. eapply Hend; [exact Hg|exact Hlog|exact Hp|..|exact E];
        cbn; unfold kds.len; try lia; discriminate. }
    destruct (kds.Records resp) as [results|]; [|intros E; eapply Hexc; [| |exact E]; reflexivity].
    destruct (kds.collect_failed recs results 0) as [new_failed|e] eqn:Hcol;
      [|intros E; eapply Hexc; [| |exact E]; reflexivity].
    pose proof (collect_failed_length _ _ _ Hcol) as Hlen.
    destruct (negb (Nat.eqb (length new_failed) 0)
              && (attempt <? kds.max_retries _)%Z) eqn:Hretry;
      cbn [kds.max_retries kds.add_failed kds.add_published kds.set_metrics]
        in Hretry.
    + apply andb_prop in Hretry as [Hn Hlt]. apply Z.ltb_lt in Hlt.
      sleep_cases; intros E.
      * eapply Hstopped; [exact Hg| | |eassumption|left; reflexivity| |exact E];
          cbn; unfold kds.len; try reflexivity; lia.
      * eapply Hnext; [..|exact E]; try reflexivity; try assumption.
        all: try (intros _; eexists; split; [reflexivity|eassumption]).
        all: try (unfold loop_guard; cbn; rewrite Hn, andb_true_r;
                  intros Hg2; apply Z.leb_gt in Hg2; lia).
        all: cbn; lia.
    + eapply Hnext with (mid := []); try reflexivity; try assumption.
      all: try (cbn; now rewrite List.app_nil_r).
      all: try (cbn; lia).
      unfold loop_guard. cbn. intros Hg2. exfalso.
      apply andb_prop in Hg2 as [Hle2 Hn]. apply Z.leb_le in Hle2.
      rewrite Hn in Hretry. cbn [andb] in Hretry.
      apply Z.ltb_ge in Hretry. lia.
  - destruct (kds.retryable code);
      [|intros E; eapply Hend; [exact Hg|..|exact E];
        cbn; unfold kds.len; try reflexivity; try lia; discriminate].
    destruct (attempt <? kds.max_retries self)%Z eqn:Hlt.
    + apply Z.ltb_lt in Hlt. sleep_cases; intros E.
      * eapply Hstopped; [exact Hg| | |eassumption|right; reflexivity| |exact E];
          cbn; unfold kds.len; try reflexivity; lia.
      * eapply Hnext; [..|exact E]; try reflexivity; try assumption; try lia.
        all: try (intros _; eexists; split; [reflexivity|eassumption]).
        all: try (unfold loop_guard; cbn; rewrite Hne, andb_true_r;
                  intros Hg2; apply Z.leb_gt in Hg2; lia).
        all: cbn; lia.
    + apply Z.ltb_ge in Hlt.
      eapply Hnext with (mid := []); try reflexivity; try assumption; try lia.
      all: try (cbn; now rewrite List.app_nil_r).
      all: try (cbn; lia).
      unfold loop_guard. intros Hg2. exfalso.
      apply andb_prop in Hg2 as [Hle2 _]. apply Z.leb_le in Hle2. lia.
  - intros E. eapply Hend; [exact Hg|..|exact E];
      cbn; unfold kds.len; try reflexivity; try lia; discriminate.
Qed.

(** An outcome of [put_records] that the loop does not retry: an exception
    other than [ClientError], or a [ClientError] whose code is neither
    [ProvisionedThroughputExceededException] nor [ServiceUnavailable]. *)
Definition final (outcome : kds.put_records_outcome) : bool :=
  match outcome with
  | kds.Response _ => false
  | kds.ClientError code _ => negb (kds.retryable code)
  | kds.OtherException => true
  end.

(** A service that accepts every record of every request. *)
Definition accepts (env : kds.Env) : Prop :=
  forall n recs,
    match kds.put_records env n recs with
    | kds.Response resp =>
      match kds.FailedRecordCount resp with
      | Some c => c = 0%Z
      | None => True
      end
    | _ => False
    end.

Section Sending.
Context `{Hashlib} `{Json} `{Repr}.

Lemma make_records_length (batch : list (pyval * string)) records :
  kds.make_records batch = Ok records -> length records = length batch.
Proof.
  revert records. induction batch as [|[envelope pk] batch IH];
    intros records; cbn [kds.make_records].
  - now intros [= <-].
  - destruct (json_dumps envelope); [|discriminate].
    destruct (kds.make_records batch) as [more|e]; [|discriminate].
    cbn [rbind]. intros [= <-]. cbn [length]. f_equal. now apply IH.
Qed.

(** X19. One [_send_batch_with_retries] run makes at most
    [max_retries + 1] requests, and its requests and sleeps come in this
    order: a request first, then exactly one sleep between any two
    consecutive requests, never a sleep before the first request. A sleep is
    the last action of the run only when [time.sleep] raised on its
    argument; the run then returns [False] (the sleep of the [try] block) or
    lets that exception escape (the sleep of the [ClientError] handler). The
    run makes no request at all only when the batch is empty, [max_retries]
    is negative or a record cannot be serialised. *)
Theorem send_batch_request_budget :
  forall (env : kds.Env) (self : kds.KDSClient) (io : kds.Io)
         (batch : list (pyval * string)) (r : result bool)
         (self' : kds.KDSClient) (io' : kds.Io),
    kds._send_batch_with_retries env self io batch = (r, self', io') ->
    exists new : list kds.action,
      kds.log io' = kds.log io ++ new
      /\ paced new
      /\ kds.n_put io' = (kds.n_put io + requests new)%nat
      /\ (requests new <= Z.to_nat (kds.max_retries self + 1))%nat
      /\ (new = [] ->
          batch = [] \/ (kds.max_retries self < 0)%Z \/ r = Raise TypeError)
      /\ (forall l secs,
             new = l ++ [kds.Sleep secs] ->
             exists e, sleep_error secs = Some e
                       /\ (r = Ok false \/ r = Raise e)).
Proof.
  intros env self io batch r self' io'. unfold kds._send_batch_with_retries.
  destruct (kds.make_records batch) as [records|e] eqn:Hrec.
  - intros E. apply send_loop_summary in E; [|lia].
    destruct E as (new & E1 & E2 & E3 & E4 & E5 & _ & _ & _ & E9).
    exists new. conjuncts; try assumption; try lia.
    intros ->. apply make_records_length in Hrec.
    destruct batch as [|b batch]; [now left|]. right. left.
    destruct (kds.max_retries self <? 0)%Z eqn:Hneg;
      [now apply Z.ltb_lt in Hneg|].
    apply Z.ltb_ge in Hneg. exfalso.
    assert (Hg : loop_guard self 0 records = true).
    { unfold loop_guard. apply andb_true_intro. split; [now apply Z.leb_le|].
      rewrite Hrec. reflexivity. }
    now specialize (E5 Hg).
  - intros [= <- <- <-]. exists [].
    rewrite List.app_nil_r. cbn [requests].
    conjuncts; try lia; try reflexivity; try apply paced_none.
    + intros _. right. right. f_equal.
      clear -Hrec. revert e Hrec.
      induction batch as [|[envelope pk] batch IH]; intros e;
        cbn [kds.make_records]; [discriminate|].
      destruct (json_dumps envelope); [|now intros [= <-]].
      destruct (kds.make_records batch) as [more|e']; [discriminate|].
      cbn [rbind]. intros [= <-]. now apply IH.
    + intros [|a l] secs; discriminate.
Qed.

(** X20. The [published] counter never counts a record twice: one
    [_send_batch_with_retries] run raises it by at most the size of the
    batch, never lowers it, and raises it by exactly the size of the batch
    when the run returns [True]. *)
Theorem send_batch_published :
  forall (env : kds.Env) (self : kds.KDSClient) (io : kds.Io)
         (batch : list (pyval * string)) (r : result bool)
         (self' : kds.KDSClient) (io' : kds.Io),
    kds._send_batch_with_retries env self io batch = (r, self', io') ->
    (kds.published (kds.metrics self) <= kds.published (kds.metrics self')
     <= kds.published (kds.metrics self) + kds.len batch)%Z
    /\ (r = Ok true ->
        kds.published (kds.metrics self')
        = (kds.published (kds.metrics self) + kds.len batch)%Z).
Proof.
  intros env self io batch r self' io'. unfold kds._send_batch_with_retries.
  destruct (kds.make_records batch) as [records|e] eqn:Hrec.
  - intros E. apply send_loop_summary in E; [|lia].
    destruct E as (new & _ & _ & _ & _ & _ & _ & E7 & E8 & _).
    apply make_records_length in Hrec. unfold kds.len in *.
    rewrite Hrec in E7, E8. split; assumption.
  - intros [= <- <- <-]. unfold kds.len. split; [lia | discriminate].
Qed.

(** X21. An error that is not retryable ends the run at once: when the
    first request fails with an exception other than [ClientError], or with
    a [ClientError] that is neither a throttling nor a service-unavailable
    error, the run returns [False] after that single request, without
    sleeping, and counts the whole batch as failed. *)
Theorem non_retryable_error_is_final :
  forall (env : kds.Env) (self : kds.KDSClient) (io : kds.Io)
         (batch : list (pyval * string)) (records : list kds.kinesis_record),
    kds.make_records batch = Ok records ->
    batch <> [] ->
    (0 <= kds.max_retries self)%Z ->
    final (kds.put_records env (kds.n_put io) records) = true ->
    kds._send_batch_with_retries env self io batch
    = (Ok false, kds.add_failed (kds.len batch) self,
       kds.MkIo (S (kds.n_put io)) (kds.n_rand io)
         (kds.calls io
          ++ [(records, kds.put_records env (kds.n_put io) records)])
         (kds.sleeps io)
         (kds.log io
          ++ [kds.Request records
                (kds.put_records env (kds.n_put io) records)])).
Proof.
  intros env self io batch records Hrec Hne Hmax Hfinal.
  unfold kds._send_batch_with_retries. rewrite Hrec.
  pose proof (make_records_length _ _ Hrec) as Hlen.
  destruct (Z.to_nat (kds.max_retries self + 1)) as [|fuel] eqn:Hfuel; [lia|].
  cbn [kds.send_loop].
  assert (Hg : ((0 <=? kds.max_retries self)%Z
                && negb (Nat.eqb (length records) 0)) = true).
  { apply andb_true_intro. split; [now apply Z.leb_le|].
    rewrite Hlen. destruct batch; [congruence | reflexivity]. }
  rewrite Hg. unfold kds.len. rewrite Hlen.
  destruct (kds.put_records env (kds.n_put io) records) as [resp|code msg|];
    cbn [final] in Hfinal; [discriminate| |reflexivity].
  apply negb_true_iff in Hfinal. now rewrite Hfinal.
Qed.

(** An envelope that [json.dumps] can serialise. *)
Definition sendable (item : pyval * string) : Prop :=
  json_dumps (fst item) <> None.

(** An event for which [put_event] can build a serialisable envelope. *)
Definition publishable (producer_version : string) (event : pyval) : Prop :=
  exists envelope,
    kds._create_event_envelope event producer_version = Ok envelope
    /\ json_dumps envelope <> None.

Lemma make_records_sendable (batch : list (pyval * string)) :
  Forall sendable batch -> exists records, kds.make_records batch = Ok records.
Proof.
  induction batch as [|[envelope pk] batch IH]; intros Hall;
    cbn [kds.make_records]; [eauto|].
  pose proof (List.Forall_inv Hall) as Hhead. unfold sendable in Hhead.
  cbn [fst] in Hhead.
  destruct (IH (List.Forall_inv_tail Hall)) as [more ->].
  destruct (json_dumps envelope); [|congruence]. cbn [rbind]. eauto.
Qed.

(** What the client looks like after a flush that the service accepted. *)
Definition flushed (self : kds.KDSClient) : kds.KDSClient :=
  match kds._batch_buffer self with
  | [] => self
  | _ =>
    kds.add_batches_sent 1
      (kds.add_published (kds.len (kds._batch_buffer self))
         (kds.set_buffer self []))
  end.

Lemma flush_accepted env self io :
  accepts env ->
  (0 <= kds.max_retries self)%Z ->
  Forall sendable (kds._batch_buffer self) ->
  exists io', kds.flush env self io = (Ok true, flushed self, io').
Proof.
  intros Hacc Hmax Hall. unfold kds.flush, flushed.
  destruct (kds._batch_buffer self) as [|item batch] eqn:Hbuf; [eauto|].
  unfold kds._send_batch_with_retries.
  destruct (make_records_sendable _ Hall) as [records Hrec]. rewrite Hrec.
  pose proof (make_records_length _ _ Hrec) as Hlen.
  cbn [kds.max_retries kds.set_buffer].
  destruct (Z.to_nat (kds.max_retries self + 1)) as [|fuel] eqn:Hfuel; [lia|].
  cbn [kds.send_loop].
  change (kds.max_retries (kds.set_buffer self [])) with (kds.max_retries self).
  assert (Hg : ((0 <=? kds.max_retries self)%Z
                && negb (Nat.eqb (length records) 0)) = true).
  { apply andb_true_intro. split; [now apply Z.leb_le|]. now rewrite Hlen. }
  rewrite Hg. specialize (Hacc (kds.n_put io) records).
  destruct (kds.put_records env (kds.n_put io) records) as [resp|code msg|];
    [|contradiction|contradiction].
  unfold kds.len. rewrite Hlen.
  destruct (kds.FailedRecordCount resp) as [c|]; [subst c|]; cbn [Z.eqb];
    eauto.
Qed.

Lemma flushed_facts self :
  kds._batch_buffer (flushed self) = []
  /\ kds.max_retries (flushed self) = kds.max_retries self
  /\ kds.batch_size (flushed self) = kds.batch_size self
  /\ kds.producer_version (flushed self) = kds.producer_version self
  /\ kds.published (kds.metrics (flushed self))
     = (kds.published (kds.metrics self) + kds.len (kds._batch_buffer self))%Z.
Proof.
  unfold flushed. destruct (kds._batch_buffer self) eqn:Hbuf.
  - rewrite Hbuf. unfold kds.len. cbn [length]. repeat split; lia.
  - cbn. repeat split; lia.
Qed.

(** The part of the client that [put_events] relies on, and the number of
    records delivered or waiting. *)
Definition carried (self self' : kds.KDSClient) (more : Z) : Prop :=
  kds.max_retries self' = kds.max_retries self
  /\ kds.batch_size self' = kds.batch_size self
  /\ kds.producer_version self' = kds.producer_version self
  /\ Forall sendable (kds._batch_buffer self')
  /\ (kds.published (kds.metrics self') + kds.len (kds._batch_buffer self')
      = kds.published (kds.metrics self) + kds.len (kds._batch_buffer self)
        + more)%Z.

Lemma put_event_accepted env self io event partition_key :
  accepts env ->
  (0 <= kds.max_retries self)%Z ->
  Forall sendable (kds._batch_buffer self) ->
  publishable (kds.producer_version self) event ->
  exists self' io',
    kds.put_event env self io event partition_key = (Ok true, self', io')
    /\ carried self self' 1.
Proof.
  intros Hacc Hmax Hall (envelope & Henv & Hjson). unfold kds.put_event.
  rewrite Henv.
  set (self1 := kds.set_buffer self
                  (kds._batch_buffer self ++ [(envelope, partition_key)])).
  assert (Hall1 : Forall sendable (kds._batch_buffer self1)).
  { cbn. apply List.Forall_app. split; [assumption|]. now repeat constructor. }
  assert (Hlen1 : kds.len (kds._batch_buffer self1)
                  = (kds.len (kds._batch_buffer self) + 1)%Z).
  { unfold kds.len. cbn. rewrite length_app. cbn [length]. lia. }
  destruct (kds.batch_size self1 <=? kds.len (kds._batch_buffer self1))%Z.
  - destruct (flush_accepted env self1 io Hacc Hmax Hall1) as [io' ->].
    exists (flushed self1), io'. split; [reflexivity|].
    destruct (flushed_facts self1) as (F1 & F2 & F3 & F4 & F5).
    unfold carried. rewrite F1, F2, F3, F4, F5, Hlen1.
    repeat split; try reflexivity; [constructor|]. unfold kds.len. cbn. lia.
  - exists self1, io. split; [reflexivity|]. unfold carried.
    rewrite Hlen1. repeat split; try assumption. cbn. lia.
Qed.

Lemma put_events_loop_accepted env (events : list pyval) partition_key :
  accepts env ->
  forall self io,
    (0 <= kds.max_retries self)%Z ->
    Forall sendable (kds._batch_buffer self) ->
    Forall (publishable (kds.producer_version self)) events ->
    exists self' io',
      kds.put_events_loop env self io events partition_key true
      = (Ok true, self', io')
      /\ carried self self' (kds.len events).
Proof.
  intros Hacc. induction events as [|event events IH];
    intros self io Hmax Hall Hev; cbn [kds.put_events_loop].
  - exists self, io. split; [reflexivity|]. unfold carried, kds.len. cbn.
    repeat split; try assumption. lia.
  - destruct (put_event_accepted env self io event partition_key Hacc Hmax Hall
                (List.Forall_inv Hev)) as (self1 & io1 & -> & C1 & C2 & C3 & C4 & C5).
    destruct (IH self1 io1) as (self2 & io2 & -> & D1 & D2 & D3 & D4 & D5).
    + now rewrite C1.
    + assumption.
    + rewrite C3. exact (List.Forall_inv_tail Hev).
    + exists self2, io2. split; [reflexivity|]. unfold carried, kds.len in *.
      cbn [length]. repeat split; try congruence. lia.
Qed.

(** X22. Against a service that accepts every record, with
    [max_retries >= 0], [put_events] delivers everything: given events whose
    envelopes can be built and serialised, it returns [True], leaves the
    buffer empty, and has raised [published] by the number of events plus
    whatever was waiting in the buffer. *)
Theorem put_events_delivers_all :
  forall (env : kds.Env) (self : kds.KDSClient) (io : kds.Io)
         (events : list pyval) (partition_key : string),
    accepts env ->
    (0 <= kds.max_retries self)%Z ->
    Forall sendable (kds._batch_buffer self) ->
    Forall (publishable (kds.producer_version self)) events ->
    exists self' io',
      kds.put_events env self io events partition_key = (Ok true, self', io')
      /\ kds._batch_buffer self' = []
      /\ kds.published (kds.metrics self')
         = (kds.published (kds.metrics self)
            + kds.len (kds._batch_buffer self) + kds.len events)%Z.
Proof.
  intros env self io events partition_key Hacc Hmax Hall Hev.
  unfold kds.put_events.
  destruct (put_events_loop_accepted env events partition_key Hacc self io
              Hmax Hall Hev) as (self1 & io1 & -> & C1 & C2 & C3 & C4 & C5).
  destruct (flush_accepted env self1 io1 Hacc) as [io2 ->];
    [now rewrite C1 | assumption |].
  exists (flushed self1), io2. split; [reflexivity|].
  destruct (flushed_facts self1) as (F1 & _ & _ & _ & F5).
  split; [exact F1|]. rewrite F5. exact C5.
Qed.

End Sending.

(** One run against the service that rejects two of three records once. *)
Definition partial_run : result bool * kds.KDSClient * kds.Io :=
  @kds._send_batch_with_retries plain_json partial_env client0 kds.io0
    abc_batch.

Lemma partial_run_returns :
  @kds._send_batch_with_retries plain_json partial_env client0 kds.io0
    abc_batch
  = (Ok true, snd (fst partial_run), snd partial_run).
Proof. vm_compute. reflexivity. Defined.

Lemma send_batch_request_budget_witness :
  exists new : list kds.action,
    kds.log (snd partial_run) = kds.log kds.io0 ++ new
    /\ paced new
    /\ kds.n_put (snd partial_run) = (kds.n_put kds.io0 + requests new)%nat
    /\ (requests new <= Z.to_nat (kds.max_retries client0 + 1))%nat
    /\ (new = [] ->
        abc_batch = [] \/ (kds.max_retries client0 < 0)%Z
        \/ Ok true = Raise TypeError)
    /\ (forall l secs,
           new = l ++ [kds.Sleep secs] ->
           exists e, sleep_error secs = Some e
                     /\ (Ok true = Ok false \/ Ok true = Raise e)).
Proof.
  exact (@send_batch_request_budget plain_json partial_env client0 kds.io0
           abc_batch (Ok true) _ _ partial_run_returns).
Defined.

Lemma send_batch_published_witness :
  kds.published (kds.metrics (snd (fst partial_run)))
  = (kds.published (kds.metrics client0) + kds.len abc_batch)%Z.
Proof.
  apply (@send_batch_published plain_json partial_env client0 kds.io0
           abc_batch (Ok true) _ _ partial_run_returns).
  reflexivity.
Defined.

(** A service whose every request fails with an access error. *)
Definition denying_env : kds.Env :=
  kds.MkEnv (fun _ _ => kds.ClientError "AccessDeniedException" "denied")
    (fun _ => 1%Q).

Lemma non_retryable_error_is_final_witness :
  @kds._send_batch_with_retries plain_json denying_env client0 kds.io0
    abc_batch
  = (Ok false, kds.add_failed 3 client0,
     kds.MkIo 1 0
       [([kds.MkRecord "a" "cam-a"; kds.MkRecord "b" "cam-a";
          kds.MkRecord "c" "cam-a"],
         kds.ClientError "AccessDeniedException" "denied")] []
       [kds.Request
          [kds.MkRecord "a" "cam-a"; kds.MkRecord "b" "cam-a";
           kds.MkRecord "c" "cam-a"]
          (kds.ClientError "AccessDeniedException" "denied")]).
Proof.
  apply (@non_retryable_error_is_final plain_json denying_env client0 kds.io0
           abc_batch
           [kds.MkRecord "a" "cam-a"; kds.MkRecord "b" "cam-a";
            kds.MkRecord "c" "cam-a"]).
  - reflexivity.
  - discriminate.
  - vm_compute. discriminate.
  - reflexivity.
Defined.

(** A service that accepts everything. *)
Definition accepting_env : kds.Env :=
  kds.MkEnv
    (fun _ _ => kds.Response (kds.MkResponse (Some 0%Z) (Some [])))
    (fun _ => 1%Q).

Lemma put_events_delivers_all_witness :
  exists self' io',
    @kds.put_events plain_hashlib plain_json plain_repr accepting_env client0 kds.io0
      [sample_event; sample_event; sample_event] "cam-a"
    = (Ok true, self', io')
    /\ kds._batch_buffer self' = []
    /\ kds.published (kds.metrics self')
       = (kds.published (kds.metrics client0)
          + kds.len (kds._batch_buffer client0)
          + kds.len [sample_event; sample_event; sample_event])%Z.
Proof.
  assert (Hev : @publishable plain_hashlib plain_json plain_repr
                  (kds.producer_version client0) sample_event).
  { eexists. split; [reflexivity | discriminate]. }
  apply (@put_events_delivers_all plain_hashlib plain_json plain_repr accepting_env
           client0 kds.io0 [sample_event; sample_event; sample_event] "cam-a").
  - intros n recs. reflexivity.
  - vm_compute. discriminate.
  - constructor.
  - repeat constructor; exact Hev.
Defined.

(** ** DynamoDB writer *)

Lemma convert_floats_without_float :
  forall obj : pyval,
    ddb.has_float obj = false -> ddb._convert_floats_to_decimal obj = obj.
Proof.
  fix IH 1. intros [ | b | z | q | s | q | l | d | t]; simpl;
    try reflexivity; try discriminate.
  - intros Hf. f_equal. induction l as [|item l IHl]; [reflexivity|].
    apply orb_false_elim in Hf as [Hitem Hrest].
    rewrite (IH item Hitem). f_equal. exact (IHl Hrest).
  - intros Hf. f_equal. induction d as [|[k v] d IHd]; [reflexivity|].
    apply orb_false_elim in Hf as [Hv Hrest].
    rewrite (IH v Hv). f_equal. exact (IHd Hrest).
Qed.

(** X23. [_convert_floats_to_decimal] is idempotent, and it returns a value
    that holds no float unchanged. *)
Theorem convert_floats_idempotent :
  forall obj : pyval,
    ddb._convert_floats_to_decimal (ddb._convert_floats_to_decimal obj)
    = ddb._convert_floats_to_decimal obj
    /\ (ddb.has_float obj = false -> ddb._convert_floats_to_decimal obj = obj).
Proof.
  intros obj. split; [|apply convert_floats_without_float].
  revert obj. fix IH 1.
  intros [ | b | z | q | s | q | l | d | t]; simpl; try reflexivity.
  - f_equal. induction l as [|item l IHl]; [reflexivity|].
    rewrite (IH item). f_equal. exact IHl.
  - f_equal. induction d as [|[k v] d IHd]; [reflexivity|].
    rewrite (IH v). f_equal. exact IHd.
Qed.

Lemma convert_floats_idempotent_witness :
  ddb._convert_floats_to_decimal (PyList [PyInt 3; PyStr "gun"; PyDecimal 1])
  = PyList [PyInt 3; PyStr "gun"; PyDecimal 1].
Proof.
  apply (proj2 (convert_floats_idempotent
                  (PyList [PyInt 3; PyStr "gun"; PyDecimal 1]))).
  reflexivity.
Defined.

(** X24. Round trip: converting the floats of a value to [Decimal] and then
    the decimals back to [float] gives the value back, provided it held no
    [Decimal] to begin with; every decimal of the intermediate value is
    gone afterwards. *)
Theorem convert_round_trip :
  forall obj : pyval,
    ddb.has_decimal obj = false ->
    ddb._convert_decimal_to_float (ddb._convert_floats_to_decimal obj) = obj.
Proof.
  fix IH 1. intros [ | b | z | q | s | q | l | d | t]; simpl;
    try reflexivity; try discriminate.
  - intros Hd. f_equal. induction l as [|item l IHl]; [reflexivity|].
    apply orb_false_elim in Hd as [Hitem Hrest].
    rewrite (IH item Hitem). f_equal. exact (IHl Hrest).
  - intros Hd. f_equal. induction d as [|[k v] d IHd]; [reflexivity|].
    apply orb_false_elim in Hd as [Hv Hrest].
    rewrite (IH v Hv). f_equal. exact (IHd Hrest).
Qed.

Lemma convert_round_trip_witness :
  ddb._convert_decimal_to_float (ddb._convert_floats_to_decimal sample_envelope)
  = sample_envelope.
Proof. apply (convert_round_trip sample_envelope). reflexivity. Defined.

(** The attributes of an item, in the order [_prepare_item] writes them. *)
Definition item_keys (self : ddb.DDBWriter) : list string :=
  ["event_id"; "camera_id"; "producer"; "ts_ms"; "type"; "label"; "conf";
   "bbox"; "extras"]
  ++ match ddb.ttl_days self with
     | Some _ => ["ttl"]
     | None => []
     end.

(** X25. The item built by [_prepare_item] is a dict with exactly the nine
    flattened attributes, followed by [ttl] when [ttl_days] is set, and
    then [ttl] is [int(now) + ttl_days * 86400]. An envelope dict that
    lacks [payload], [event_id], [camera_id] or [producer] gives
    [KeyError]. *)
Theorem prepare_item_fields :
  (forall (self : ddb.DDBWriter) (event : pyval) (now : Q) (item : pyval),
      ddb._prepare_item self event now = Ok item ->
      exists d,
        item = PyDict d
        /\ map fst d = item_keys self
        /\ (forall days, ddb.ttl_days self = Some days ->
              dict_get d "ttl" = Some (PyInt (py_int now + days * 86400))))
  /\ (forall (self : ddb.DDBWriter) (d : list (string * pyval)) (now : Q)
             (k : string),
         In k ["payload"; "event_id"; "camera_id"; "producer"] ->
         dict_get d k = None ->
         ddb._prepare_item self (PyDict d) now = Raise KeyError).
Proof.
  split.
  - intros self event now item. unfold ddb._prepare_item, rbind, item_keys.
    repeat match goal with
           | |- match ?r with Ok _ => _ | Raise _ => _ end = _ -> _ =>
             destruct r; [|discriminate]
           end.
    intros E. apply Ok_inj in E. subst item.
    destruct (ddb.ttl_days self) as [days|]; cbn; eexists;
      (split; [reflexivity|]); (split; [reflexivity|]).
    + now intros days' [= <-].
    + intros days' [=].
  - intros self d now k Hk Hnone. unfold ddb._prepare_item. cbn [py_getitem].
    destruct (dict_get d "payload") eqn:E1; [|reflexivity].
    destruct (dict_get d "event_id") eqn:E2; [|reflexivity].
    destruct (dict_get d "camera_id") eqn:E3; [|reflexivity].
    destruct (dict_get d "producer") eqn:E4; [|reflexivity].
    exfalso. cbn [In] in Hk.
    destruct Hk as [<-|[<-|[<-|[<-|[]]]]]; congruence.
Qed.

Lemma prepare_item_fields_witness :
  exists d,
    ddb._prepare_item (ddb.MkDDBWriter "events" "us-east-1" (Some 30%Z))
      sample_envelope 1000
    = Ok (PyDict d)
    /\ map fst d = item_keys (ddb.MkDDBWriter "events" "us-east-1" (Some 30%Z))
    /\ dict_get d "ttl" = Some (PyInt (py_int 1000 + 30 * 86400)).
Proof.
  destruct (ddb._prepare_item (ddb.MkDDBWriter "events" "us-east-1" (Some 30%Z))
              sample_envelope 1000) as [item|e] eqn:E; [|discriminate E].
  destruct (proj1 prepare_item_fields _ _ _ _ E) as (d & -> & Hkeys & Httl).
  exists d. split; [reflexivity|]. split; [exact Hkeys|].
  now apply Httl.
Defined.

Lemma prepare_not_dict env self io event :
  (forall d, event <> PyDict d) ->
  exists e, ddb.prepare env self io event = (Raise e, io).
Proof.
  intros Hnd. unfold ddb.prepare.
  assert (Hr : forall now, ddb._prepare_item self event now = Raise TypeError).
  { intros now. unfold ddb._prepare_item.
    destruct event; try reflexivity. now destruct (Hnd d). }
  rewrite Hr. destruct (ddb.ttl_days self); eauto.
Qed.

(** X26. [DDBWriter.put_event] counts every event it is given exactly once:
    for a dict it returns [True] with [written] one higher, or [False] with
    [failed] one higher, and never raises, whatever the table does. For
    anything that is not a dict the error handler itself fails: the call
    raises [AttributeError], nothing is written and no counter moves. *)
Theorem put_event_counts_once :
  forall (env : ddb.Env) (self : ddb.DDBWriter) (m : ddb.Metrics) (io : ddb.Io)
         (event : pyval) (r : result bool) (m' : ddb.Metrics) (io' : ddb.Io),
    ddb.put_event env self m io event = (r, m', io') ->
    match event with
    | PyDict _ =>
      (r = Ok true /\ m' = ddb.add_written 1 m
       /\ length (ddb.put_calls io') = S (length (ddb.put_calls io)))
      \/ (r = Ok false /\ m' = ddb.add_failed 1 m)
    | _ =>
      r = Raise AttributeError /\ m' = m /\ ddb.put_calls io' = ddb.put_calls io
    end.
Proof.
  intros env self m io event r m' io'. unfold ddb.put_event.
  assert (Hcalls : forall r1 io1,
             ddb.prepare env self io event = (r1, io1) ->
             ddb.put_calls io1 = ddb.put_calls io).
  { unfold ddb.prepare. intros r1 io1.
    destruct (ddb.ttl_days self), (ddb._prepare_item self event 0);
      now intros [= <- <-]. }
  destruct event as [ | b | z | q | s | q | l | d | t].
  8:{ destruct (ddb.prepare env self io (PyDict d)) as [[item|e] io1] eqn:Hp.
      - specialize (Hcalls _ _ eq_refl).
        destruct (ddb.put_item env (length (ddb.put_calls io1)) item);
          cbn [ddb.put_event_failed]; intros [= <- <- <-].
        + left. repeat split. cbn. rewrite length_app, Hcalls. cbn. lia.
        + now right.
        + now right.
      - cbn [ddb.put_event_failed]. intros [= <- <- <-]. now right. }
  all: match goal with
       | |- context [ddb.prepare ?env ?self ?io ?ev] =>
         destruct (prepare_not_dict env self io ev) as [e ->];
           [discriminate|]
       end;
    cbn [ddb.put_event_failed]; intros [= <- <- <-]; now repeat split.
Qed.

Lemma put_event_counts_once_witness :
  (fst (fst (ddb.put_event
               (ddb.MkEnv (fun _ _ => ddb.OtherException)
                  (fun _ _ => ddb.Written) (fun _ => 0%Q))
               (ddb.MkDDBWriter "events" "us-east-1" None)
               (ddb.MkMetrics 0 0 0) ddb.io0 sample_envelope))
   = Ok false)
  /\ snd (fst (ddb.put_event
                 (ddb.MkEnv (fun _ _ => ddb.OtherException)
                    (fun _ _ => ddb.Written) (fun _ => 0%Q))
                 (ddb.MkDDBWriter "events" "us-east-1" None)
                 (ddb.MkMetrics 0 0 0) ddb.io0 sample_envelope))
     = ddb.add_failed 1 (ddb.MkMetrics 0 0 0).
Proof.
  destruct (ddb.put_event
              (ddb.MkEnv (fun _ _ => ddb.OtherException)
                 (fun _ _ => ddb.Written) (fun _ => 0%Q))
              (ddb.MkDDBWriter "events" "us-east-1" None)
              (ddb.MkMetrics 0 0 0) ddb.io0 sample_envelope)
    as [[r m'] io'] eqn:E.
  pose proof (put_event_counts_once _ _ _ _ _ _ _ _ E) as Hcount.
  cbn [sample_envelope] in Hcount.
  destruct Hcount as [(Hr & _ & _)|(Hr & Hm)].
  - exfalso. subst r. vm_compute in E. discriminate E.
  - now split.
Defined.

Lemma prepare_keeps_calls env self io event r io' :
  ddb.prepare env self io event = (r, io') ->
  ddb.put_calls io' = ddb.put_calls io
  /\ ddb.batch_calls io' = ddb.batch_calls io.
Proof.
  unfold ddb.prepare.
  destruct (ddb.ttl_days self), (ddb._prepare_item self event 0);
    now intros [= <- <-].
Qed.

Lemma prepare_all_keeps_calls env self (batch : list pyval) :
  forall io r io',
    ddb.prepare_all env self io batch = (r, io') ->
    ddb.put_calls io' = ddb.put_calls io
    /\ ddb.batch_calls io' = ddb.batch_calls io
    /\ (forall items, r = Ok items -> length items = length batch).
Proof.
  induction batch as [|event batch IH]; intros io r io'; cbn [ddb.prepare_all].
  - intros [= <- <-]. repeat split. now intros items [= <-].
  - destruct (ddb.prepare env self io event) as [[item|e] io1] eqn:Hp;
      destruct (prepare_keeps_calls _ _ _ _ _ _ Hp) as [P1 P2].
    + destruct (ddb.prepare_all env self io1 batch) as [[items|e] io2] eqn:Hall;
        destruct (IH _ _ _ Hall) as (A1 & A2 & A3);
        intros [= <- <-]; (split; [congruence|]); (split; [congruence|]).
      * intros items' [= <-]. cbn [length]. f_equal. now apply A3.
      * intros items' [=].
    + intros [= <- <-]. repeat split; try assumption. intros items [=].
Qed.

(** What one [_write_batch] call did to the counters and to the table. *)
Definition batch_outcome (m : ddb.Metrics) (io : ddb.Io) (batch : list pyval)
  (ok : bool) (m' : ddb.Metrics) (io' : ddb.Io) : Prop :=
  ddb.put_calls io' = ddb.put_calls io
  /\ (if ok
      then m' = ddb.add_batches_sent 1
                  (ddb.add_written (Z.of_nat (length batch)) m)
           /\ exists items,
                ddb.batch_calls io' = ddb.batch_calls io ++ [items]
                /\ length items = length batch
      else m' = ddb.add_failed (Z.of_nat (length batch)) m
           /\ (ddb.batch_calls io' = ddb.batch_calls io
               \/ exists items,
                    ddb.batch_calls io' = ddb.batch_calls io ++ [items]
                    /\ length items = length batch)).

Lemma write_batch_outcome env self m io batch ok m' io' :
  ddb._write_batch env self m io batch = (ok, m', io') ->
  batch_outcome m io batch ok m' io'.
Proof.
  unfold ddb._write_batch, batch_outcome.
  destruct (ddb.prepare_all env self io batch) as [[items|e] io1] eqn:Hall;
    destruct (prepare_all_keeps_calls _ _ _ _ _ _ Hall) as (A1 & A2 & A3).
  - specialize (A3 items eq_refl).
    destruct (ddb.batch_writer env (length (ddb.batch_calls io1)) items);
      intros [= <- <- <-]; cbn [ddb.put_calls ddb.batch_calls];
      rewrite A2; (split; [assumption|]); (split; [reflexivity|]); eauto.
  - intros [= <- <- <-]. split; [assumption|]. split; [reflexivity|]. now left.
Qed.

(** The slices [events[i:i + 25]] for [i] in [range(0, len(events), 25)]. *)
Definition slices {A} (l : list A) (n : nat) : list (list A) :=
  map (fun k => firstn 25 (skipn (k * 25) l)) (seq 0 n).

Lemma slices_cover {A} (n : nat) :
  forall l : list A,
    (length l <= n * 25)%nat ->
    (n = 0%nat \/ ((n - 1) * 25 < length l)%nat) ->
    concat (slices l n) = l
    /\ Forall (fun b => (1 <= length b <= 25)%nat) (slices l n).
Proof.
  unfold slices. induction n as [|n IH]; intros l Hup Hlow.
  - destruct l; [|cbn in Hup; lia]. split; [reflexivity | constructor].
  - cbn [seq map concat]. rewrite <- seq_shift, map_map.
    assert (Hshift : forall k,
               firstn 25 (skipn (S k * 25) l)
               = firstn 25 (skipn (k * 25) (skipn 25 l))).
    { intros k. rewrite List.skipn_skipn.
      now replace (S k * 25)%nat with (k * 25 + 25)%nat by lia. }
    rewrite (map_ext _ _ Hshift).
    destruct (IH (skipn 25 l)) as [Hcat Hall].
    { rewrite length_skipn. lia. }
    { destruct n as [|n]; [now left|]. right. rewrite length_skipn. lia. }
    rewrite Hcat. change (skipn (0 * 25) l) with l. split.
    + apply firstn_skipn.
    + constructor; [|exact Hall]. rewrite length_firstn.
      destruct Hlow as [Hz|Hlow]; [discriminate|]. lia.
Qed.

Lemma put_events_batches {A} (l : list A) :
  map (fun i => ddb.py_slice l i (i + ddb.batch_size))
    (ddb.batch_starts (length l))
  = slices l ((length l + 24) / 25).
Proof.
  unfold ddb.batch_starts, slices, ddb.py_slice, ddb.batch_size.
  rewrite map_map. apply map_ext. intros k.
  now replace (k * 25 + 25 - k * 25)%nat with 25%nat by lia.
Qed.

Lemma batch_count_bounds (len : nat) :
  (len <= (len + 24) / 25 * 25)%nat
  /\ ((len + 24) / 25 = 0%nat \/ (((len + 24) / 25 - 1) * 25 < len)%nat).
Proof.
  pose proof (Nat.div_mod_eq (len + 24) 25) as Hdm.
  pose proof (Nat.mod_upper_bound (len + 24) 25 ltac:(lia)) as Hmod.
  split; [lia|]. destruct ((len + 24) / 25)%nat eqn:Hq; [now left|right; lia].
Qed.

Lemma write_batches_counts env self (batches : list (list pyval)) :
  Forall (fun b => (1 <= length b <= 25)%nat) batches ->
  forall m io all_success ok m' io',
    ddb.write_batches env self m io batches all_success = (ok, m', io') ->
    (ddb.written m' + ddb.failed m'
     = ddb.written m + ddb.failed m + Z.of_nat (length (concat batches)))%Z
    /\ (ddb.written m <= ddb.written m')%Z
    /\ (ddb.failed m <= ddb.failed m')%Z
    /\ (ok = true <-> all_success = true /\ ddb.failed m' = ddb.failed m)
    /\ ddb.put_calls io' = ddb.put_calls io
    /\ exists sent,
         ddb.batch_calls io' = ddb.batch_calls io ++ sent
         /\ Forall (fun items => (1 <= length items <= 25)%nat) sent
         /\ (length sent <= length batches)%nat.
Proof.
  induction batches as [|batch batches IH]; intros Hsize m io all_success ok m' io';
    cbn [ddb.write_batches].
  - intros [= <- <- <-]. cbn. repeat split; try lia; try tauto.
    exists []. rewrite app_nil_r. repeat split; [constructor | cbn; lia].
  - pose proof (List.Forall_inv Hsize) as Hb.
    destruct (ddb._write_batch env self m io batch) as [[ok1 m1] io1] eqn:Hw.
    apply write_batch_outcome in Hw. destruct Hw as [Hput Hw].
    intros E. apply (IH (List.Forall_inv_tail Hsize)) in E.
    destruct E as (E1 & E2 & E3 & E4 & E5 & sent & E6 & E7 & E8).
    cbn [concat]. rewrite length_app.
    destruct ok1.
    + destruct Hw as (-> & items & Hcalls & Hlen).
      cbn [ddb.written ddb.failed ddb.add_batches_sent ddb.add_written] in *.
      repeat split; try lia; try tauto; try congruence.
      exists (items :: sent). rewrite E6, Hcalls, <- app_assoc.
      split; [reflexivity|]. split; [constructor; [lia|assumption]|].
      cbn [length]. lia.
    + destruct Hw as (-> & Hcalls).
      cbn [ddb.written ddb.failed ddb.add_failed] in *.
      split; [lia|]. split; [lia|]. split; [lia|].
      split; [split; [intros Hok; apply E4 in Hok; destruct Hok; discriminate
                     | intros [_ Hf]; lia]|].
      split; [congruence|].
      destruct Hcalls as [Hcalls|(items & Hcalls & Hlen)].
      * exists sent. rewrite E6, Hcalls. repeat split; [assumption|].
        cbn [length]. lia.
      * exists (items :: sent). rewrite E6, Hcalls, <- app_assoc.
        split; [reflexivity|]. split; [constructor; [lia|assumption]|].
        cbn [length]. lia.
Qed.

(** X27. [DDBWriter.put_events] counts every event exactly once, as written
    or as failed, and never lowers a counter; it returns [True] exactly
    when no event was counted as failed; it hands the table at most
    [ceil(len(events) / 25)] batches, each of 1 to 25 items, and never
    calls [put_item]. *)
Theorem put_events_counts_every_event :
  forall (env : ddb.Env) (self : ddb.DDBWriter) (m : ddb.Metrics) (io : ddb.Io)
         (events : list pyval) (ok : bool) (m' : ddb.Metrics) (io' : ddb.Io),
    ddb.put_events env self m io events = (ok, m', io') ->
    (ddb.written m' + ddb.failed m'
     = ddb.written m + ddb.failed m + Z.of_nat (length events))%Z
    /\ (ddb.written m <= ddb.written m')%Z
    /\ (ddb.failed m <= ddb.failed m')%Z
    /\ (ok = true <-> ddb.failed m' = ddb.failed m)
    /\ ddb.put_calls io' = ddb.put_calls io
    /\ exists sent,
         ddb.batch_calls io' = ddb.batch_calls io ++ sent
         /\ Forall (fun items => (1 <= length items <= 25)%nat) sent
         /\ (length sent <= (length events + 24) / 25)%nat.
Proof.
  intros env self m io events ok m' io'. unfold ddb.put_events.
  destruct events as [|event events].
  - intros [= <- <- <-]. cbn. repeat split; try lia.
    exists []. rewrite app_nil_r. repeat split; [constructor | cbn; lia].
  - rewrite put_events_batches.
    destruct (batch_count_bounds (length (event :: events))) as [Hup Hlow].
    destruct (slices_cover _ (event :: events) Hup Hlow) as [Hcat Hall].
    intros E. apply (write_batches_counts _ _ _ Hall) in E.
    destruct E as (E1 & E2 & E3 & E4 & E5 & sent & E6 & E7 & E8).
    rewrite Hcat in E1. unfold slices in E8.
    rewrite length_map, length_seq in E8.
    repeat split; try assumption; try tauto.
    exists sent. repeat split; assumption.
Qed.

(** Thirty envelopes, of which the table accepts the first batch only. *)
Definition thirty_events : list pyval := repeat sample_envelope 30.

Definition first_batch_only : ddb.Env :=
  ddb.MkEnv (fun _ _ => ddb.Written)
    (fun n _ =>
       match n with
       | O => ddb.Written
       | _ => ddb.ClientError "ProvisionedThroughputExceededException" "slow"
       end)
    (fun _ => 0%Q).

Lemma put_events_counts_every_event_witness :
  ddb.put_events first_batch_only (ddb.MkDDBWriter "events" "us-east-1" None)
    (ddb.MkMetrics 0 0 0) ddb.io0 thirty_events
  = (false, ddb.MkMetrics 25 5 1,
     snd (ddb.put_events first_batch_only
            (ddb.MkDDBWriter "events" "us-east-1" None)
            (ddb.MkMetrics 0 0 0) ddb.io0 thirty_events))
  /\ (25 + 5 = 0 + 0 + Z.of_nat (length thirty_events))%Z.
Proof.
  assert (E : ddb.put_events first_batch_only
                (ddb.MkDDBWriter "events" "us-east-1" None)
                (ddb.MkMetrics 0 0 0) ddb.io0 thirty_events
              = (false, ddb.MkMetrics 25 5 1,
                 snd (ddb.put_events first_batch_only
                        (ddb.MkDDBWriter "events" "us-east-1" None)
                        (ddb.MkMetrics 0 0 0) ddb.io0 thirty_events))).
  { vm_compute. reflexivity. }
  split; [exact E|].
  exact (proj1 (put_events_counts_every_event _ _ _ _ _ _ _ _ E)).
Defined.

(** ** HLS frame source: exceptions, statistics and URL refresh *)

Section FrameSource.
Context (env : kvs_hls.Env) (cfg : kvs_hls.Config).

(** A computation that never raises. *)
Definition no_raise {A} (m : kvs_hls.M A) : Prop :=
  forall st io e st' io', m st io <> (Raise e, st', io').

(** The error counter is at or above the cap and the exception is
    [FrameSourceError]. *)
Definition fatal (e : exn) (st' : kvs_hls.State) : Prop :=
  e = FrameSourceError
  /\ (kvs_hls.max_consecutive_errors cfg <= kvs_hls._consecutive_errors st')%Z.

(** The exception is the one [time.sleep] raised on the delay it was last
    given. *)
Definition sleep_rejected (e : exn) (io' : kvs_hls.Io) : Prop :=
  exists l delay,
    kvs_hls.sleeps io' = l ++ [delay] /\ sleep_error delay = Some e.

(** A computation whose only exceptions are the fatal error and a rejected
    backoff sleep. *)
Definition fatal_only {A} (m : kvs_hls.M A) : Prop :=
  forall st io e st' io',
    m st io = (Raise e, st', io') -> fatal e st' \/ sleep_rejected e io'.

(** States with the same frame statistics. *)
Definition same_frames (st st' : kvs_hls.State) : Prop :=
  kvs_hls.frames_total (kvs_hls.metrics st')
  = kvs_hls.frames_total (kvs_hls.metrics st)
  /\ kvs_hls.last_frame_timestamp (kvs_hls.metrics st')
     = kvs_hls.last_frame_timestamp (kvs_hls.metrics st).

Definition keeps_frames {A} (m : kvs_hls.M A) : Prop :=
  forall st io r st' io', m st io = (r, st', io') -> same_frames st st'.

Lemma same_frames_refl st : same_frames st st.
Proof. now split. Qed.

Lemma same_frames_trans st1 st2 st3 :
  same_frames st1 st2 -> same_frames st2 st3 -> same_frames st1 st3.
Proof. intros [A1 A2] [B1 B2]. split; congruence. Qed.

Lemma no_raise_bind {A B} (m : kvs_hls.M A) (k : A -> kvs_hls.M B) :
  no_raise m -> (forall a, no_raise (k a)) -> no_raise (kvs_hls.bind m k).
Proof.
  intros Hm Hk st io e st' io'. unfold kvs_hls.bind.
  destruct (m st io) as [[[a|e1] st1] io1] eqn:E; [apply Hk|].
  exfalso. exact (Hm _ _ _ _ _ E).
Qed.

Lemma no_raise_try {A} (m handler : kvs_hls.M A) :
  no_raise handler -> no_raise (kvs_hls.try_except m handler).
Proof.
  intros Hh st io e st' io'. unfold kvs_hls.try_except.
  destruct (m st io) as [[[a|e1] st1] io1]; [discriminate | apply Hh].
Qed.

Lemma fatal_of_no_raise {A} (m : kvs_hls.M A) : no_raise m -> fatal_only m.
Proof. intros Hm st io e st' io' E. exfalso. exact (Hm _ _ _ _ _ E). Qed.

Lemma fatal_bind {A B} (m : kvs_hls.M A) (k : A -> kvs_hls.M B) :
  fatal_only m -> (forall a, fatal_only (k a)) -> fatal_only (kvs_hls.bind m k).
Proof.
  intros Hm Hk st io e st' io'. unfold kvs_hls.bind.
  destruct (m st io) as [[[a|e1] st1] io1] eqn:E; [apply Hk|].
  intros [= <- <- <-]. exact (Hm _ _ _ _ _ E).
Qed.

Lemma fatal_try {A} (m handler : kvs_hls.M A) :
  fatal_only handler -> fatal_only (kvs_hls.try_except m handler).
Proof.
  intros Hh st io e st' io'. unfold kvs_hls.try_except.
  destruct (m st io) as [[[a|e1] st1] io1]; [discriminate | apply Hh].
Qed.

Lemma keeps_bind {A B} (m : kvs_hls.M A) (k : A -> kvs_hls.M B) :
  keeps_frames m -> (forall a, keeps_frames (k a)) ->
  keeps_frames (kvs_hls.bind m k).
Proof.
  intros Hm Hk st io r st' io'. unfold kvs_hls.bind.
  destruct (m st io) as [[[a|e1] st1] io1] eqn:E.
  - intros E2. eapply same_frames_trans; [exact (Hm _ _ _ _ _ E)|].
    exact (Hk _ _ _ _ _ _ E2).
  - intros [= <- <- <-]. exact (Hm _ _ _ _ _ E).
Qed.

Lemma keeps_try {A} (m handler : kvs_hls.M A) :
  keeps_frames m -> keeps_frames handler ->
  keeps_frames (kvs_hls.try_except m handler).
Proof.
  intros Hm Hh st io r st' io'. unfold kvs_hls.try_except.
  destruct (m st io) as [[[a|e1] st1] io1] eqn:E.
  - intros [= <- <- <-]. exact (Hm _ _ _ _ _ E).
  - intros E2. eapply same_frames_trans; [exact (Hm _ _ _ _ _ E)|].
    exact (Hh _ _ _ _ _ E2).
Qed.

(** The primitive steps. *)
Ltac primitive :=
  intros ? ? ? ? ?;
  cbv [kvs_hls.ret kvs_hls.get kvs_hls.modify kvs_hls.raise kvs_hls.time_time
       kvs_hls.random_uniform kvs_hls.time_sleep kvs_hls.capture_not_open
       kvs_hls.capture_read_frame kvs_hls.open_capture kvs_hls._get_hls_url];
  repeat match goal with
         | |- context [match ?x with _ => _ end] => destruct x
         end;
  first [ discriminate
        | intros [= <- <- <-]; split; reflexivity ].

Lemma no_raise_ret {A} (a : A) : no_raise (kvs_hls.ret a).
Proof. primitive. Qed.

Lemma no_raise_get : no_raise kvs_hls.get.
Proof. primitive. Qed.

Lemma no_raise_modify f : no_raise (kvs_hls.modify f).
Proof. primitive. Qed.

Lemma no_raise_time_time : no_raise (kvs_hls.time_time env).
Proof. primitive. Qed.

Lemma no_raise_random_uniform : no_raise (kvs_hls.random_uniform env).
Proof. primitive. Qed.

Lemma fatal_time_sleep d : fatal_only (kvs_hls.time_sleep d).
Proof.
  intros st io e st' io'. unfold kvs_hls.time_sleep, time_sleep_result.
  destruct (sleep_error d) as [e'|] eqn:Hd; [|discriminate].
  intros [= <- <- <-]. right. exists (kvs_hls.sleeps io), d. now split.
Qed.

Lemma no_raise_capture_not_open : no_raise (kvs_hls.capture_not_open env).
Proof. primitive. Qed.

Lemma keeps_ret {A} (a : A) : keeps_frames (kvs_hls.ret a).
Proof. primitive. Qed.

Lemma keeps_raise {A} e : keeps_frames (@kvs_hls.raise A e).
Proof. primitive. Qed.

Lemma keeps_get : keeps_frames kvs_hls.get.
Proof. primitive. Qed.

Lemma keeps_modify f :
  (forall st, same_frames st (f st)) -> keeps_frames (kvs_hls.modify f).
Proof. intros Hf st io r st' io' [= <- <- <-]. apply Hf. Qed.

Lemma keeps_time_time : keeps_frames (kvs_hls.time_time env).
Proof. primitive. Qed.

Lemma keeps_random_uniform : keeps_frames (kvs_hls.random_uniform env).
Proof. primitive. Qed.

Lemma keeps_time_sleep d : keeps_frames (kvs_hls.time_sleep d).
Proof. primitive. Qed.

Lemma keeps_capture_not_open : keeps_frames (kvs_hls.capture_not_open env).
Proof. primitive. Qed.

Lemma keeps_capture_read_frame : keeps_frames (kvs_hls.capture_read_frame env).
Proof. primitive. Qed.

Lemma keeps_open_capture : keeps_frames (kvs_hls.open_capture env).
Proof. primitive. Qed.

Lemma keeps_get_hls_url : keeps_frames (kvs_hls._get_hls_url env).
Proof. primitive. Qed.

Create HintDb hls.

#[local] Hint Resolve no_raise_ret no_raise_get no_raise_modify
  no_raise_time_time no_raise_random_uniform fatal_time_sleep
  no_raise_capture_not_open keeps_ret keeps_raise keeps_get keeps_time_time
  keeps_random_uniform keeps_time_sleep keeps_capture_not_open
  keeps_capture_read_frame keeps_open_capture keeps_get_hls_url : hls.

(** Goals of the three kinds, by the structure of the computation. *)
Ltac by_structure :=
  repeat first
    [ solve [auto with hls]
    | apply keeps_modify; intros ?; split; reflexivity
    | apply no_raise_bind; [|intros ?]
    | apply no_raise_try
    | apply fatal_bind; [|intros ?]
    | apply fatal_try
    | apply keeps_bind; [|intros ?]
    | apply keeps_try
    | match goal with
      | |- no_raise (if ?b then _ else _) => destruct b
      | |- no_raise (match ?x with _ => _ end) => destruct x
      | |- fatal_only (if ?b then _ else _) => destruct b
      | |- fatal_only (match ?x with _ => _ end) => destruct x
      | |- keeps_frames (if ?b then _ else _) => destruct b
      | |- keeps_frames (match ?x with _ => _ end) => destruct x
      end
    | apply fatal_of_no_raise ].

Lemma no_raise_should_refresh_url :
  no_raise (kvs_hls._should_refresh_url env cfg).
Proof. unfold kvs_hls._should_refresh_url. by_structure. Qed.

Lemma keeps_should_refresh_url :
  keeps_frames (kvs_hls._should_refresh_url env cfg).
Proof. unfold kvs_hls._should_refresh_url. by_structure. Qed.

#[local] Hint Resolve no_raise_should_refresh_url keeps_should_refresh_url
  : hls.

Lemma no_raise_refresh_url_if_needed :
  no_raise (kvs_hls._refresh_url_if_needed env cfg).
Proof. unfold kvs_hls._refresh_url_if_needed. by_structure. Qed.

Lemma keeps_refresh_url_if_needed :
  keeps_frames (kvs_hls._refresh_url_if_needed env cfg).
Proof. unfold kvs_hls._refresh_url_if_needed. by_structure. Qed.

Lemma no_raise_calculate_backoff_delay :
  no_raise (kvs_hls._calculate_backoff_delay env cfg).
Proof. unfold kvs_hls._calculate_backoff_delay. by_structure. Qed.

Lemma keeps_calculate_backoff_delay :
  keeps_frames (kvs_hls._calculate_backoff_delay env cfg).
Proof. unfold kvs_hls._calculate_backoff_delay. by_structure. Qed.

Lemma keeps_reset_backoff : keeps_frames (kvs_hls._reset_backoff cfg).
Proof. unfold kvs_hls._reset_backoff. by_structure. Qed.

Lemma no_raise_reset_backoff : no_raise (kvs_hls._reset_backoff cfg).
Proof. unfold kvs_hls._reset_backoff. by_structure. Qed.

#[local] Hint Resolve no_raise_refresh_url_if_needed
  keeps_refresh_url_if_needed no_raise_calculate_backoff_delay
  keeps_calculate_backoff_delay keeps_reset_backoff no_raise_reset_backoff
  : hls.

Lemma no_raise_open_stream : no_raise (kvs_hls._open_stream env cfg).
Proof. unfold kvs_hls._open_stream. by_structure. Qed.

Lemma keeps_open_stream : keeps_frames (kvs_hls._open_stream env cfg).
Proof. unfold kvs_hls._open_stream. by_structure. Qed.

#[local] Hint Resolve no_raise_open_stream keeps_open_stream : hls.

Lemma fatal_handle_reconnect : fatal_only (kvs_hls._handle_reconnect env cfg).
Proof.
  intros st io e st' io'. unfold kvs_hls._handle_reconnect.
  unfold kvs_hls.bind at 1 2. cbn [kvs_hls.get kvs_hls.modify].
  destruct (kvs_hls.max_consecutive_errors cfg
            <=? kvs_hls._consecutive_errors st + 1)%Z eqn:Hcap.
  - intros [= <- <- <-]. left. split; [reflexivity|]. cbn. now apply Z.leb_le.
  - assert (Hrest : fatal_only
                      (kvs_hls.bind (kvs_hls._calculate_backoff_delay env cfg)
                         (fun delay =>
                            kvs_hls.bind (kvs_hls.time_sleep delay)
                              (fun _ =>
                                 kvs_hls.bind
                                   (kvs_hls.modify kvs_hls.count_reconnect)
                                   (fun _ => kvs_hls._open_stream env cfg)))))
      by by_structure.
    apply Hrest.
Qed.

Lemma keeps_handle_reconnect :
  keeps_frames (kvs_hls._handle_reconnect env cfg).
Proof. unfold kvs_hls._handle_reconnect. by_structure. Qed.

#[local] Hint Resolve fatal_handle_reconnect keeps_handle_reconnect : hls.

(** *** Delays that [time.sleep] accepts *)

(** The backoff of the state is not negative. *)
Definition tidy (st : kvs_hls.State) : Prop :=
  (0 <= kvs_hls._current_backoff st)%Q.

Definition keeps_tidy {A} (m : kvs_hls.M A) : Prop :=
  forall st io r st' io', m st io = (r, st', io') -> tidy st -> tidy st'.

(** From a tidy state the only exception is the fatal error. *)
Definition fatal_when_tidy {A} (m : kvs_hls.M A) : Prop :=
  forall st io e st' io',
    tidy st -> m st io = (Raise e, st', io') -> fatal e st'.

Lemma tidy_bind {A B} (m : kvs_hls.M A) (k : A -> kvs_hls.M B) :
  keeps_tidy m -> (forall a, keeps_tidy (k a)) -> keeps_tidy (kvs_hls.bind m k).
Proof.
  intros Hm Hk st io r st' io'. unfold kvs_hls.bind.
  destruct (m st io) as [[[a|e1] st1] io1] eqn:E.
  - intros E2 Ht. exact (Hk _ _ _ _ _ _ E2 (Hm _ _ _ _ _ E Ht)).
  - intros [= <- <- <-]. exact (Hm _ _ _ _ _ E).
Qed.

Lemma tidy_try {A} (m handler : kvs_hls.M A) :
  keeps_tidy m -> keeps_tidy handler ->
  keeps_tidy (kvs_hls.try_except m handler).
Proof.
  intros Hm Hh st io r st' io'. unfold kvs_hls.try_except.
  destruct (m st io) as [[[a|e1] st1] io1] eqn:E.
  - intros [= <- <- <-]. exact (Hm _ _ _ _ _ E).
  - intros E2 Ht. exact (Hh _ _ _ _ _ E2 (Hm _ _ _ _ _ E Ht)).
Qed.

Lemma tidy_modify f :
  (forall st, tidy st -> tidy (f st)) -> keeps_tidy (kvs_hls.modify f).
Proof. intros Hf st io r st' io' [= <- <- <-]. apply Hf. Qed.

Lemma fatal_when_tidy_bind {A B} (m : kvs_hls.M A) (k : A -> kvs_hls.M B) :
  keeps_tidy m -> fatal_when_tidy m -> (forall a, fatal_when_tidy (k a)) ->
  fatal_when_tidy (kvs_hls.bind m k).
Proof.
  intros Hm Hf Hk st io e st' io' Ht. unfold kvs_hls.bind.
  destruct (m st io) as [[[a|e1] st1] io1] eqn:E.
  - apply Hk. exact (Hm _ _ _ _ _ E Ht).
  - intros [= <- <- <-]. exact (Hf _ _ _ _ _ Ht E).
Qed.

Lemma fatal_when_tidy_try {A} (m handler : kvs_hls.M A) :
  keeps_tidy m -> fatal_when_tidy handler ->
  fatal_when_tidy (kvs_hls.try_except m handler).
Proof.
  intros Hm Hh st io e st' io' Ht. unfold kvs_hls.try_except.
  destruct (m st io) as [[[a|e1] st1] io1] eqn:E; [discriminate|].
  apply Hh. exact (Hm _ _ _ _ _ E Ht).
Qed.

Lemma fatal_when_tidy_of_no_raise {A} (m : kvs_hls.M A) :
  no_raise m -> fatal_when_tidy m.
Proof. intros Hm st io e st' io' _ E. exfalso. exact (Hm _ _ _ _ _ E). Qed.

(** The primitive steps leave the backoff alone. *)
Ltac primitive_tidy :=
  intros ? ? ? ? ?;
  cbv [kvs_hls.ret kvs_hls.get kvs_hls.raise kvs_hls.time_time
       kvs_hls.random_uniform kvs_hls.time_sleep kvs_hls.capture_not_open
       kvs_hls.capture_read_frame kvs_hls.open_capture kvs_hls._get_hls_url];
  repeat match goal with
         | |- context [match ?x with _ => _ end] => destruct x
         end;
  intros [= <- <- <-] Ht; exact Ht.

Lemma tidy_ret {A} (a : A) : keeps_tidy (kvs_hls.ret a).
Proof. primitive_tidy. Qed.

Lemma tidy_raise {A} e : keeps_tidy (@kvs_hls.raise A e).
Proof. primitive_tidy. Qed.

Lemma tidy_get : keeps_tidy kvs_hls.get.
Proof. primitive_tidy. Qed.

Lemma tidy_time_time : keeps_tidy (kvs_hls.time_time env).
Proof. primitive_tidy. Qed.

Lemma tidy_random_uniform : keeps_tidy (kvs_hls.random_uniform env).
Proof. primitive_tidy. Qed.

Lemma tidy_time_sleep d : keeps_tidy (kvs_hls.time_sleep d).
Proof. primitive_tidy. Qed.

Lemma tidy_capture_not_open : keeps_tidy (kvs_hls.capture_not_open env).
Proof. primitive_tidy. Qed.

Lemma tidy_capture_read_frame : keeps_tidy (kvs_hls.capture_read_frame env).
Proof. primitive_tidy. Qed.

Lemma tidy_open_capture : keeps_tidy (kvs_hls.open_capture env).
Proof. primitive_tidy. Qed.

Lemma tidy_get_hls_url : keeps_tidy (kvs_hls._get_hls_url env).
Proof. primitive_tidy. Qed.

#[local] Hint Resolve tidy_ret tidy_raise tidy_get tidy_time_time
  tidy_random_uniform tidy_time_sleep tidy_capture_not_open
  tidy_capture_read_frame tidy_open_capture tidy_get_hls_url : hls.

Section Accepted.
Hypothesis Hcfg : sane_delays cfg (kvs_hls.reconnect_delay cfg).
Hypothesis Hjitter : jitter_bounded env.

(** Goals about tidy states, by the structure of the computation. *)
Ltac by_tidy :=
  repeat first
    [ solve [auto with hls]
    | apply tidy_modify; intros ? Ht; first [exact Ht | exact (proj1 Hcfg)]
    | apply tidy_bind; [|intros ?]
    | apply tidy_try
    | apply fatal_when_tidy_bind; [| |intros ?]
    | apply fatal_when_tidy_try
    | match goal with
      | |- keeps_tidy (if ?b then _ else _) => destruct b
      | |- keeps_tidy (match ?x with _ => _ end) => destruct x
      | |- fatal_when_tidy (if ?b then _ else _) => destruct b
      | |- fatal_when_tidy (match ?x with _ => _ end) => destruct x
      end
    | apply fatal_when_tidy_of_no_raise ].

Lemma tidy_should_refresh_url :
  keeps_tidy (kvs_hls._should_refresh_url env cfg).
Proof. unfold kvs_hls._should_refresh_url. by_tidy. Qed.

#[local] Hint Resolve tidy_should_refresh_url : hls.

Lemma tidy_refresh_url_if_needed :
  keeps_tidy (kvs_hls._refresh_url_if_needed env cfg).
Proof. unfold kvs_hls._refresh_url_if_needed. by_tidy. Qed.

Lemma tidy_reset_backoff : keeps_tidy (kvs_hls._reset_backoff cfg).
Proof. unfold kvs_hls._reset_backoff. by_tidy. Qed.

Lemma tidy_calculate_backoff_delay :
  keeps_tidy (kvs_hls._calculate_backoff_delay env cfg).
Proof.
  intros st io r st' io'.
  cbv [kvs_hls._calculate_backoff_delay kvs_hls.bind kvs_hls.get
       kvs_hls.random_uniform kvs_hls.modify kvs_hls.ret].
  intros [= <- <- <-] Ht. unfold tidy in *. cbn.
  destruct Hcfg as (_ & HM & Hm & _).
  apply py_min_bounds; [nra | assumption].
Qed.

#[local] Hint Resolve tidy_refresh_url_if_needed tidy_reset_backoff
  tidy_calculate_backoff_delay : hls.

Lemma tidy_open_stream : keeps_tidy (kvs_hls._open_stream env cfg).
Proof. unfold kvs_hls._open_stream. by_tidy. Qed.

#[local] Hint Resolve tidy_open_stream : hls.

Lemma tidy_handle_reconnect : keeps_tidy (kvs_hls._handle_reconnect env cfg).
Proof. unfold kvs_hls._handle_reconnect. by_tidy. Qed.

(** From a tidy state the backoff sleep of [_handle_reconnect] returns. *)
Lemma fatal_when_tidy_handle_reconnect :
  fatal_when_tidy (kvs_hls._handle_reconnect env cfg).
Proof.
  intros st io e st' io' Ht. unfold kvs_hls._handle_reconnect.
  unfold kvs_hls.bind at 1 2. cbn [kvs_hls.get kvs_hls.modify].
  destruct (kvs_hls.max_consecutive_errors cfg
            <=? kvs_hls._consecutive_errors st + 1)%Z eqn:Hcap.
  - intros [= <- <- <-]. split; [reflexivity|]. cbn. now apply Z.leb_le.
  - unfold kvs_hls.bind at 1, kvs_hls._calculate_backoff_delay,
      kvs_hls.bind at 1 2 3, kvs_hls.get, kvs_hls.random_uniform,
      kvs_hls.modify, kvs_hls.ret.
    cbn [kvs_hls._current_backoff kvs_hls.set_consecutive_errors].
    unfold kvs_hls.bind at 1, kvs_hls.time_sleep, time_sleep_result.
    rewrite (delay_accepted env cfg (kvs_hls._current_backoff st)
               (kvs_hls.n_rand io));
      [|destruct Hcfg as (_ & HM & Hm & Hfit); now repeat split|assumption].
    intros E. exfalso. revert E.
    assert (Hrest : no_raise
                      (kvs_hls.bind (kvs_hls.modify kvs_hls.count_reconnect)
                         (fun _ => kvs_hls._open_stream env cfg)))
      by by_structure.
    apply Hrest.
Qed.

#[local] Hint Resolve tidy_handle_reconnect fatal_when_tidy_handle_reconnect
  : hls.

Lemma fatal_when_tidy_read_frame :
  fatal_when_tidy (kvs_hls.read_frame env cfg).
Proof. unfold kvs_hls.read_frame. by_tidy. Qed.

End Accepted.

Lemma fatal_read_frame : fatal_only (kvs_hls.read_frame env cfg).
Proof. unfold kvs_hls.read_frame. by_structure. Qed.

(** X28. [read_frame] raises [FrameSourceError] only with the error counter
    at or above [max_consecutive_errors], and the only other exception that
    leaves it is the one [time.sleep] raised on a backoff delay it rejected
    (a negative delay, or one beyond the range of the clock): every failure
    of the control plane, of the decoder or of a read ends in [None]. When
    the delays are ones that [time.sleep] accepts (initial delay, current
    backoff, delay cap and multiplier are not negative, the cap times 1.2
    fits the clock and the jitter is drawn from [0.8, 1.2]),
    [FrameSourceError] is the only exception. *)
Theorem read_frame_raises_only_fatal :
  forall (st : kvs_hls.State) (io : kvs_hls.Io) (e : exn)
         (st' : kvs_hls.State) (io' : kvs_hls.Io),
    kvs_hls.read_frame env cfg st io = (Raise e, st', io') ->
    ((e = FrameSourceError
      /\ (kvs_hls.max_consecutive_errors cfg
          <= kvs_hls._consecutive_errors st')%Z)
     \/ (exists l delay,
           kvs_hls.sleeps io' = l ++ [delay] /\ sleep_error delay = Some e))
    /\ (sane_delays cfg (kvs_hls.reconnect_delay cfg) ->
        jitter_bounded env ->
        (0 <= kvs_hls._current_backoff st)%Q ->
        e = FrameSourceError
        /\ (kvs_hls.max_consecutive_errors cfg
            <= kvs_hls._consecutive_errors st')%Z).
Proof.
  intros st io e st' io' E. split.
  - exact (fatal_read_frame _ _ _ _ _ E).
  - intros Hcfg Hjitter Ht.
    exact (fatal_when_tidy_read_frame Hcfg Hjitter _ _ _ _ _ Ht E).
Qed.

Lemma bind_ok_inv {A B} (m : kvs_hls.M A) (k : A -> kvs_hls.M B) st io b st'
  io' :
  kvs_hls.bind m k st io = (Ok b, st', io') ->
  exists a st1 io1, m st io = (Ok a, st1, io1) /\ k a st1 io1 = (Ok b, st', io').
Proof.
  unfold kvs_hls.bind. destruct (m st io) as [[[a|e] st1] io1]; [eauto|].
  discriminate.
Qed.

Lemma try_ok_inv {A} (m handler : kvs_hls.M A) st io b st' io' :
  kvs_hls.try_except m handler st io = (Ok b, st', io') ->
  m st io = (Ok b, st', io')
  \/ exists e st1 io1,
       m st io = (Raise e, st1, io1) /\ handler st1 io1 = (Ok b, st', io').
Proof.
  unfold kvs_hls.try_except. destruct (m st io) as [[[a|e] st1] io1].
  - now left.
  - intros E. right. exists e, st1, io1. now split.
Qed.

Lemma reconnect_then_none st io (x : nat * Q) st' io' :
  kvs_hls.bind (kvs_hls._handle_reconnect env cfg)
    (fun _ => kvs_hls.ret None) st io
  <> (Ok (Some x), st', io').
Proof.
  intros E. apply bind_ok_inv in E as (a & st1 & io1 & _ & E). discriminate E.
Qed.

(** X29. A [read_frame] call that returns a frame leaves the source as
    good as new: the error counter is zero, the backoff is back at
    [reconnect_delay], [frames_total] has grown by exactly one and
    [last_frame_timestamp] is the timestamp returned with the frame. *)
Theorem read_frame_success_resets :
  forall (st : kvs_hls.State) (io : kvs_hls.Io) (frame : nat) (timestamp : Q)
         (st' : kvs_hls.State) (io' : kvs_hls.Io),
    kvs_hls.read_frame env cfg st io = (Ok (Some (frame, timestamp)), st', io') ->
    kvs_hls._consecutive_errors st' = 0%Z
    /\ kvs_hls._current_backoff st' = kvs_hls.reconnect_delay cfg
    /\ kvs_hls.frames_total (kvs_hls.metrics st')
       = (kvs_hls.frames_total (kvs_hls.metrics st) + 1)%Z
    /\ kvs_hls.last_frame_timestamp (kvs_hls.metrics st') = Some timestamp.
Proof.
  intros st io frame timestamp st' io' E. unfold kvs_hls.read_frame in E.
  apply bind_ok_inv in E as (st0 & s1 & i1 & Eget & E).
  injection Eget as <- <- <-.
  apply bind_ok_inv in E as (ready & s2 & i2 & Eready & E).
  assert (K1 : same_frames st s2).
  { revert Eready. generalize (Ok ready).
    match goal with
    | |- forall r, ?m st io = _ -> _ =>
      assert (Hk : keeps_frames m) by by_structure
    end.
    intros r Er. exact (Hk _ _ _ _ _ Er). }
  destruct ready; cbn [negb] in E; [|discriminate E].
  apply bind_ok_inv in E as (refreshed & s3 & i3 & Eref & E).
  pose proof (keeps_refresh_url_if_needed _ _ _ _ _ Eref) as K2.
  apply bind_ok_inv in E as (ready2 & s4 & i4 & Eready2 & E).
  assert (K3 : same_frames s3 s4).
  { revert Eready2. generalize (Ok ready2).
    match goal with
    | |- forall r, ?m s3 i3 = _ -> _ =>
      assert (Hk : keeps_frames m) by by_structure
    end.
    intros r Er. exact (Hk _ _ _ _ _ Er). }
  destruct ready2; cbn [negb] in E; [|discriminate E].
  assert (K : same_frames st s4).
  { eapply same_frames_trans; [exact K1|].
    eapply same_frames_trans; [exact K2 | exact K3]. }
  apply try_ok_inv in E as [E|(e & s5 & i5 & _ & E)].
  2:{ apply bind_ok_inv in E as (u & s6 & i6 & _ & E).
      now apply reconnect_then_none in E. }
  apply bind_ok_inv in E as (closed & s5 & i5 & Eclosed & E).
  pose proof (keeps_capture_not_open _ _ _ _ _ Eclosed) as K5.
  destruct closed; [now apply reconnect_then_none in E|].
  apply bind_ok_inv in E as (got & s6 & i6 & Egot & E).
  pose proof (keeps_capture_read_frame _ _ _ _ _ Egot) as K6.
  destruct got as [frame'|].
  2:{ apply bind_ok_inv in E as (u & s7 & i7 & _ & E).
      now apply reconnect_then_none in E. }
  apply bind_ok_inv in E as (ts' & s7 & i7 & Ets & E).
  pose proof (keeps_time_time _ _ _ _ _ Ets) as K7.
  cbv [kvs_hls.bind kvs_hls.modify kvs_hls._reset_backoff kvs_hls.ret] in E.
  injection E as <- <- <- <-.
  destruct K as [F1 F2], K5 as [G1 G2], K6 as [H1 H2], K7 as [I1 I2].
  repeat split; cbn; congruence.
Qed.

(** X30. Refreshing the URL never touches the stream: whatever
    [_refresh_url_if_needed] does, it raises nothing, opens no capture and
    leaves [_capture], the error counter and the backoff as they were. When
    it fetched a new URL the state becomes [RECONNECTING] and the capture
    that was open on the old URL stays in use; when it returns [False] the
    state is unchanged. *)
Theorem refresh_keeps_capture :
  forall (st : kvs_hls.State) (io : kvs_hls.Io) (r : result bool)
         (st' : kvs_hls.State) (io' : kvs_hls.Io),
    kvs_hls._refresh_url_if_needed env cfg st io = (r, st', io') ->
    kvs_hls._capture st' = kvs_hls._capture st
    /\ kvs_hls.n_open io' = kvs_hls.n_open io
    /\ kvs_hls._consecutive_errors st' = kvs_hls._consecutive_errors st
    /\ kvs_hls._current_backoff st' = kvs_hls._current_backoff st
    /\ ((r = Ok true /\ st' = st /\ kvs_hls.n_url io' = kvs_hls.n_url io)
        \/ (r = Ok false /\ st' = st
            /\ kvs_hls.get_hls_url env (kvs_hls.n_url io) = None)
        \/ (r = Ok true
            /\ kvs_hls._connection_state st' = kvs_hls.RECONNECTING
            /\ kvs_hls._hls_url st' = kvs_hls.get_hls_url env (kvs_hls.n_url io)
            /\ kvs_hls.n_url io' = S (kvs_hls.n_url io))).
Proof.
  intros st io r st' io'.
  cbv [kvs_hls._refresh_url_if_needed kvs_hls._should_refresh_url
       kvs_hls.bind kvs_hls.try_except kvs_hls.get kvs_hls.ret
       kvs_hls.modify kvs_hls.time_time kvs_hls._get_hls_url].
  repeat match goal with
         | |- context [match ?x with _ => _ end] =>
           lazymatch x with
           | context [match _ with _ => _ end] => fail
           | _ => destruct x eqn:?; cbn
           end
         end;
    intros [= <- <- <-]; cbn; (do 4 (split; [reflexivity|]));
    first [ left; now repeat split
          | right; left; now repeat split
          | right; right; now repeat split ].
Qed.

End FrameSource.

(** A source two failures away from nothing: the next failure is fatal. *)
Definition worn_state : kvs_hls.State :=
  kvs_hls.set_consecutive_errors 2 (kvs_hls.init s3_cfg).

Lemma read_frame_raises_only_fatal_witness :
  fst (fst (kvs_hls.read_frame dead_env s3_cfg worn_state kvs_hls.io0))
  = Raise FrameSourceError
  /\ (kvs_hls.max_consecutive_errors s3_cfg
      <= kvs_hls._consecutive_errors
           (snd (fst (kvs_hls.read_frame dead_env s3_cfg worn_state
                        kvs_hls.io0))))%Z.
Proof.
  assert (E : kvs_hls.read_frame dead_env s3_cfg worn_state kvs_hls.io0
              = (Raise FrameSourceError,
                 snd (fst (kvs_hls.read_frame dead_env s3_cfg worn_state
                             kvs_hls.io0)),
                 snd (kvs_hls.read_frame dead_env s3_cfg worn_state
                        kvs_hls.io0))).
  { vm_compute. reflexivity. }
  split; [exact (f_equal (fun x => fst (fst x)) E)|].
  apply (proj2 (read_frame_raises_only_fatal dead_env s3_cfg _ _ _ _ _ E)).
  - exact s3_cfg_sane.
  - exact dead_env_jitter.
  - vm_compute. discriminate.
Defined.

(** A source configured with a negative initial delay. *)
Definition backwards_cfg : kvs_hls.Config := kvs_hls.MkConfig 300 30 (-1) 10 2 3.

(** With [reconnect_delay = -1] the first failed call lets the [ValueError]
    of [time.sleep(-1.0)] escape. *)
Lemma negative_delay_escapes :
  fst (fst (kvs_hls.read_frame dead_env backwards_cfg
              (kvs_hls.init backwards_cfg) kvs_hls.io0))
  = Raise ValueError
  /\ map Qred
       (kvs_hls.sleeps
          (snd (kvs_hls.read_frame dead_env backwards_cfg
                  (kvs_hls.init backwards_cfg) kvs_hls.io0)))
     = [(-1)%Q].
Proof. split; vm_compute; reflexivity. Qed.

(** A stream that opens at once and delivers frame 7 at time 5. *)
Definition live_env : kvs_hls.Env :=
  kvs_hls.MkEnv (fun _ => 5%Q) (fun _ => Some "https://hls"%string)
    (fun _ => kvs_hls.Opened) (fun _ _ => true)
    (fun _ _ => kvs_hls.ReadFrame 7) (fun _ => 1%Q).

Lemma read_frame_success_resets_witness :
  fst (fst (kvs_hls.read_frame live_env s3_cfg worn_state kvs_hls.io0))
  = Ok (Some (7%nat, 5%Q))
  /\ kvs_hls._consecutive_errors
       (snd (fst (kvs_hls.read_frame live_env s3_cfg worn_state kvs_hls.io0)))
     = 0%Z
  /\ kvs_hls.frames_total
       (kvs_hls.metrics
          (snd (fst (kvs_hls.read_frame live_env s3_cfg worn_state
                       kvs_hls.io0))))
     = (kvs_hls.frames_total (kvs_hls.metrics worn_state) + 1)%Z.
Proof.
  assert (E : kvs_hls.read_frame live_env s3_cfg worn_state kvs_hls.io0
              = (Ok (Some (7%nat, 5%Q)),
                 snd (fst (kvs_hls.read_frame live_env s3_cfg worn_state
                             kvs_hls.io0)),
                 snd (kvs_hls.read_frame live_env s3_cfg worn_state
                        kvs_hls.io0))).
  { vm_compute. reflexivity. }
  split; [exact (f_equal (fun x => fst (fst x)) E)|].
  destruct (read_frame_success_resets live_env s3_cfg _ _ _ _ _ _ E)
    as (Herr & _ & Hframes & _).
  split; assumption.
Defined.

(** A connected source whose URL is 280 seconds old at time 5. *)
Definition stale_state : kvs_hls.State :=
  kvs_hls.MkState (Some "https://old") (Some (-275)%Q) (Some 0%nat)
    kvs_hls.CONNECTED 0 1 (kvs_hls.MkMetrics 0 0 None 1 0).

Lemma refresh_keeps_capture_witness :
  fst (fst (kvs_hls._refresh_url_if_needed live_env s3_cfg stale_state
              kvs_hls.io0))
  = Ok true
  /\ kvs_hls._hls_url
       (snd (fst (kvs_hls._refresh_url_if_needed live_env s3_cfg stale_state
                    kvs_hls.io0)))
     = Some "https://hls"%string
  /\ kvs_hls._capture
       (snd (fst (kvs_hls._refresh_url_if_needed live_env s3_cfg stale_state
                    kvs_hls.io0)))
     = kvs_hls._capture stale_state
  /\ kvs_hls.n_open
       (snd (kvs_hls._refresh_url_if_needed live_env s3_cfg stale_state
               kvs_hls.io0))
     = kvs_hls.n_open kvs_hls.io0.
Proof.
  split; [vm_compute; reflexivity|]. split; [vm_compute; reflexivity|].
  destruct (kvs_hls._refresh_url_if_needed live_env s3_cfg stale_state
              kvs_hls.io0) as [[r st'] io'] eqn:E.
  destruct (refresh_keeps_capture live_env s3_cfg _ _ _ _ _ E)
    as (Hcap & Hopen & _).
  split; assumption.
Defined.
